(** * elrs-map: the tile cache and the slippy-map tile enumeration

    A shallow embedding of [tiles.go] (package main): the tile manager
    ([TileManager], [GetTile], [loadTile], [loadFromCache], [downloadTile],
    [ClearCache], [SetSource], [ToggleSource]), the viewport enumeration
    ([GetTilesForView]) and the in-memory reader ([ByteReader]).

    Conventions.
    - Go's [int] is taken at 64 bits (two's complement, the amd64 and arm64
      builds); every arithmetic operation of the source is written with its
      wrap-around. Division by the constants 256 and 2 is [÷] (truncation
      toward zero), the same reduced to 64 bits.
    - A run-time panic (negative shift count, integer division by zero,
      slice bounds) is the [Panic] result of the [Result] monad.
    - Go maps are stdpp [gmap]s; reading [m[k]] from a [map[K]bool] yields
      [false] for a missing key.
    - The external world (the files of the disk cache, the tile server, the
      image decoder) is explicit: a [World] record and an [Env] oracle. *)

From Stdlib Require Import ZArith Lia List Ascii.
From stdpp Require Import gmap strings list fin_maps pretty.

Local Open Scope Z_scope.

(** ** Results of code that may panic *)

Inductive Result (A : Type) : Type :=
| Ok (a : A)
| Panic.
Arguments Ok {A} a.
Arguments Panic {A}.

Definition rbind {A B} (c : Result A) (k : A → Result B) : Result B :=
  match c with
  | Ok a => k a
  | Panic => Panic
  end.

Notation "x <-- c ;;; k" := (rbind c (fun x => k))
  (at level 100, c at next level, right associativity).

(** [for _, x := range xs { s = body(x, s) }] with a body that may panic. *)
Fixpoint forEach {A S} (body : A → S → Result S) (xs : list A) (s : S) : Result S :=
  match xs with
  | [] => Ok s
  | x :: rest => s' <-- body x s ;;; forEach body rest s'
  end.

(** The number of elements of [l] that satisfy [f]. *)
Definition countb {A} (f : A → bool) (l : list A) : nat := length (List.filter f l).

(** ** Go's [int] *)

Module GoInt.

Definition minInt : Z := - 2 ^ 63.
Definition maxInt : Z := 2 ^ 63 - 1.

Definition inRange (z : Z) : Prop := minInt <= z <= maxInt.

(** Reduction of a mathematical integer to its 64-bit two's-complement value. *)
Definition wrap (z : Z) : Z := (z + 2 ^ 63) mod 2 ^ 64 - 2 ^ 63.

Definition add (a b : Z) : Z := wrap (a + b).
Definition sub (a b : Z) : Z := wrap (a - b).
Definition neg (a : Z) : Z := wrap (- a).

(** [a % b] has the sign of [a] and panics on a zero divisor. *)
Definition rem (a b : Z) : Result Z :=
  if b =? 0 then Panic else Ok (Z.rem a b).

(** [a << s] for an [int] shift count: a negative count panics, a count of 64
    or more shifts every bit out. *)
Definition shl (a s : Z) : Result Z :=
  if s <? 0 then Panic
  else if 64 <=? s then Ok 0
  else Ok (wrap (a * 2 ^ s)).

(** The values [lo, lo+1, ..., hi] visited by
    [for i := lo; i <= hi; i++]; empty when [hi < lo]. *)
Definition upto (lo hi : Z) : list Z :=
  seqZ lo (hi - lo + 1).

End GoInt.

(** ** Strings *)

Fixpoint everyChar (f : Ascii.ascii → bool) (s : string) : bool :=
  match s with
  | EmptyString => true
  | String c rest => f c && everyChar f rest
  end.

(** The characters of a number printed with [%d]. *)
Definition decimalChar (c : Ascii.ascii) : bool :=
  match c with
  | "-" | "0" | "1" | "2" | "3" | "4" | "5" | "6" | "7" | "8" | "9" => true
  | _ => false
  end%char.

(** ** Tile coordinates *)

Definition TileSize : Z := 256.
Definition MaxZoom : Z := 19.
Definition MinZoom : Z := 1.
Definition DefaultZoom : Z := 15.

(** [type MapSource int] with its two named constants. *)
Definition MapSource : Type := Z.
Definition MapSourceStreet : MapSource := 0.
Definition MapSourceSatellite : MapSource := 1.

(** [type TileCoord struct { X, Y, Z int }]; the field [Z] is [tcZ] here since
    [Z] names the integers. *)
Record TileCoord : Type := mkTileCoord { tcX : Z; tcY : Z; tcZ : Z }.

#[global] Instance TileCoord_eq_dec : EqDecision TileCoord.
Proof. solve_decision. Defined.

#[global] Instance TileCoord_countable : Countable TileCoord.
Proof.
  refine (inj_countable' (fun c => (tcX c, tcY c, tcZ c))
                         (fun t => mkTileCoord t.1.1 t.1.2 t.2) _).
  by intros [].
Defined.

(** [type TileCacheKey struct { Coord TileCoord; Source MapSource }] *)
Record TileCacheKey : Type := mkKey { Coord : TileCoord; Source : MapSource }.

#[global] Instance TileCacheKey_eq_dec : EqDecision TileCacheKey.
Proof. solve_decision. Defined.

#[global] Instance TileCacheKey_countable : Countable TileCacheKey.
Proof.
  refine (inj_countable' (fun k => (Coord k, Source k))
                         (fun t => mkKey t.1 t.2) _).
  by intros [].
Defined.

(** ** The viewport enumeration *)

Section View.

(** [LatLonToTile] works on [float64] with [math.Pow], [math.Tan] and
    [math.Asinh]; the enumeration only uses the pair of [int]s it returns, so
    the projection is a parameter here. *)
Context {float64 : Type}.
Variable LatLonToTile : float64 → float64 → Z → Z * Z.

(** The body of the inner loop: [None] is the [continue] of an invalid row. *)
Definition viewCell (centerX centerY zoom dx dy : Z) : Result (option TileCoord) :=
  let x := GoInt.add centerX dx in
  let y := GoInt.add centerY dy in
  n <-- GoInt.shl 1 zoom ;;;
  r <-- GoInt.rem x n ;;;
  x' <-- GoInt.rem (GoInt.add r n) n ;;;
  if (y <? 0) || (n <=? y) then Ok None
  else Ok (Some (mkTileCoord x' y zoom)).

Definition tilesAcross (screen : Z) : Z :=
  GoInt.add (GoInt.wrap (screen ÷ TileSize)) 2.

(** The loop bounds [-tiles / 2] and [tiles / 2]. *)
Definition loopLo (tiles : Z) : Z := GoInt.wrap (GoInt.neg tiles ÷ 2).
Definition loopHi (tiles : Z) : Z := GoInt.wrap (tiles ÷ 2).

Definition GetTilesForView (centerLat centerLon : float64) (zoom screenW screenH : Z)
  : Result (list TileCoord) :=
  let '(centerX, centerY) := LatLonToTile centerLat centerLon zoom in
  let tilesX := tilesAcross screenW in
  let tilesY := tilesAcross screenH in
  forEach (fun dx coords =>
    forEach (fun dy coords =>
      c <-- viewCell centerX centerY zoom dx dy ;;;
      Ok (match c with
          | Some t => coords ++ [t]
          | None => coords
          end))
      (GoInt.upto (loopLo tilesY) (loopHi tilesY)) coords)
    (GoInt.upto (loopLo tilesX) (loopHi tilesX)) [].

End View.

(** [tiles / 2] for [tiles = screen / TileSize + 2]: the number of columns (or
    rows) the loops visit on each side of the center tile. *)
Definition halfSpan (screen : Z) : Z := (screen ÷ TileSize + 2) ÷ 2.

(** The block of tiles around [(centerX, centerY)], [hx] columns to each side
    (wrapped modulo [2^zoom]) and [hy] rows to each side, column by column. *)
Definition viewBlock (centerX centerY zoom hx hy : Z) : list TileCoord :=
  GoInt.upto (- hx) hx ≫= fun dx =>
  GoInt.upto (- hy) hy ≫= fun dy =>
  [mkTileCoord ((centerX + dx) mod 2 ^ zoom) (centerY + dy) zoom].

(** [ceil(a / b)] for positive [b]. *)
Definition ceilDiv (a b : Z) : Z := (a + b - 1) / b.

(** The distinct columns and the distinct rows of a sequence of tiles. *)
Definition columnsOf (coords : list TileCoord) : list Z := remove_dups (tcX <$> coords).
Definition rowsOf (coords : list TileCoord) : list Z := remove_dups (tcY <$> coords).

(** A projection for concrete runs: it takes the center tile itself as the
    two coordinates. *)
Definition centerAt (x y : Z) (zoom : Z) : Z * Z := (x, y).

(** ** The reader over a byte slice *)

(** [type ByteReader struct { data []byte; pos int }] *)
Record ByteReader : Type := mkByteReader { data : list Byte.byte; pos : Z }.

Definition NewByteReader (data : list Byte.byte) : ByteReader :=
  {| data := data; pos := 0 |}.

(** The only error value [Read] returns. *)
Inductive error : Type := EOF.

(** The built-in [copy(dst, src)]: the first [min(len(dst), len(src))]
    elements of [src] overwrite the start of [dst]; the count is returned. *)
Definition copy (dst src : list Byte.byte) : list Byte.byte * Z :=
  let n := Nat.min (length dst) (length src) in
  (take n src ++ drop n dst, Z.of_nat n).

(** What a call [r.Read(p)] leaves behind: the two results, the buffer [p]
    and the reader. *)
Record ReadOut : Type := mkReadOut {
  out_n : Z;
  out_err : option error;
  out_p : list Byte.byte;
  out_r : ByteReader
}.

Definition Read (r : ByteReader) (p : list Byte.byte) : Result ReadOut :=
  if Z.of_nat (length (data r)) <=? pos r then
    Ok {| out_n := 0; out_err := Some EOF; out_p := p; out_r := r |}
  else if pos r <? 0 then Panic  (* r.data[r.pos:] with a negative bound *)
  else
    let '(p', n) := copy p (drop (Z.to_nat (pos r)) (data r)) in
    Ok {| out_n := n; out_err := None; out_p := p';
          out_r := {| data := data r; pos := GoInt.add (pos r) n |} |}.

(** A client of the reader: one [Read] per buffer of [bufs], in turn, keeping
    the [n] bytes each call delivered, until a call reports [EOF] (the flag of
    the result) or the buffers run out. *)
Fixpoint readWith (bufs : list (list Byte.byte)) (r : ByteReader)
  : Result (list Byte.byte * bool * ByteReader) :=
  match bufs with
  | [] => Ok ([], false, r)
  | p :: rest =>
    o <-- Read r p ;;;
    match out_err o with
    | Some EOF => Ok ([], true, out_r o)
    | None =>
      t <-- readWith rest (out_r o) ;;;
      Ok (take (Z.to_nat (out_n o)) (out_p o) ++ t.1.1, t.1.2, t.2)
    end
  end.

(** A reader between the start and the end of a slice whose length is an
    [int]: every reader that [NewByteReader] and [Read] produce. *)
Definition wellPlaced (r : ByteReader) : Prop :=
  0 <= pos r <= Z.of_nat (length (data r)) ∧ Z.of_nat (length (data r)) <= GoInt.maxInt.

(** ** The tile manager *)

(** Lines of the log, by the [log.Printf] call that writes them. *)
Inductive LogLine : Type :=
| TileRequestError (coord : TileCoord)
| TileDownloadError (coord : TileCoord)
| TileHTTPError (coord : TileCoord) (status : Z)
| TileReadError (coord : TileCoord)
| TileCacheWriteError (coord : TileCoord)
| TileDecodeError (coord : TileCoord).

(** What the tile server does with one request. *)
Inductive HttpBody : Type :=
| BodyError                          (* io.ReadAll fails *)
| BodyData (bytes : list Byte.byte).

Inductive HttpReply : Type :=
| NewRequestError                    (* http.NewRequest fails *)
| DoError                            (* tm.client.Do fails: transport, timeout *)
| Response (status : Z) (body : HttpBody).

Definition StatusOK : Z := 200.

(** The answers of the environment during one fetch. *)
Record Env : Type := mkEnv {
  httpReply : string → HttpReply;    (* by URL *)
  writeFails : string → bool         (* os.WriteFile fails, by path *)
}.

Section Manager.

(** [*ebiten.Image], never nil when it comes out of the decoder. *)
Context {Image : Type}.

(** [image.Decode] followed by [ebiten.NewImageFromImage], on the bytes the
    reader delivers; [None] is a decode error. *)
Variable decode : list Byte.byte → option Image.

(** [filepath.Join] of three elements. *)
Variable filepathJoin : string → string → string → string.

(** [type TileManager struct]: the fields [mu] (the lock) and [client] have
    no state of their own here; the lock is the atomicity of the steps below
    and the client's behaviour is in [Env]. *)
Record TileManager : Type := mkTileManager {
  cacheDir : string;
  source : MapSource;
  tiles : gmap TileCacheKey Image;
  loading : gmap TileCacheKey bool
}.

Definition NewTileManager (cacheDir : string) : TileManager :=
  {| cacheDir := cacheDir; source := MapSourceSatellite; tiles := ∅; loading := ∅ |}.

(** The manager with what its goroutines can touch outside it: the files of
    the disk cache by path (a file that cannot be opened is absent), the URLs
    handed to [client.Do] and the log, both oldest first. *)
Record World : Type := mkWorld {
  tm : TileManager;
  disk : gmap string (list Byte.byte);
  requests : list string;
  logs : list LogLine
}.

Definition withTm (w : World) (m : TileManager) : World :=
  {| tm := m; disk := disk w; requests := requests w; logs := logs w |}.

Definition logPrintf (w : World) (l : LogLine) : World :=
  {| tm := tm w; disk := disk w; requests := requests w; logs := logs w ++ [l] |}.

(** *** Critical sections: each is one atomic step under [tm.mu] *)

Definition SetSource (m : TileManager) (s : MapSource) : TileManager :=
  {| cacheDir := cacheDir m; source := s; tiles := tiles m; loading := loading m |}.

Definition GetSource (m : TileManager) : MapSource := source m.

Definition ToggleSource (m : TileManager) : TileManager * MapSource :=
  let m' :=
    if decide (source m = MapSourceStreet)
    then SetSource m MapSourceSatellite
    else SetSource m MapSourceStreet in
  (m', source m').

Definition SourceName (m : TileManager) : string :=
  if decide (GetSource m = MapSourceStreet) then "Street"
  else if decide (GetSource m = MapSourceSatellite) then "Satellite"
  else "Unknown".

Definition ClearCache (m : TileManager) : TileManager :=
  {| cacheDir := cacheDir m; source := source m; tiles := ∅; loading := loading m |}.

(** [tm.loading[key]] as an expression. *)
Definition isLoading (m : TileManager) (key : TileCacheKey) : bool :=
  default false (loading m !! key).

(** [tm.loading[key] = true] *)
Definition markLoading (m : TileManager) (key : TileCacheKey) : TileManager :=
  {| cacheDir := cacheDir m; source := source m; tiles := tiles m;
     loading := <[key := true]> (loading m) |}.

(** [delete(tm.loading, key)] *)
Definition clearLoading (m : TileManager) (key : TileCacheKey) : TileManager :=
  {| cacheDir := cacheDir m; source := source m; tiles := tiles m;
     loading := delete key (loading m) |}.

(** [tm.tiles[key] = img] *)
Definition publish (m : TileManager) (key : TileCacheKey) (img : Image) : TileManager :=
  {| cacheDir := cacheDir m; source := source m;
     tiles := <[key := img]> (tiles m); loading := loading m |}.

(** *** Paths and URLs *)

Definition cachePath (m : TileManager) (coord : TileCoord) (src : MapSource) : string :=
  let sourceDir :=
    if decide (src = MapSourceStreet) then "street" else "satellite" in
  filepathJoin (cacheDir m) sourceDir
    (pretty (tcZ coord) +:+ "_" +:+ pretty (tcX coord) +:+ "_" +:+ pretty (tcY coord) +:+ ".jpg").

Definition tileURL (coord : TileCoord) (src : MapSource) : string :=
  let zyx := pretty (tcZ coord) +:+ "/" +:+ pretty (tcY coord) +:+ "/" +:+ pretty (tcX coord) in
  if decide (src = MapSourceStreet) then
    "https://server.arcgisonline.com/ArcGIS/rest/services/World_Street_Map/MapServer/tile/" +:+ zyx
  else if decide (src = MapSourceSatellite) then
    "https://server.arcgisonline.com/ArcGIS/rest/services/World_Imagery/MapServer/tile/" +:+ zyx
  else "".

(** *** The two sources of a tile *)

Definition loadFromCache (w : World) (coord : TileCoord) (src : MapSource) : option Image :=
  match disk w !! cachePath (tm w) coord src with
  | None => None
  | Some bytes => decode bytes
  end.

Definition downloadTile (env : Env) (w : World) (coord : TileCoord) (src : MapSource)
  : option Image * World :=
  let url := tileURL coord src in
  match httpReply env url with
  | NewRequestError => (None, logPrintf w (TileRequestError coord))
  | DoError =>
    let w := {| tm := tm w; disk := disk w; requests := requests w ++ [url]; logs := logs w |} in
    (None, logPrintf w (TileDownloadError coord))
  | Response status body =>
    let w := {| tm := tm w; disk := disk w; requests := requests w ++ [url]; logs := logs w |} in
    if decide (status ≠ StatusOK) then (None, logPrintf w (TileHTTPError coord status))
    else
      match body with
      | BodyError => (None, logPrintf w (TileReadError coord))
      | BodyData bytes =>
        let path := cachePath (tm w) coord src in
        let w :=
          if writeFails env path then logPrintf w (TileCacheWriteError coord)
          else {| tm := tm w; disk := <[path := bytes]> (disk w);
                  requests := requests w; logs := logs w |} in
        match decode bytes with
        | None => (None, logPrintf w (TileDecodeError coord))
        | Some img => (Some img, w)
        end
      end
  end.

(** *** Goroutines

    A goroutine is a program counter between two critical sections. *)

(** Inside [GetTile]. *)
Inductive GetTilePC : Type :=
| GT_entry (coord : TileCoord)                     (* before tm.GetSource() *)
| GT_check (coord : TileCoord) (src : MapSource)   (* before the RLock *)
| GT_mark (coord : TileCoord) (src : MapSource)    (* RUnlock done, before the Lock *)
| GT_go (coord : TileCoord) (src : MapSource)      (* before the go statement *)
| GT_return (tile : option Image).

(** Inside [loadTile]. *)
Inductive LoadPC : Type :=
| LT_entry (coord : TileCoord) (src : MapSource)     (* before loadFromCache *)
| LT_download (coord : TileCoord) (src : MapSource)  (* before downloadTile *)
| LT_publish (key : TileCacheKey) (img : Image)      (* before tm.tiles[key] = img *)
| LT_defer (key : TileCacheKey)                      (* before the deferred delete *)
| LT_done.

Inductive Thread : Type :=
| InGetTile (pc : GetTilePC)
| InLoadTile (pc : LoadPC)
| InClearCache
| InSetSource (s : MapSource)
| InToggleSource
| Returned.

(** One step of a goroutine inside [GetTile]: the world after it, where the
    goroutine stands, and the goroutines it starts. *)
Definition stepGetTile (w : World) (pc : GetTilePC) : World * GetTilePC * list Thread :=
  match pc with
  | GT_entry coord => (w, GT_check coord (GetSource (tm w)), [])
  | GT_check coord src =>
    let key := mkKey coord src in
    match tiles (tm w) !! key with
    | Some tile => (w, GT_return (Some tile), [])
    | None =>
      if isLoading (tm w) key then (w, GT_return None, [])
      else (w, GT_mark coord src, [])
    end
  | GT_mark coord src =>
    (withTm w (markLoading (tm w) (mkKey coord src)), GT_go coord src, [])
  | GT_go coord src => (w, GT_return None, [InLoadTile (LT_entry coord src)])
  | GT_return tile => (w, GT_return tile, [])
  end.

(** One step of a goroutine running [loadTile]. *)
Definition stepLoadTile (env : Env) (w : World) (pc : LoadPC) : World * LoadPC :=
  match pc with
  | LT_entry coord src =>
    match loadFromCache w coord src with
    | Some img => (w, LT_publish (mkKey coord src) img)
    | None => (w, LT_download coord src)
    end
  | LT_download coord src =>
    match downloadTile env w coord src with
    | (Some img, w') => (w', LT_publish (mkKey coord src) img)
    | (None, w') => (w', LT_defer (mkKey coord src))
    end
  | LT_publish key img => (withTm w (publish (tm w) key img), LT_defer key)
  | LT_defer key => (withTm w (clearLoading (tm w) key), LT_done)
  | LT_done => (w, LT_done)
  end.

(** *** The calls, run without interruption *)

(** [GetTile]: the tile or nil, the world, the goroutines started. *)
Definition GetTile (w : World) (coord : TileCoord) : option Image * World * list Thread :=
  let src := GetSource (tm w) in
  let key := mkKey coord src in
  match tiles (tm w) !! key with
  | Some tile => (Some tile, w, [])
  | None =>
    if isLoading (tm w) key then (None, w, [])
    else (None, withTm w (markLoading (tm w) key), [InLoadTile (LT_entry coord src)])
  end.

(** The body of [loadTile], up to its return. *)
Definition loadTileBody (env : Env) (w : World) (coord : TileCoord) (src : MapSource) : World :=
  let key := mkKey coord src in
  match loadFromCache w coord src with
  | Some img => withTm w (publish (tm w) key img)
  | None =>
    match downloadTile env w coord src with
    | (Some img, w') => withTm w' (publish (tm w') key img)
    | (None, w') => w'
    end
  end.

(** [loadTile]: the body, then the deferred function. *)
Definition loadTile (env : Env) (w : World) (coord : TileCoord) (src : MapSource) : World :=
  let key := mkKey coord src in
  let w' := loadTileBody env w coord src in
  withTm w' (clearLoading (tm w') key).

(** A goroutine left alone for [n] steps. *)
Fixpoint stepsGetTile (n : nat) (w : World) (pc : GetTilePC) (started : list Thread)
  : World * GetTilePC * list Thread :=
  match n with
  | O => (w, pc, started)
  | S n' =>
    let '(w', pc', more) := stepGetTile w pc in
    stepsGetTile n' w' pc' (started ++ more)
  end.

Fixpoint stepsLoadTile (env : Env) (n : nat) (w : World) (pc : LoadPC) : World * LoadPC :=
  match n with
  | O => (w, pc)
  | S n' => let '(w', pc') := stepLoadTile env w pc in stepsLoadTile env n' w' pc'
  end.

(** The ways a download fails, as the log tells them apart. *)
Inductive downloadFails (env : Env) (coord : TileCoord) (src : MapSource) : Prop :=
| fails_request :
    httpReply env (tileURL coord src) = NewRequestError → downloadFails env coord src
| fails_transport :
    httpReply env (tileURL coord src) = DoError → downloadFails env coord src
| fails_status status body :
    httpReply env (tileURL coord src) = Response status body → status ≠ StatusOK →
    downloadFails env coord src
| fails_read :
    httpReply env (tileURL coord src) = Response StatusOK BodyError →
    downloadFails env coord src
| fails_decode bytes :
    httpReply env (tileURL coord src) = Response StatusOK (BodyData bytes) →
    decode bytes = None →
    downloadFails env coord src.

(** *** Interleavings *)

Record System : Type := mkSystem { world : World; pool : list Thread }.

(** Goroutine [i] takes its next step; [None] when there is no such goroutine
    or it has returned. *)
Definition step (env : Env) (i : nat) (sys : System) : option System :=
  match pool sys !! i with
  | Some (InGetTile (GT_return _)) | Some (InLoadTile LT_done) | Some Returned | None => None
  | Some (InGetTile pc) =>
    let '(w', pc', started) := stepGetTile (world sys) pc in
    Some {| world := w'; pool := <[i := InGetTile pc']> (pool sys) ++ started |}
  | Some (InLoadTile pc) =>
    let '(w', pc') := stepLoadTile env (world sys) pc in
    Some {| world := w'; pool := <[i := InLoadTile pc']> (pool sys) |}
  | Some InClearCache =>
    Some {| world := withTm (world sys) (ClearCache (tm (world sys)));
            pool := <[i := Returned]> (pool sys) |}
  | Some (InSetSource s) =>
    Some {| world := withTm (world sys) (SetSource (tm (world sys)) s);
            pool := <[i := Returned]> (pool sys) |}
  | Some InToggleSource =>
    Some {| world := withTm (world sys) (ToggleSource (tm (world sys))).1;
            pool := <[i := Returned]> (pool sys) |}
  end.

(** A schedule names the goroutine of each step. *)
Fixpoint run (env : Env) (schedule : list nat) (sys : System) : option System :=
  match schedule with
  | [] => Some sys
  | i :: rest => sys' ← step env i sys; run env rest sys'
  end.

(** The goroutines of the pool that are inside a fetch of [key]. *)
Definition fetching (key : TileCacheKey) (t : Thread) : bool :=
  match t with
  | InLoadTile (LT_entry coord src) | InLoadTile (LT_download coord src) =>
    bool_decide (mkKey coord src = key)
  | InLoadTile (LT_publish k _) | InLoadTile (LT_defer k) => bool_decide (k = key)
  | _ => false
  end.

Definition outstanding (key : TileCacheKey) (sys : System) : nat :=
  countb (fetching key) (pool sys).

(** *** One caller at a time

    The render loop is the only caller of [GetTile] in the program: a
    goroutine enters [GetTile] only while no goroutine is inside it. The
    loaders and the other calls interleave freely. *)

(** A goroutine inside [GetTile], past its entry and before its return. *)
Definition midCall (t : Thread) : bool :=
  match t with
  | InGetTile (GT_check _ _) | InGetTile (GT_mark _ _) | InGetTile (GT_go _ _) => true
  | _ => false
  end.

Definition callsInProgress (sys : System) : nat := countb midCall (pool sys).

Definition mayStep (i : nat) (sys : System) : bool :=
  match pool sys !! i with
  | Some (InGetTile (GT_entry _)) => (callsInProgress sys =? 0)%nat
  | _ => true
  end.

Fixpoint runSerial (env : Env) (schedule : list nat) (sys : System) : option System :=
  match schedule with
  | [] => Some sys
  | i :: rest =>
    if mayStep i sys then sys' ← step env i sys; runSerial env rest sys' else None
  end.

(** A goroutine that stands for a fetch of [key]: a loader of the key, or a
    caller that has marked the key and is about to start the loader. *)
Definition committed (key : TileCacheKey) (t : Thread) : bool :=
  match t with
  | InGetTile (GT_go coord src) => bool_decide (mkKey coord src = key)
  | _ => fetching key t
  end.

(** The invariant of the in-flight set under one caller at a time. *)
Definition dedupInv (sys : System) : Prop :=
  (callsInProgress sys ≤ 1)%nat ∧
  (∀ key, (countb (committed key) (pool sys) ≤ 1)%nat) ∧
  (∀ key, (1 ≤ countb (committed key) (pool sys))%nat →
          isLoading (tm (world sys)) key = true) ∧
  (∀ coord src, InGetTile (GT_mark coord src) ∈ pool sys →
                countb (committed (mkKey coord src)) (pool sys) = 0%nat).

(** The worlds the program can be in: those some interleaving, with one
    caller of [GetTile] at a time, reaches from a new manager, an arbitrary
    disk and a pool of calls about to start. *)
Definition isCall (t : Thread) : bool :=
  match t with
  | InGetTile (GT_entry _) | InClearCache | InSetSource _ | InToggleSource => true
  | _ => false
  end.

Definition reachable (w : World) : Prop :=
  ∃ dir files env calls schedule sys,
    forallb isCall calls = true ∧
    runSerial env schedule
      {| world := {| tm := NewTileManager dir; disk := files; requests := []; logs := [] |};
         pool := calls |} = Some sys ∧
    world sys = w.

End Manager.

(** *** A frame of the map

    [App.Draw] calls [drawMapWithOffset] once per frame, on the one goroutine
    of the render loop. What is modelled of the drawing is which tile gets
    which treatment; the screen position of a tile and the test "only draw if
    visible in map area" are computed in [float64] from [LatLonToPixel], so
    the test is a parameter. *)

Inductive DrawOp {Image : Type} : Type :=
| DrawPlaceholder (coord : TileCoord)
| DrawImage (coord : TileCoord) (img : Image).

Section Frame.

Context {float64 Image : Type}.
Variable LatLonToTile : float64 → float64 → Z → Z * Z.

(** [centerLat centerLon zoom offsetX width coord]: is the tile in the map
    area of the screen. *)
Variable visible : float64 → float64 → Z → Z → Z → TileCoord → bool.

(** The loop over the coordinates: [GetTile] for each, then a placeholder or
    the tile, when visible. *)
Fixpoint drawTiles (vis : TileCoord → bool) (w : @World Image) (coords : list TileCoord)
  : list (@DrawOp Image) * @World Image * list (@Thread Image) :=
  match coords with
  | [] => ([], w, [])
  | coord :: rest =>
    let '(tile, w1, started) := GetTile w coord in
    let op :=
      match tile with
      | None => DrawPlaceholder coord
      | Some img => DrawImage coord img
      end in
    let '(ops, w2, more) := drawTiles vis w1 rest in
    ((if vis coord then [op] else []) ++ ops, w2, started ++ more)
  end.

Definition drawMapWithOffset (w : @World Image) (centerLat centerLon : float64)
    (zoom width height offsetX : Z)
  : Result (list (@DrawOp Image) * @World Image * list (@Thread Image)) :=
  let mapWidth := GoInt.sub width offsetX in
  coords <-- GetTilesForView LatLonToTile centerLat centerLon zoom mapWidth height ;;;
  Ok (drawTiles (visible centerLat centerLon zoom offsetX width) w coords).

End Frame.

(** What a frame draws for a coordinate, given the map of tiles. *)
Definition opFor {Image : Type} (m : @TileManager Image) (coord : TileCoord) : @DrawOp Image :=
  match tiles m !! mkKey coord (source m) with
  | None => DrawPlaceholder coord
  | Some img => DrawImage coord img
  end.

(** A coordinate the render loop need not ask for again: its tile is
    resident under the current source, or its fetch is marked in flight. *)
Definition covered {Image : Type} (w : @World Image) (coord : TileCoord) : Prop :=
  is_Some (tiles (tm w) !! mkKey coord (source (tm w))) ∨
  isLoading (tm w) (mkKey coord (source (tm w))) = true.

(** ** The application around the tile manager

    The telemetry client, the on-screen buttons, the GPIO buttons and the
    [App] that holds them.

    - [float32] and [float64] values are kept abstract: the code below only
      copies them, converts them and hands them to arithmetic that is a
      parameter here.
    - A callback ([func()] closed over the [*App]) is the name of its closure,
      an [Action]; [runAction] holds the bodies.
    - A call that takes a lock of [sync.Mutex] which is held never returns by
      itself: it is the [Blocks] outcome.
    - What the program writes to the log and draws on the screen is not part
      of the state. *)

Inductive Run (A : Type) : Type :=
| Returns (a : A)
| Panics
| Blocks.
Arguments Returns {A} a.
Arguments Panics {A}.
Arguments Blocks {A}.

Definition runBind {A B} (c : Run A) (k : A → Run B) : Run B :=
  match c with
  | Returns a => k a
  | Panics => Panics
  | Blocks => Blocks
  end.

Notation "x <~ c ;;; k" := (runBind c (fun x => k))
  (at level 100, c at next level, right associativity).

Definition ofResult {A} (r : Result A) : Run A :=
  match r with
  | Ok a => Returns a
  | Panic => Panics
  end.

(** The closures of [TouchControls.SetupDefaultButtons] and of
    [GPIOController.SetupDefaultButtons], in the order of the source. *)
Inductive Action : Type :=
| TouchZoomIn | TouchZoomOut | TouchFollow | TouchHome | TouchClear | TouchHud
| TouchLink | TouchPort
| GpioHome | GpioLink | GpioZoomIn | GpioZoomOut | GpioFollow | GpioClear | GpioMap.

(** The requests the client sends to the backend. *)
Inductive Rpc : Type :=
| GetTransmittersReq
| StartLinkReq (port : string) (baudRate : Z)
| StopLinkReq.

(** What the backend does with a request: an error (or the 5 s timeout), or
    a response; only [GetTransmitters] looks into it, for the ports. *)
Inductive RpcReply : Type :=
| RpcError
| RpcDone (transmitters : list string).

(** The keys the application asks about. *)
Inductive Key : Type :=
| KeyEqual | KeyKPAdd | KeyMinus | KeyKPSubtract
| KeyUp | KeyW | KeyDown | KeyS | KeyLeft | KeyA | KeyRight | KeyD
| KeyF | KeyH | KeyC | KeyF1 | KeySlash | KeyV | KeyM | KeyT | KeyL | KeyP
| KeyF11 | KeyEscape | KeyQ.

(** The sign of the vertical wheel movement: [dy > 0], [dy < 0], neither. *)
Inductive Wheel : Type := WheelUp | WheelDown | WheelStill.

(** GPIO pins of the buttons (BCM numbering). *)
Definition GPIO_BTN_HOME : Z := 17.
Definition GPIO_BTN_LINK : Z := 27.
Definition GPIO_BTN_ZOOMIN : Z := 22.
Definition GPIO_BTN_ZOOMOUT : Z := 23.
Definition GPIO_BTN_FOLLOW : Z := 24.
Definition GPIO_BTN_CLEAR : Z := 25.
Definition GPIO_BTN_MAP : Z := 5.

Definition PanelWidth : Z := 280.

(** [type TouchButton struct] *)
Record TouchButton : Type := mkTouchButton {
  btn_X : Z;
  btn_Y : Z;
  btn_W : Z;
  btn_H : Z;
  btn_Label : string;
  btn_Icon : string;
  btn_Active : bool;
  btn_Visible : bool;
  btn_OnPress : option Action
}.

(** [type TouchControls struct]; its three colours are constants of [Draw]. *)
Record TouchControls : Type := mkTouchControls {
  tc_buttons : list TouchButton;
  tc_screenW : Z;
  tc_screenH : Z
}.

(** [type GPIOButton struct] *)
Record GPIOButton : Type := mkGPIOButton {
  gb_pin : Z;
  gb_name : string;
  gb_lastState : bool;
  gb_debounceMs : Z;
  gb_lastChange : Z;
  gb_onPress : option Action
}.

(** [type GPIOController struct]: [g_stopped] is [stopChan] being closed and
    [g_sysfs] the writes made to the files of [/sys/class/gpio], oldest
    first. *)
Record GPIOController : Type := mkGPIOController {
  g_buttons : list GPIOButton;
  g_enabled : bool;
  g_stopped : bool;
  g_sysfs : list (string * string)
}.

Definition set_btn_X (v : Z) (x : TouchButton) : TouchButton :=
  {| btn_X := v; btn_Y := btn_Y x; btn_W := btn_W x; btn_H := btn_H x; btn_Label :=
     btn_Label x; btn_Icon := btn_Icon x; btn_Active := btn_Active x; btn_Visible :=
     btn_Visible x; btn_OnPress := btn_OnPress x |}.

Definition set_btn_Y (v : Z) (x : TouchButton) : TouchButton :=
  {| btn_X := btn_X x; btn_Y := v; btn_W := btn_W x; btn_H := btn_H x; btn_Label :=
     btn_Label x; btn_Icon := btn_Icon x; btn_Active := btn_Active x; btn_Visible :=
     btn_Visible x; btn_OnPress := btn_OnPress x |}.

Definition set_btn_W (v : Z) (x : TouchButton) : TouchButton :=
  {| btn_X := btn_X x; btn_Y := btn_Y x; btn_W := v; btn_H := btn_H x; btn_Label :=
     btn_Label x; btn_Icon := btn_Icon x; btn_Active := btn_Active x; btn_Visible :=
     btn_Visible x; btn_OnPress := btn_OnPress x |}.

Definition set_btn_Active (v : bool) (x : TouchButton) : TouchButton :=
  {| btn_X := btn_X x; btn_Y := btn_Y x; btn_W := btn_W x; btn_H := btn_H x; btn_Label
     := btn_Label x; btn_Icon := btn_Icon x; btn_Active := v; btn_Visible := btn_Visible
     x; btn_OnPress := btn_OnPress x |}.

Definition set_tc_buttons (v : list TouchButton) (x : TouchControls) : TouchControls :=
  {| tc_buttons := v; tc_screenW := tc_screenW x; tc_screenH := tc_screenH x |}.

Definition set_tc_screenW (v : Z) (x : TouchControls) : TouchControls :=
  {| tc_buttons := tc_buttons x; tc_screenW := v; tc_screenH := tc_screenH x |}.

Definition set_tc_screenH (v : Z) (x : TouchControls) : TouchControls :=
  {| tc_buttons := tc_buttons x; tc_screenW := tc_screenW x; tc_screenH := v |}.

Definition set_gb_lastState (v : bool) (x : GPIOButton) : GPIOButton :=
  {| gb_pin := gb_pin x; gb_name := gb_name x; gb_lastState := v; gb_debounceMs :=
     gb_debounceMs x; gb_lastChange := gb_lastChange x; gb_onPress := gb_onPress x |}.

Definition set_gb_lastChange (v : Z) (x : GPIOButton) : GPIOButton :=
  {| gb_pin := gb_pin x; gb_name := gb_name x; gb_lastState := gb_lastState x;
     gb_debounceMs := gb_debounceMs x; gb_lastChange := v; gb_onPress := gb_onPress x |}.

Definition set_g_buttons (v : list GPIOButton) (x : GPIOController) : GPIOController :=
  {| g_buttons := v; g_enabled := g_enabled x; g_stopped := g_stopped x; g_sysfs :=
     g_sysfs x |}.

Definition set_g_enabled (v : bool) (x : GPIOController) : GPIOController :=
  {| g_buttons := g_buttons x; g_enabled := v; g_stopped := g_stopped x; g_sysfs :=
     g_sysfs x |}.

Definition set_g_stopped (v : bool) (x : GPIOController) : GPIOController :=
  {| g_buttons := g_buttons x; g_enabled := g_enabled x; g_stopped := v; g_sysfs :=
     g_sysfs x |}.

Definition set_g_sysfs (v : list (string * string)) (x : GPIOController) : GPIOController :=
  {| g_buttons := g_buttons x; g_enabled := g_enabled x; g_stopped := g_stopped x;
     g_sysfs := v |}.

Section Station.

Context {float32 float64 Image : Type}.

(** [type TelemetryState struct]; [LastUpdate] is a time in nanoseconds. *)
Record TelemetryState : Type := mkTelemetryState {
  Latitude : float32;
  Longitude : float32;
  Altitude : Z;
  GroundSpeed : float32;
  Heading : float32;
  Satellites : Z;
  HasGPS : bool;
  Pitch : float32;
  Roll : float32;
  Yaw : float32;
  Voltage : float32;
  Current : float32;
  Capacity : Z;
  Remaining : Z;
  RSSI1 : Z;
  RSSI2 : Z;
  LinkQuality : Z;
  SNR : Z;
  TXPower : Z;
  BaroAltitude : float32;
  VerticalSpeed : float32;
  FlightMode : string;
  Connected : bool;
  LinkStarted : bool;
  LastUpdate : Z
}.

Definition set_Connected (v : bool) (x : TelemetryState) : TelemetryState :=
  {| Latitude := Latitude x; Longitude := Longitude x; Altitude := Altitude x;
     GroundSpeed := GroundSpeed x; Heading := Heading x; Satellites := Satellites x;
     HasGPS := HasGPS x; Pitch := Pitch x; Roll := Roll x; Yaw := Yaw x; Voltage :=
     Voltage x; Current := Current x; Capacity := Capacity x; Remaining := Remaining x;
     RSSI1 := RSSI1 x; RSSI2 := RSSI2 x; LinkQuality := LinkQuality x; SNR := SNR x;
     TXPower := TXPower x; BaroAltitude := BaroAltitude x; VerticalSpeed :=
     VerticalSpeed x; FlightMode := FlightMode x; Connected := v; LinkStarted :=
     LinkStarted x; LastUpdate := LastUpdate x |}.

Definition set_LinkStarted (v : bool) (x : TelemetryState) : TelemetryState :=
  {| Latitude := Latitude x; Longitude := Longitude x; Altitude := Altitude x;
     GroundSpeed := GroundSpeed x; Heading := Heading x; Satellites := Satellites x;
     HasGPS := HasGPS x; Pitch := Pitch x; Roll := Roll x; Yaw := Yaw x; Voltage :=
     Voltage x; Current := Current x; Capacity := Capacity x; Remaining := Remaining x;
     RSSI1 := RSSI1 x; RSSI2 := RSSI2 x; LinkQuality := LinkQuality x; SNR := SNR x;
     TXPower := TXPower x; BaroAltitude := BaroAltitude x; VerticalSpeed :=
     VerticalSpeed x; FlightMode := FlightMode x; Connected := Connected x; LinkStarted
     := v; LastUpdate := LastUpdate x |}.

(** [type GRPCClient struct]. [c_conn] and [c_client] say whether the
    pointers are non-nil, [c_cancel] whether a cancel function is stored and
    [c_cancelled] whether it has been called, [c_mu] whether the mutex is
    locked; [c_sent] lists the requests sent to the backend, oldest first. *)
Record GRPCClient : Type := mkGRPCClient {
  c_addr : string;
  c_conn : bool;
  c_client : bool;
  c_state : TelemetryState;
  c_cancel : bool;
  c_cancelled : bool;
  c_streaming : bool;
  c_mu : bool;
  c_sent : list Rpc
}.

Definition set_c_conn (v : bool) (x : GRPCClient) : GRPCClient :=
  {| c_addr := c_addr x; c_conn := v; c_client := c_client x; c_state := c_state x;
     c_cancel := c_cancel x; c_cancelled := c_cancelled x; c_streaming := c_streaming x;
     c_mu := c_mu x; c_sent := c_sent x |}.

Definition set_c_client (v : bool) (x : GRPCClient) : GRPCClient :=
  {| c_addr := c_addr x; c_conn := c_conn x; c_client := v; c_state := c_state x;
     c_cancel := c_cancel x; c_cancelled := c_cancelled x; c_streaming := c_streaming x;
     c_mu := c_mu x; c_sent := c_sent x |}.

Definition set_c_state (v : TelemetryState) (x : GRPCClient) : GRPCClient :=
  {| c_addr := c_addr x; c_conn := c_conn x; c_client := c_client x; c_state := v;
     c_cancel := c_cancel x; c_cancelled := c_cancelled x; c_streaming := c_streaming x;
     c_mu := c_mu x; c_sent := c_sent x |}.

Definition set_c_cancel (v : bool) (x : GRPCClient) : GRPCClient :=
  {| c_addr := c_addr x; c_conn := c_conn x; c_client := c_client x; c_state := c_state
     x; c_cancel := v; c_cancelled := c_cancelled x; c_streaming := c_streaming x; c_mu
     := c_mu x; c_sent := c_sent x |}.

Definition set_c_cancelled (v : bool) (x : GRPCClient) : GRPCClient :=
  {| c_addr := c_addr x; c_conn := c_conn x; c_client := c_client x; c_state := c_state
     x; c_cancel := c_cancel x; c_cancelled := v; c_streaming := c_streaming x; c_mu :=
     c_mu x; c_sent := c_sent x |}.

Definition set_c_streaming (v : bool) (x : GRPCClient) : GRPCClient :=
  {| c_addr := c_addr x; c_conn := c_conn x; c_client := c_client x; c_state := c_state
     x; c_cancel := c_cancel x; c_cancelled := c_cancelled x; c_streaming := v; c_mu :=
     c_mu x; c_sent := c_sent x |}.

Definition set_c_mu (v : bool) (x : GRPCClient) : GRPCClient :=
  {| c_addr := c_addr x; c_conn := c_conn x; c_client := c_client x; c_state := c_state
     x; c_cancel := c_cancel x; c_cancelled := c_cancelled x; c_streaming := c_streaming
     x; c_mu := v; c_sent := c_sent x |}.

Definition set_c_sent (v : list Rpc) (x : GRPCClient) : GRPCClient :=
  {| c_addr := c_addr x; c_conn := c_conn x; c_client := c_client x; c_state := c_state
     x; c_cancel := c_cancel x; c_cancelled := c_cancelled x; c_streaming := c_streaming
     x; c_mu := c_mu x; c_sent := v |}.

(** [type App struct]; the panels that only draw are left out, and
    [a_window] is the fullscreen flag that ebiten keeps. *)
Record App : Type := mkApp {
  a_client : GRPCClient;
  a_tileManager : @World Image;
  a_touchControls : TouchControls;
  a_gpioController : GPIOController;
  a_centerLat : float64;
  a_centerLon : float64;
  a_zoom : Z;
  a_width : Z;
  a_height : Z;
  a_fullscreen : bool;
  a_hudMode : Z;
  a_showTouchBtns : bool;
  a_homeLat : float64;
  a_homeLon : float64;
  a_homeSet : bool;
  a_flightPath : list (float64 * float64);
  a_maxPathLen : Z;
  a_showHelp : bool;
  a_selectedPort : Z;
  a_ports : list string;
  a_lastPortScan : Z;
  a_dragging : bool;
  a_dragStartX : Z;
  a_dragStartY : Z;
  a_dragLat : float64;
  a_dragLon : float64;
  a_followAircraft : bool;
  a_window : bool
}.

Definition set_a_client (v : GRPCClient) (x : App) : App :=
  {| a_client := v; a_tileManager := a_tileManager x; a_touchControls := a_touchControls
     x; a_gpioController := a_gpioController x; a_centerLat := a_centerLat x;
     a_centerLon := a_centerLon x; a_zoom := a_zoom x; a_width := a_width x; a_height :=
     a_height x; a_fullscreen := a_fullscreen x; a_hudMode := a_hudMode x;
     a_showTouchBtns := a_showTouchBtns x; a_homeLat := a_homeLat x; a_homeLon :=
     a_homeLon x; a_homeSet := a_homeSet x; a_flightPath := a_flightPath x; a_maxPathLen
     := a_maxPathLen x; a_showHelp := a_showHelp x; a_selectedPort := a_selectedPort x;
     a_ports := a_ports x; a_lastPortScan := a_lastPortScan x; a_dragging := a_dragging
     x; a_dragStartX := a_dragStartX x; a_dragStartY := a_dragStartY x; a_dragLat :=
     a_dragLat x; a_dragLon := a_dragLon x; a_followAircraft := a_followAircraft x;
     a_window := a_window x |}.

Definition set_a_tileManager (v : @World Image) (x : App) : App :=
  {| a_client := a_client x; a_tileManager := v; a_touchControls := a_touchControls x;
     a_gpioController := a_gpioController x; a_centerLat := a_centerLat x; a_centerLon
     := a_centerLon x; a_zoom := a_zoom x; a_width := a_width x; a_height := a_height x;
     a_fullscreen := a_fullscreen x; a_hudMode := a_hudMode x; a_showTouchBtns :=
     a_showTouchBtns x; a_homeLat := a_homeLat x; a_homeLon := a_homeLon x; a_homeSet :=
     a_homeSet x; a_flightPath := a_flightPath x; a_maxPathLen := a_maxPathLen x;
     a_showHelp := a_showHelp x; a_selectedPort := a_selectedPort x; a_ports := a_ports
     x; a_lastPortScan := a_lastPortScan x; a_dragging := a_dragging x; a_dragStartX :=
     a_dragStartX x; a_dragStartY := a_dragStartY x; a_dragLat := a_dragLat x; a_dragLon
     := a_dragLon x; a_followAircraft := a_followAircraft x; a_window := a_window x |}.

Definition set_a_touchControls (v : TouchControls) (x : App) : App :=
  {| a_client := a_client x; a_tileManager := a_tileManager x; a_touchControls := v;
     a_gpioController := a_gpioController x; a_centerLat := a_centerLat x; a_centerLon
     := a_centerLon x; a_zoom := a_zoom x; a_width := a_width x; a_height := a_height x;
     a_fullscreen := a_fullscreen x; a_hudMode := a_hudMode x; a_showTouchBtns :=
     a_showTouchBtns x; a_homeLat := a_homeLat x; a_homeLon := a_homeLon x; a_homeSet :=
     a_homeSet x; a_flightPath := a_flightPath x; a_maxPathLen := a_maxPathLen x;
     a_showHelp := a_showHelp x; a_selectedPort := a_selectedPort x; a_ports := a_ports
     x; a_lastPortScan := a_lastPortScan x; a_dragging := a_dragging x; a_dragStartX :=
     a_dragStartX x; a_dragStartY := a_dragStartY x; a_dragLat := a_dragLat x; a_dragLon
     := a_dragLon x; a_followAircraft := a_followAircraft x; a_window := a_window x |}.

Definition set_a_gpioController (v : GPIOController) (x : App) : App :=
  {| a_client := a_client x; a_tileManager := a_tileManager x; a_touchControls :=
     a_touchControls x; a_gpioController := v; a_centerLat := a_centerLat x; a_centerLon
     := a_centerLon x; a_zoom := a_zoom x; a_width := a_width x; a_height := a_height x;
     a_fullscreen := a_fullscreen x; a_hudMode := a_hudMode x; a_showTouchBtns :=
     a_showTouchBtns x; a_homeLat := a_homeLat x; a_homeLon := a_homeLon x; a_homeSet :=
     a_homeSet x; a_flightPath := a_flightPath x; a_maxPathLen := a_maxPathLen x;
     a_showHelp := a_showHelp x; a_selectedPort := a_selectedPort x; a_ports := a_ports
     x; a_lastPortScan := a_lastPortScan x; a_dragging := a_dragging x; a_dragStartX :=
     a_dragStartX x; a_dragStartY := a_dragStartY x; a_dragLat := a_dragLat x; a_dragLon
     := a_dragLon x; a_followAircraft := a_followAircraft x; a_window := a_window x |}.

Definition set_a_centerLat (v : float64) (x : App) : App :=
  {| a_client := a_client x; a_tileManager := a_tileManager x; a_touchControls :=
     a_touchControls x; a_gpioController := a_gpioController x; a_centerLat := v;
     a_centerLon := a_centerLon x; a_zoom := a_zoom x; a_width := a_width x; a_height :=
     a_height x; a_fullscreen := a_fullscreen x; a_hudMode := a_hudMode x;
     a_showTouchBtns := a_showTouchBtns x; a_homeLat := a_homeLat x; a_homeLon :=
     a_homeLon x; a_homeSet := a_homeSet x; a_flightPath := a_flightPath x; a_maxPathLen
     := a_maxPathLen x; a_showHelp := a_showHelp x; a_selectedPort := a_selectedPort x;
     a_ports := a_ports x; a_lastPortScan := a_lastPortScan x; a_dragging := a_dragging
     x; a_dragStartX := a_dragStartX x; a_dragStartY := a_dragStartY x; a_dragLat :=
     a_dragLat x; a_dragLon := a_dragLon x; a_followAircraft := a_followAircraft x;
     a_window := a_window x |}.

Definition set_a_centerLon (v : float64) (x : App) : App :=
  {| a_client := a_client x; a_tileManager := a_tileManager x; a_touchControls :=
     a_touchControls x; a_gpioController := a_gpioController x; a_centerLat :=
     a_centerLat x; a_centerLon := v; a_zoom := a_zoom x; a_width := a_width x; a_height
     := a_height x; a_fullscreen := a_fullscreen x; a_hudMode := a_hudMode x;
     a_showTouchBtns := a_showTouchBtns x; a_homeLat := a_homeLat x; a_homeLon :=
     a_homeLon x; a_homeSet := a_homeSet x; a_flightPath := a_flightPath x; a_maxPathLen
     := a_maxPathLen x; a_showHelp := a_showHelp x; a_selectedPort := a_selectedPort x;
     a_ports := a_ports x; a_lastPortScan := a_lastPortScan x; a_dragging := a_dragging
     x; a_dragStartX := a_dragStartX x; a_dragStartY := a_dragStartY x; a_dragLat :=
     a_dragLat x; a_dragLon := a_dragLon x; a_followAircraft := a_followAircraft x;
     a_window := a_window x |}.

Definition set_a_zoom (v : Z) (x : App) : App :=
  {| a_client := a_client x; a_tileManager := a_tileManager x; a_touchControls :=
     a_touchControls x; a_gpioController := a_gpioController x; a_centerLat :=
     a_centerLat x; a_centerLon := a_centerLon x; a_zoom := v; a_width := a_width x;
     a_height := a_height x; a_fullscreen := a_fullscreen x; a_hudMode := a_hudMode x;
     a_showTouchBtns := a_showTouchBtns x; a_homeLat := a_homeLat x; a_homeLon :=
     a_homeLon x; a_homeSet := a_homeSet x; a_flightPath := a_flightPath x; a_maxPathLen
     := a_maxPathLen x; a_showHelp := a_showHelp x; a_selectedPort := a_selectedPort x;
     a_ports := a_ports x; a_lastPortScan := a_lastPortScan x; a_dragging := a_dragging
     x; a_dragStartX := a_dragStartX x; a_dragStartY := a_dragStartY x; a_dragLat :=
     a_dragLat x; a_dragLon := a_dragLon x; a_followAircraft := a_followAircraft x;
     a_window := a_window x |}.

Definition set_a_width (v : Z) (x : App) : App :=
  {| a_client := a_client x; a_tileManager := a_tileManager x; a_touchControls :=
     a_touchControls x; a_gpioController := a_gpioController x; a_centerLat :=
     a_centerLat x; a_centerLon := a_centerLon x; a_zoom := a_zoom x; a_width := v;
     a_height := a_height x; a_fullscreen := a_fullscreen x; a_hudMode := a_hudMode x;
     a_showTouchBtns := a_showTouchBtns x; a_homeLat := a_homeLat x; a_homeLon :=
     a_homeLon x; a_homeSet := a_homeSet x; a_flightPath := a_flightPath x; a_maxPathLen
     := a_maxPathLen x; a_showHelp := a_showHelp x; a_selectedPort := a_selectedPort x;
     a_ports := a_ports x; a_lastPortScan := a_lastPortScan x; a_dragging := a_dragging
     x; a_dragStartX := a_dragStartX x; a_dragStartY := a_dragStartY x; a_dragLat :=
     a_dragLat x; a_dragLon := a_dragLon x; a_followAircraft := a_followAircraft x;
     a_window := a_window x |}.

Definition set_a_height (v : Z) (x : App) : App :=
  {| a_client := a_client x; a_tileManager := a_tileManager x; a_touchControls :=
     a_touchControls x; a_gpioController := a_gpioController x; a_centerLat :=
     a_centerLat x; a_centerLon := a_centerLon x; a_zoom := a_zoom x; a_width := a_width
     x; a_height := v; a_fullscreen := a_fullscreen x; a_hudMode := a_hudMode x;
     a_showTouchBtns := a_showTouchBtns x; a_homeLat := a_homeLat x; a_homeLon :=
     a_homeLon x; a_homeSet := a_homeSet x; a_flightPath := a_flightPath x; a_maxPathLen
     := a_maxPathLen x; a_showHelp := a_showHelp x; a_selectedPort := a_selectedPort x;
     a_ports := a_ports x; a_lastPortScan := a_lastPortScan x; a_dragging := a_dragging
     x; a_dragStartX := a_dragStartX x; a_dragStartY := a_dragStartY x; a_dragLat :=
     a_dragLat x; a_dragLon := a_dragLon x; a_followAircraft := a_followAircraft x;
     a_window := a_window x |}.

Definition set_a_hudMode (v : Z) (x : App) : App :=
  {| a_client := a_client x; a_tileManager := a_tileManager x; a_touchControls :=
     a_touchControls x; a_gpioController := a_gpioController x; a_centerLat :=
     a_centerLat x; a_centerLon := a_centerLon x; a_zoom := a_zoom x; a_width := a_width
     x; a_height := a_height x; a_fullscreen := a_fullscreen x; a_hudMode := v;
     a_showTouchBtns := a_showTouchBtns x; a_homeLat := a_homeLat x; a_homeLon :=
     a_homeLon x; a_homeSet := a_homeSet x; a_flightPath := a_flightPath x; a_maxPathLen
     := a_maxPathLen x; a_showHelp := a_showHelp x; a_selectedPort := a_selectedPort x;
     a_ports := a_ports x; a_lastPortScan := a_lastPortScan x; a_dragging := a_dragging
     x; a_dragStartX := a_dragStartX x; a_dragStartY := a_dragStartY x; a_dragLat :=
     a_dragLat x; a_dragLon := a_dragLon x; a_followAircraft := a_followAircraft x;
     a_window := a_window x |}.

Definition set_a_showTouchBtns (v : bool) (x : App) : App :=
  {| a_client := a_client x; a_tileManager := a_tileManager x; a_touchControls :=
     a_touchControls x; a_gpioController := a_gpioController x; a_centerLat :=
     a_centerLat x; a_centerLon := a_centerLon x; a_zoom := a_zoom x; a_width := a_width
     x; a_height := a_height x; a_fullscreen := a_fullscreen x; a_hudMode := a_hudMode
     x; a_showTouchBtns := v; a_homeLat := a_homeLat x; a_homeLon := a_homeLon x;
     a_homeSet := a_homeSet x; a_flightPath := a_flightPath x; a_maxPathLen :=
     a_maxPathLen x; a_showHelp := a_showHelp x; a_selectedPort := a_selectedPort x;
     a_ports := a_ports x; a_lastPortScan := a_lastPortScan x; a_dragging := a_dragging
     x; a_dragStartX := a_dragStartX x; a_dragStartY := a_dragStartY x; a_dragLat :=
     a_dragLat x; a_dragLon := a_dragLon x; a_followAircraft := a_followAircraft x;
     a_window := a_window x |}.

Definition set_a_homeLat (v : float64) (x : App) : App :=
  {| a_client := a_client x; a_tileManager := a_tileManager x; a_touchControls :=
     a_touchControls x; a_gpioController := a_gpioController x; a_centerLat :=
     a_centerLat x; a_centerLon := a_centerLon x; a_zoom := a_zoom x; a_width := a_width
     x; a_height := a_height x; a_fullscreen := a_fullscreen x; a_hudMode := a_hudMode
     x; a_showTouchBtns := a_showTouchBtns x; a_homeLat := v; a_homeLon := a_homeLon x;
     a_homeSet := a_homeSet x; a_flightPath := a_flightPath x; a_maxPathLen :=
     a_maxPathLen x; a_showHelp := a_showHelp x; a_selectedPort := a_selectedPort x;
     a_ports := a_ports x; a_lastPortScan := a_lastPortScan x; a_dragging := a_dragging
     x; a_dragStartX := a_dragStartX x; a_dragStartY := a_dragStartY x; a_dragLat :=
     a_dragLat x; a_dragLon := a_dragLon x; a_followAircraft := a_followAircraft x;
     a_window := a_window x |}.

Definition set_a_homeLon (v : float64) (x : App) : App :=
  {| a_client := a_client x; a_tileManager := a_tileManager x; a_touchControls :=
     a_touchControls x; a_gpioController := a_gpioController x; a_centerLat :=
     a_centerLat x; a_centerLon := a_centerLon x; a_zoom := a_zoom x; a_width := a_width
     x; a_height := a_height x; a_fullscreen := a_fullscreen x; a_hudMode := a_hudMode
     x; a_showTouchBtns := a_showTouchBtns x; a_homeLat := a_homeLat x; a_homeLon := v;
     a_homeSet := a_homeSet x; a_flightPath := a_flightPath x; a_maxPathLen :=
     a_maxPathLen x; a_showHelp := a_showHelp x; a_selectedPort := a_selectedPort x;
     a_ports := a_ports x; a_lastPortScan := a_lastPortScan x; a_dragging := a_dragging
     x; a_dragStartX := a_dragStartX x; a_dragStartY := a_dragStartY x; a_dragLat :=
     a_dragLat x; a_dragLon := a_dragLon x; a_followAircraft := a_followAircraft x;
     a_window := a_window x |}.

Definition set_a_homeSet (v : bool) (x : App) : App :=
  {| a_client := a_client x; a_tileManager := a_tileManager x; a_touchControls :=
     a_touchControls x; a_gpioController := a_gpioController x; a_centerLat :=
     a_centerLat x; a_centerLon := a_centerLon x; a_zoom := a_zoom x; a_width := a_width
     x; a_height := a_height x; a_fullscreen := a_fullscreen x; a_hudMode := a_hudMode
     x; a_showTouchBtns := a_showTouchBtns x; a_homeLat := a_homeLat x; a_homeLon :=
     a_homeLon x; a_homeSet := v; a_flightPath := a_flightPath x; a_maxPathLen :=
     a_maxPathLen x; a_showHelp := a_showHelp x; a_selectedPort := a_selectedPort x;
     a_ports := a_ports x; a_lastPortScan := a_lastPortScan x; a_dragging := a_dragging
     x; a_dragStartX := a_dragStartX x; a_dragStartY := a_dragStartY x; a_dragLat :=
     a_dragLat x; a_dragLon := a_dragLon x; a_followAircraft := a_followAircraft x;
     a_window := a_window x |}.

Definition set_a_flightPath (v : list (float64 * float64)) (x : App) : App :=
  {| a_client := a_client x; a_tileManager := a_tileManager x; a_touchControls :=
     a_touchControls x; a_gpioController := a_gpioController x; a_centerLat :=
     a_centerLat x; a_centerLon := a_centerLon x; a_zoom := a_zoom x; a_width := a_width
     x; a_height := a_height x; a_fullscreen := a_fullscreen x; a_hudMode := a_hudMode
     x; a_showTouchBtns := a_showTouchBtns x; a_homeLat := a_homeLat x; a_homeLon :=
     a_homeLon x; a_homeSet := a_homeSet x; a_flightPath := v; a_maxPathLen :=
     a_maxPathLen x; a_showHelp := a_showHelp x; a_selectedPort := a_selectedPort x;
     a_ports := a_ports x; a_lastPortScan := a_lastPortScan x; a_dragging := a_dragging
     x; a_dragStartX := a_dragStartX x; a_dragStartY := a_dragStartY x; a_dragLat :=
     a_dragLat x; a_dragLon := a_dragLon x; a_followAircraft := a_followAircraft x;
     a_window := a_window x |}.

Definition set_a_showHelp (v : bool) (x : App) : App :=
  {| a_client := a_client x; a_tileManager := a_tileManager x; a_touchControls :=
     a_touchControls x; a_gpioController := a_gpioController x; a_centerLat :=
     a_centerLat x; a_centerLon := a_centerLon x; a_zoom := a_zoom x; a_width := a_width
     x; a_height := a_height x; a_fullscreen := a_fullscreen x; a_hudMode := a_hudMode
     x; a_showTouchBtns := a_showTouchBtns x; a_homeLat := a_homeLat x; a_homeLon :=
     a_homeLon x; a_homeSet := a_homeSet x; a_flightPath := a_flightPath x; a_maxPathLen
     := a_maxPathLen x; a_showHelp := v; a_selectedPort := a_selectedPort x; a_ports :=
     a_ports x; a_lastPortScan := a_lastPortScan x; a_dragging := a_dragging x;
     a_dragStartX := a_dragStartX x; a_dragStartY := a_dragStartY x; a_dragLat :=
     a_dragLat x; a_dragLon := a_dragLon x; a_followAircraft := a_followAircraft x;
     a_window := a_window x |}.

Definition set_a_selectedPort (v : Z) (x : App) : App :=
  {| a_client := a_client x; a_tileManager := a_tileManager x; a_touchControls :=
     a_touchControls x; a_gpioController := a_gpioController x; a_centerLat :=
     a_centerLat x; a_centerLon := a_centerLon x; a_zoom := a_zoom x; a_width := a_width
     x; a_height := a_height x; a_fullscreen := a_fullscreen x; a_hudMode := a_hudMode
     x; a_showTouchBtns := a_showTouchBtns x; a_homeLat := a_homeLat x; a_homeLon :=
     a_homeLon x; a_homeSet := a_homeSet x; a_flightPath := a_flightPath x; a_maxPathLen
     := a_maxPathLen x; a_showHelp := a_showHelp x; a_selectedPort := v; a_ports :=
     a_ports x; a_lastPortScan := a_lastPortScan x; a_dragging := a_dragging x;
     a_dragStartX := a_dragStartX x; a_dragStartY := a_dragStartY x; a_dragLat :=
     a_dragLat x; a_dragLon := a_dragLon x; a_followAircraft := a_followAircraft x;
     a_window := a_window x |}.

Definition set_a_ports (v : list string) (x : App) : App :=
  {| a_client := a_client x; a_tileManager := a_tileManager x; a_touchControls :=
     a_touchControls x; a_gpioController := a_gpioController x; a_centerLat :=
     a_centerLat x; a_centerLon := a_centerLon x; a_zoom := a_zoom x; a_width := a_width
     x; a_height := a_height x; a_fullscreen := a_fullscreen x; a_hudMode := a_hudMode
     x; a_showTouchBtns := a_showTouchBtns x; a_homeLat := a_homeLat x; a_homeLon :=
     a_homeLon x; a_homeSet := a_homeSet x; a_flightPath := a_flightPath x; a_maxPathLen
     := a_maxPathLen x; a_showHelp := a_showHelp x; a_selectedPort := a_selectedPort x;
     a_ports := v; a_lastPortScan := a_lastPortScan x; a_dragging := a_dragging x;
     a_dragStartX := a_dragStartX x; a_dragStartY := a_dragStartY x; a_dragLat :=
     a_dragLat x; a_dragLon := a_dragLon x; a_followAircraft := a_followAircraft x;
     a_window := a_window x |}.

Definition set_a_lastPortScan (v : Z) (x : App) : App :=
  {| a_client := a_client x; a_tileManager := a_tileManager x; a_touchControls :=
     a_touchControls x; a_gpioController := a_gpioController x; a_centerLat :=
     a_centerLat x; a_centerLon := a_centerLon x; a_zoom := a_zoom x; a_width := a_width
     x; a_height := a_height x; a_fullscreen := a_fullscreen x; a_hudMode := a_hudMode
     x; a_showTouchBtns := a_showTouchBtns x; a_homeLat := a_homeLat x; a_homeLon :=
     a_homeLon x; a_homeSet := a_homeSet x; a_flightPath := a_flightPath x; a_maxPathLen
     := a_maxPathLen x; a_showHelp := a_showHelp x; a_selectedPort := a_selectedPort x;
     a_ports := a_ports x; a_lastPortScan := v; a_dragging := a_dragging x; a_dragStartX
     := a_dragStartX x; a_dragStartY := a_dragStartY x; a_dragLat := a_dragLat x;
     a_dragLon := a_dragLon x; a_followAircraft := a_followAircraft x; a_window :=
     a_window x |}.

Definition set_a_dragging (v : bool) (x : App) : App :=
  {| a_client := a_client x; a_tileManager := a_tileManager x; a_touchControls :=
     a_touchControls x; a_gpioController := a_gpioController x; a_centerLat :=
     a_centerLat x; a_centerLon := a_centerLon x; a_zoom := a_zoom x; a_width := a_width
     x; a_height := a_height x; a_fullscreen := a_fullscreen x; a_hudMode := a_hudMode
     x; a_showTouchBtns := a_showTouchBtns x; a_homeLat := a_homeLat x; a_homeLon :=
     a_homeLon x; a_homeSet := a_homeSet x; a_flightPath := a_flightPath x; a_maxPathLen
     := a_maxPathLen x; a_showHelp := a_showHelp x; a_selectedPort := a_selectedPort x;
     a_ports := a_ports x; a_lastPortScan := a_lastPortScan x; a_dragging := v;
     a_dragStartX := a_dragStartX x; a_dragStartY := a_dragStartY x; a_dragLat :=
     a_dragLat x; a_dragLon := a_dragLon x; a_followAircraft := a_followAircraft x;
     a_window := a_window x |}.

Definition set_a_dragStartX (v : Z) (x : App) : App :=
  {| a_client := a_client x; a_tileManager := a_tileManager x; a_touchControls :=
     a_touchControls x; a_gpioController := a_gpioController x; a_centerLat :=
     a_centerLat x; a_centerLon := a_centerLon x; a_zoom := a_zoom x; a_width := a_width
     x; a_height := a_height x; a_fullscreen := a_fullscreen x; a_hudMode := a_hudMode
     x; a_showTouchBtns := a_showTouchBtns x; a_homeLat := a_homeLat x; a_homeLon :=
     a_homeLon x; a_homeSet := a_homeSet x; a_flightPath := a_flightPath x; a_maxPathLen
     := a_maxPathLen x; a_showHelp := a_showHelp x; a_selectedPort := a_selectedPort x;
     a_ports := a_ports x; a_lastPortScan := a_lastPortScan x; a_dragging := a_dragging
     x; a_dragStartX := v; a_dragStartY := a_dragStartY x; a_dragLat := a_dragLat x;
     a_dragLon := a_dragLon x; a_followAircraft := a_followAircraft x; a_window :=
     a_window x |}.

Definition set_a_dragStartY (v : Z) (x : App) : App :=
  {| a_client := a_client x; a_tileManager := a_tileManager x; a_touchControls :=
     a_touchControls x; a_gpioController := a_gpioController x; a_centerLat :=
     a_centerLat x; a_centerLon := a_centerLon x; a_zoom := a_zoom x; a_width := a_width
     x; a_height := a_height x; a_fullscreen := a_fullscreen x; a_hudMode := a_hudMode
     x; a_showTouchBtns := a_showTouchBtns x; a_homeLat := a_homeLat x; a_homeLon :=
     a_homeLon x; a_homeSet := a_homeSet x; a_flightPath := a_flightPath x; a_maxPathLen
     := a_maxPathLen x; a_showHelp := a_showHelp x; a_selectedPort := a_selectedPort x;
     a_ports := a_ports x; a_lastPortScan := a_lastPortScan x; a_dragging := a_dragging
     x; a_dragStartX := a_dragStartX x; a_dragStartY := v; a_dragLat := a_dragLat x;
     a_dragLon := a_dragLon x; a_followAircraft := a_followAircraft x; a_window :=
     a_window x |}.

Definition set_a_dragLat (v : float64) (x : App) : App :=
  {| a_client := a_client x; a_tileManager := a_tileManager x; a_touchControls :=
     a_touchControls x; a_gpioController := a_gpioController x; a_centerLat :=
     a_centerLat x; a_centerLon := a_centerLon x; a_zoom := a_zoom x; a_width := a_width
     x; a_height := a_height x; a_fullscreen := a_fullscreen x; a_hudMode := a_hudMode
     x; a_showTouchBtns := a_showTouchBtns x; a_homeLat := a_homeLat x; a_homeLon :=
     a_homeLon x; a_homeSet := a_homeSet x; a_flightPath := a_flightPath x; a_maxPathLen
     := a_maxPathLen x; a_showHelp := a_showHelp x; a_selectedPort := a_selectedPort x;
     a_ports := a_ports x; a_lastPortScan := a_lastPortScan x; a_dragging := a_dragging
     x; a_dragStartX := a_dragStartX x; a_dragStartY := a_dragStartY x; a_dragLat := v;
     a_dragLon := a_dragLon x; a_followAircraft := a_followAircraft x; a_window :=
     a_window x |}.

Definition set_a_dragLon (v : float64) (x : App) : App :=
  {| a_client := a_client x; a_tileManager := a_tileManager x; a_touchControls :=
     a_touchControls x; a_gpioController := a_gpioController x; a_centerLat :=
     a_centerLat x; a_centerLon := a_centerLon x; a_zoom := a_zoom x; a_width := a_width
     x; a_height := a_height x; a_fullscreen := a_fullscreen x; a_hudMode := a_hudMode
     x; a_showTouchBtns := a_showTouchBtns x; a_homeLat := a_homeLat x; a_homeLon :=
     a_homeLon x; a_homeSet := a_homeSet x; a_flightPath := a_flightPath x; a_maxPathLen
     := a_maxPathLen x; a_showHelp := a_showHelp x; a_selectedPort := a_selectedPort x;
     a_ports := a_ports x; a_lastPortScan := a_lastPortScan x; a_dragging := a_dragging
     x; a_dragStartX := a_dragStartX x; a_dragStartY := a_dragStartY x; a_dragLat :=
     a_dragLat x; a_dragLon := v; a_followAircraft := a_followAircraft x; a_window :=
     a_window x |}.

Definition set_a_followAircraft (v : bool) (x : App) : App :=
  {| a_client := a_client x; a_tileManager := a_tileManager x; a_touchControls :=
     a_touchControls x; a_gpioController := a_gpioController x; a_centerLat :=
     a_centerLat x; a_centerLon := a_centerLon x; a_zoom := a_zoom x; a_width := a_width
     x; a_height := a_height x; a_fullscreen := a_fullscreen x; a_hudMode := a_hudMode
     x; a_showTouchBtns := a_showTouchBtns x; a_homeLat := a_homeLat x; a_homeLon :=
     a_homeLon x; a_homeSet := a_homeSet x; a_flightPath := a_flightPath x; a_maxPathLen
     := a_maxPathLen x; a_showHelp := a_showHelp x; a_selectedPort := a_selectedPort x;
     a_ports := a_ports x; a_lastPortScan := a_lastPortScan x; a_dragging := a_dragging
     x; a_dragStartX := a_dragStartX x; a_dragStartY := a_dragStartY x; a_dragLat :=
     a_dragLat x; a_dragLon := a_dragLon x; a_followAircraft := v; a_window := a_window
     x |}.

Definition set_a_window (v : bool) (x : App) : App :=
  {| a_client := a_client x; a_tileManager := a_tileManager x; a_touchControls :=
     a_touchControls x; a_gpioController := a_gpioController x; a_centerLat :=
     a_centerLat x; a_centerLon := a_centerLon x; a_zoom := a_zoom x; a_width := a_width
     x; a_height := a_height x; a_fullscreen := a_fullscreen x; a_hudMode := a_hudMode
     x; a_showTouchBtns := a_showTouchBtns x; a_homeLat := a_homeLat x; a_homeLon :=
     a_homeLon x; a_homeSet := a_homeSet x; a_flightPath := a_flightPath x; a_maxPathLen
     := a_maxPathLen x; a_showHelp := a_showHelp x; a_selectedPort := a_selectedPort x;
     a_ports := a_ports x; a_lastPortScan := a_lastPortScan x; a_dragging := a_dragging
     x; a_dragStartX := a_dragStartX x; a_dragStartY := a_dragStartY x; a_dragLat :=
     a_dragLat x; a_dragLon := a_dragLon x; a_followAircraft := a_followAircraft x;
     a_window := v |}.

(** *** Arithmetic in floating point, as parameters *)

Variable zero64 : float64.                       (* the zero value *)
Variable defaultLat defaultLon : float64.        (* -22.9064, -47.0616 *)
Variable widen : float32 → float64.              (* float64(x) *)
Variable isZero32 : float32 → bool.              (* x == 0 *)
Variable fadd fsub : float64 → float64 → float64.
(** [0.001 * math.Pow(2, float64(n))] for [n = 18 - a.zoom]. *)
Variable panSpeedOf : Z → float64.
(** [dragLon - float64(dx)*scale] and
    [dragLat + float64(dy)*scale*math.Cos(centerLat*math.Pi/180)], with
    [scale = 360.0 / (float64(TileSize) * math.Pow(2, float64(zoom)))]. *)
Variable dragLonAt : float64 → Z → Z → float64.
Variable dragLatAt : float64 → float64 → Z → Z → float64.

(** *** The telemetry client *)

(** [&TelemetryState{}] *)
Definition zeroState (zero32 : float32) : TelemetryState :=
  {| Latitude := zero32; Longitude := zero32; Altitude := 0; GroundSpeed := zero32;
     Heading := zero32; Satellites := 0; HasGPS := false; Pitch := zero32;
     Roll := zero32; Yaw := zero32; Voltage := zero32; Current := zero32;
     Capacity := 0; Remaining := 0; RSSI1 := 0; RSSI2 := 0; LinkQuality := 0;
     SNR := 0; TXPower := 0; BaroAltitude := zero32; VerticalSpeed := zero32;
     FlightMode := EmptyString; Connected := false; LinkStarted := false;
     LastUpdate := 0 |}.

Definition NewGRPCClient (zero32 : float32) (addr : string) : GRPCClient :=
  {| c_addr := addr; c_conn := false; c_client := false; c_state := zeroState zero32;
     c_cancel := false; c_cancelled := false; c_streaming := false; c_mu := false;
     c_sent := [] |}.

Definition lock (c : GRPCClient) : Run GRPCClient :=
  if c_mu c then Blocks else Returns (set_c_mu true c).

Definition unlock (c : GRPCClient) : GRPCClient := set_c_mu false c.

(** One request to the backend; [backend n] is what the backend does with
    the [n]-th request of this client. *)
Definition rpc (backend : nat → RpcReply) (c : GRPCClient) (req : Rpc)
  : GRPCClient * RpcReply :=
  (set_c_sent (c_sent c ++ [req]) c, backend (length (c_sent c))).

Definition GetState (c : GRPCClient) : TelemetryState := c_state c.
Definition IsConnected (c : GRPCClient) : bool := Connected (c_state c).
Definition IsLinkStarted (c : GRPCClient) : bool := LinkStarted (c_state c).

(** [Connect]: the client and whether the error is nil. *)
Definition Connect (dialOk : bool) (c : GRPCClient) : Run (GRPCClient * bool) :=
  c <~ lock c ;;;
  if c_conn c then Returns (unlock c, true)
  else if dialOk then
    let c := set_c_conn true c in
    let c := set_c_client true c in
    let c := set_c_state (set_Connected true (c_state c)) c in
    Returns (unlock c, true)
  else Returns (unlock c, false).

Definition StopTelemetryStream (c : GRPCClient) : Run GRPCClient :=
  c <~ lock c ;;;
  let c := if c_cancel c then set_c_cancelled true c else c in
  let c := set_c_streaming false c in
  Returns (unlock c).

(** [StartTelemetryStream]: the client and whether a [streamTelemetry]
    goroutine is started. *)
Definition StartTelemetryStream (c : GRPCClient) : Run (GRPCClient * bool) :=
  c <~ lock c ;;;
  if c_streaming c then Returns (unlock c, false)
  else
    let c := set_c_streaming true c in
    let c := set_c_cancelled false (set_c_cancel true c) in
    Returns (unlock c, true).

Definition Disconnect (c : GRPCClient) : Run GRPCClient :=
  c <~ lock c ;;;
  c <~ StopTelemetryStream c ;;;
  let c := if c_conn c then set_c_client false (set_c_conn false c) else c in
  let c := set_c_state (set_Connected false (c_state c)) c in
  Returns (unlock c).

(** [GetTransmitters]: the ports, or [None] for an error. *)
Definition GetTransmitters (backend : nat → RpcReply) (c : GRPCClient)
  : GRPCClient * option (list string) :=
  if negb (c_client c) then (c, Some [])
  else
    match rpc backend c GetTransmittersReq with
    | (c, RpcError) => (c, None)
    | (c, RpcDone transmitters) => (c, Some transmitters)
    end.

Definition StartLink (backend : nat → RpcReply) (c : GRPCClient) (port : string) (baudRate : Z)
  : GRPCClient :=
  if negb (c_client c) then c
  else
    match rpc backend c (StartLinkReq port baudRate) with
    | (c, RpcError) => c
    | (c, RpcDone _) => set_c_state (set_LinkStarted true (c_state c)) c
    end.

Definition StopLink (backend : nat → RpcReply) (c : GRPCClient) : GRPCClient :=
  if negb (c_client c) then c
  else
    match rpc backend c StopLinkReq with
    | (c, RpcError) => c
    | (c, RpcDone _) => set_c_state (set_LinkStarted false (c_state c)) c
    end.

(** *** The closures of the buttons *)

Definition zoomIn (a : App) : App :=
  if a_zoom a <? MaxZoom then set_a_zoom (GoInt.add (a_zoom a) 1) a else a.

Definition zoomOut (a : App) : App :=
  if MinZoom <? a_zoom a then set_a_zoom (GoInt.sub (a_zoom a) 1) a else a.

Definition setHome (state : TelemetryState) (a : App) : App :=
  set_a_homeSet true
    (set_a_homeLon (widen (Longitude state)) (set_a_homeLat (widen (Latitude state)) a)).

(** The link button and the L key: stop the link when it is started, else
    start it on the selected port when there is one. *)
Definition toggleLink (backend : nat → RpcReply) (a : App) : Run App :=
  if IsLinkStarted (a_client a) then
    Returns (set_a_client (StopLink backend (a_client a)) a)
  else if (0 <? Z.of_nat (length (a_ports a)))
          && (a_selectedPort a <? Z.of_nat (length (a_ports a))) then
    if a_selectedPort a <? 0 then Panics      (* index out of range *)
    else
      match a_ports a !! Z.to_nat (a_selectedPort a) with
      | Some port => Returns (set_a_client (StartLink backend (a_client a) port 420000) a)
      | None => Panics
      end
  else Returns a.

Definition nextPort (a : App) : App :=
  if 0 <? Z.of_nat (length (a_ports a)) then
    set_a_selectedPort
      (Z.rem (GoInt.add (a_selectedPort a) 1) (Z.of_nat (length (a_ports a)))) a
  else a.

Definition nextHud (a : App) : App :=
  set_a_hudMode (Z.rem (GoInt.add (a_hudMode a) 1) 3) a.

Definition toggleMap (a : App) : App :=
  set_a_tileManager
    (withTm (a_tileManager a) (ToggleSource (tm (a_tileManager a))).1) a.

Definition runAction (backend : nat → RpcReply) (act : Action) (a : App) : Run App :=
  match act with
  | TouchZoomIn | GpioZoomIn => Returns (zoomIn a)
  | TouchZoomOut | GpioZoomOut => Returns (zoomOut a)
  | TouchFollow | GpioFollow =>
    Returns (set_a_followAircraft (negb (a_followAircraft a)) a)
  | TouchHome =>
    let state := GetState (a_client a) in
    Returns (if HasGPS state then setHome state a else a)
  | GpioHome =>
    let state := GetState (a_client a) in
    Returns (if HasGPS state
                && (negb (isZero32 (Latitude state)) || negb (isZero32 (Longitude state)))
             then setHome state a else a)
  | TouchClear | GpioClear => Returns (set_a_flightPath [] a)
  | TouchHud => Returns (nextHud a)
  | TouchLink | GpioLink => toggleLink backend a
  | TouchPort => Returns (nextPort a)
  | GpioMap => Returns (toggleMap a)
  end.

(** *** The on-screen buttons *)

Definition NewTouchControls : TouchControls :=
  {| tc_buttons := []; tc_screenW := 0; tc_screenH := 0 |}.

Definition AddButton (tc : TouchControls) (x y w h : Z) (label icon : string)
    (onPress : option Action) : TouchControls * TouchButton :=
  let btn := {| btn_X := x; btn_Y := y; btn_W := w; btn_H := h;
                btn_Label := label; btn_Icon := icon;
                btn_Active := false; btn_Visible := true; btn_OnPress := onPress |} in
  (set_tc_buttons (tc_buttons tc ++ [btn]) tc, btn).

(** The test of [handlePress]: both edges of the rectangle count. *)
Definition hits (btn : TouchButton) (x y : Z) : bool :=
  (btn_X btn <=? x) && (x <=? GoInt.add (btn_X btn) (btn_W btn))
  && (btn_Y btn <=? y) && (y <=? GoInt.add (btn_Y btn) (btn_H btn)).

(** The button at which the loop of [handlePress] breaks. *)
Fixpoint pressedButton (buttons : list TouchButton) (x y : Z) : option TouchButton :=
  match buttons with
  | [] => None
  | btn :: rest =>
    if negb (btn_Visible btn) then pressedButton rest x y
    else if hits btn x y then Some btn
    else pressedButton rest x y
  end.

Definition handlePress (backend : nat → RpcReply) (a : App) (x y : Z) : Run App :=
  match pressedButton (tc_buttons (a_touchControls a)) x y with
  | None => Returns a
  | Some btn =>
    match btn_OnPress btn with
    | None => Returns a
    | Some act => runAction backend act a
    end
  end.

(** The cases of the switch on the label in [UpdateLayout]. *)
Definition place (screenW screenH : Z) (btn : TouchButton) : TouchButton :=
  let btnW := 60 in
  let btnH := 45 in
  let margin := 5 in
  let bottomY := GoInt.sub (GoInt.sub screenH btnH) 30 in
  let at_ x y := set_btn_Y y (set_btn_X x btn) in
  let col2 := GoInt.add (GoInt.add margin btnW) margin in
  let col3 := GoInt.add margin (GoInt.wrap (GoInt.add btnW margin * 2)) in
  let upper := GoInt.sub (GoInt.sub bottomY btnH) margin in
  let mid := GoInt.sub (GoInt.wrap (screenW ÷ 2)) 40 in
  if decide (btn_Label btn = "ZOOM+") then at_ margin upper
  else if decide (btn_Label btn = "ZOOM-") then at_ margin bottomY
  else if decide (btn_Label btn = "FLLW") then at_ col2 bottomY
  else if decide (btn_Label btn = "HOME") then at_ col2 upper
  else if decide (btn_Label btn = "CLR") then at_ col3 bottomY
  else if decide (btn_Label btn = "HUD") then at_ col3 upper
  else if decide (btn_Label btn = "LINK") then set_btn_W 80 (at_ mid margin)
  else if decide (btn_Label btn = "PORT") then
    at_ (GoInt.sub (GoInt.sub mid btnW) margin) margin
  else btn.

Definition UpdateLayout (tc : TouchControls) (screenW screenH : Z) : TouchControls :=
  if (tc_screenW tc =? screenW) && (tc_screenH tc =? screenH) then tc
  else
    {| tc_buttons := place screenW screenH <$> tc_buttons tc;
       tc_screenW := screenW; tc_screenH := screenH |}.

Definition SetupDefaultButtons (tc : TouchControls) : TouchControls :=
  let tc := (AddButton tc 0 0 60 45 "ZOOM+" "" (Some TouchZoomIn)).1 in
  let tc := (AddButton tc 0 0 60 45 "ZOOM-" "" (Some TouchZoomOut)).1 in
  let tc := (AddButton tc 0 0 60 45 "FLLW" "" (Some TouchFollow)).1 in
  let tc := (AddButton tc 0 0 60 45 "HOME" "" (Some TouchHome)).1 in
  let tc := (AddButton tc 0 0 60 45 "CLR" "" (Some TouchClear)).1 in
  let tc := (AddButton tc 0 0 60 45 "HUD" "" (Some TouchHud)).1 in
  let tc := (AddButton tc 0 0 80 45 "LINK" "" (Some TouchLink)).1 in
  (AddButton tc 0 0 60 45 "PORT" "" (Some TouchPort)).1.

Definition UpdateButtonStates (a : App) : App :=
  let mark btn :=
    if decide (btn_Label btn = "FLLW") then set_btn_Active (a_followAircraft a) btn
    else if decide (btn_Label btn = "HUD") then set_btn_Active (0 <? a_hudMode a) btn
    else if decide (btn_Label btn = "LINK") then
      set_btn_Active (IsLinkStarted (a_client a)) btn
    else btn in
  set_a_touchControls
    (set_tc_buttons (mark <$> tc_buttons (a_touchControls a)) (a_touchControls a)) a.

(** *** The GPIO buttons *)

Definition NewGPIOController : GPIOController :=
  {| g_buttons := []; g_enabled := false; g_stopped := false; g_sysfs := [] |}.

Definition gpioAddButton (g : GPIOController) (pin : Z) (name : string)
    (onPress : option Action) : GPIOController :=
  set_g_buttons
    (g_buttons g ++ [{| gb_pin := pin; gb_name := name; gb_lastState := false;
                        gb_debounceMs := 50; gb_lastChange := 0; gb_onPress := onPress |}])
    g.

Definition gpioSetupDefaultButtons (g : GPIOController) : GPIOController :=
  let g := gpioAddButton g GPIO_BTN_HOME "HOME" (Some GpioHome) in
  let g := gpioAddButton g GPIO_BTN_LINK "LINK" (Some GpioLink) in
  let g := gpioAddButton g GPIO_BTN_ZOOMIN "ZOOM+" (Some GpioZoomIn) in
  let g := gpioAddButton g GPIO_BTN_ZOOMOUT "ZOOM-" (Some GpioZoomOut) in
  let g := gpioAddButton g GPIO_BTN_FOLLOW "FOLLOW" (Some GpioFollow) in
  let g := gpioAddButton g GPIO_BTN_CLEAR "CLEAR" (Some GpioClear) in
  gpioAddButton g GPIO_BTN_MAP "MAP" (Some GpioMap).

(** [readPin]: [sysfsLine path] is the first line of the file, when it can
    be opened and has one. *)
Definition readPin (sysfsLine : string → option string) (pin : Z) : option Z :=
  match sysfsLine ("/sys/class/gpio/gpio" +:+ pretty pin +:+ "/value") with
  | None => None
  | Some text => if decide (text = "0") then Some 0 else Some 1
  end.

(** [unexportPin]: [sysfsWrite path text] says whether the file opens and
    takes the text. *)
Definition unexportPin (sysfsWrite : string → string → bool) (g : GPIOController) (pin : Z)
  : GPIOController :=
  if sysfsWrite "/sys/class/gpio/unexport" (pretty pin)
  then set_g_sysfs (g_sysfs g ++ [("/sys/class/gpio/unexport", pretty pin)]) g
  else g.

Definition gpioStop (sysfsWrite : string → string → bool) (g : GPIOController)
  : Run GPIOController :=
  if g_enabled g then
    if g_stopped g then Panics                  (* close of closed channel *)
    else
      let g := set_g_enabled false (set_g_stopped true g) in
      Returns (foldl (fun g btn => unexportPin sysfsWrite g (gb_pin btn)) g (g_buttons g))
  else Returns g.

(** The body of the loop of [pollButtons] for the button at index [i]. *)
Definition pollButton (sysfsLine : string → option string) (backend : nat → RpcReply)
    (now : Z) (i : nat) (a : App) : Run App :=
  match g_buttons (a_gpioController a) !! i with
  | None => Returns a
  | Some btn =>
    match readPin sysfsLine (gb_pin btn) with
    | None => Returns a
    | Some value =>
      let down := value =? 0 in
      if negb (eqb down (gb_lastState btn))
         && (gb_debounceMs btn <? GoInt.sub now (gb_lastChange btn)) then
        let btn' := set_gb_lastChange now (set_gb_lastState down btn) in
        let g := a_gpioController a in
        let a := set_a_gpioController (set_g_buttons (<[i := btn']> (g_buttons g)) g) a in
        if down then
          match gb_onPress btn with
          | Some act => runAction backend act a
          | None => Returns a
          end
        else Returns a
      else Returns a
    end
  end.

Fixpoint pollFrom (sysfsLine : string → option string) (backend : nat → RpcReply)
    (now : Z) (indices : list nat) (a : App) : Run App :=
  match indices with
  | [] => Returns a
  | i :: rest =>
    a <~ pollButton sysfsLine backend now i a ;;;
    pollFrom sysfsLine backend now rest a
  end.

(** [pollButtons], with [now] in milliseconds. *)
Definition pollButtons (sysfsLine : string → option string) (backend : nat → RpcReply)
    (now : Z) (a : App) : Run App :=
  pollFrom sysfsLine backend now (seq 0 (length (g_buttons (a_gpioController a)))) a.

(** *** The application *)

(** What one call of [Update] reads from ebiten, from the clock and from
    the outside: the window size, the keys just pressed and held, the wheel,
    the cursor, the left mouse button just pressed and held, the touches
    just pressed, the clock at its two readings, the backend and the sysfs
    files. *)
Record Input : Type := mkInput {
  in_window : Z * Z;
  in_justPressed : Key → bool;
  in_held : Key → bool;
  in_wheel : Wheel;
  in_cursor : Z * Z;
  in_mouseJustPressed : bool;
  in_mouseHeld : bool;
  in_touches : list (Z * Z);
  in_now : Z;
  in_nowAfter : Z;
  in_backend : nat → RpcReply;
  in_sysfsWrite : string → string → bool
}.

(** The zero [time.Time], in nanoseconds from the Unix epoch. *)
Definition zeroTime : Z := -62135596800 * 1000000000.

(** [t.Sub(u)]: the difference, kept within a [Duration]. *)
Definition timeSub (t u : Z) : Z := Z.max GoInt.minInt (Z.min GoInt.maxInt (t - u)).

Definition NewApp (client : GRPCClient) (tileManager : @World Image)
    (width height : Z) (fullscreen : bool) : App :=
  {| a_client := client; a_tileManager := tileManager;
     a_touchControls := SetupDefaultButtons NewTouchControls;
     a_gpioController := gpioSetupDefaultButtons NewGPIOController;
     a_centerLat := defaultLat; a_centerLon := defaultLon; a_zoom := DefaultZoom;
     a_width := width; a_height := height; a_fullscreen := fullscreen;
     a_hudMode := 2; a_showTouchBtns := false;
     a_homeLat := zero64; a_homeLon := zero64; a_homeSet := false;
     a_flightPath := []; a_maxPathLen := 1000;
     a_showHelp := false; a_selectedPort := 0; a_ports := []; a_lastPortScan := zeroTime;
     a_dragging := false; a_dragStartX := 0; a_dragStartY := 0;
     a_dragLat := zero64; a_dragLon := zero64;
     a_followAircraft := true; a_window := false |}.

Definition Shutdown (inp : Input) (a : App) : Run App :=
  g <~ gpioStop (in_sysfsWrite inp) (a_gpioController a) ;;;
  let a := set_a_gpioController g a in
  c <~ StopTelemetryStream (a_client a) ;;;
  let c := StopLink (in_backend inp) c in
  let a := set_a_client c a in
  c <~ Disconnect (a_client a) ;;;
  Returns (set_a_client c a).

(** [TouchControls.Update]: the click, then each touch. *)
Definition touchUpdate (inp : Input) (a : App) : Run App :=
  a <~ (if in_mouseJustPressed inp
        then handlePress (in_backend inp) a (in_cursor inp).1 (in_cursor inp).2
        else Returns a) ;;;
  foldl (fun r touch => a <~ r ;;; handlePress (in_backend inp) a touch.1 touch.2)
        (Returns a) (in_touches inp).

(** The blocks of [handleKeyboard], under the comments they have in the
    source: zoom, pan with the arrow keys, and the keys that toggle. *)
Definition keysZoom (inp : Input) (a : App) : App :=
  let jp := in_justPressed inp in
  let a :=
    if jp KeyEqual || jp KeyKPAdd then
      if a_zoom a <? MaxZoom then
        set_a_tileManager
          (withTm (a_tileManager a) (ClearCache (tm (a_tileManager a))))
          (set_a_zoom (GoInt.add (a_zoom a) 1) a)
      else a
    else a in
  if jp KeyMinus || jp KeyKPSubtract then
    if MinZoom <? a_zoom a then
      set_a_tileManager
        (withTm (a_tileManager a) (ClearCache (tm (a_tileManager a))))
        (set_a_zoom (GoInt.sub (a_zoom a) 1) a)
    else a
  else a.

Definition keysPan (inp : Input) (a : App) : App :=
  let held := in_held inp in
  let panSpeed := panSpeedOf (GoInt.sub 18 (a_zoom a)) in
  let a :=
    if held KeyUp || held KeyW
    then set_a_followAircraft false (set_a_centerLat (fadd (a_centerLat a) panSpeed) a)
    else a in
  let a :=
    if held KeyDown || held KeyS
    then set_a_followAircraft false (set_a_centerLat (fsub (a_centerLat a) panSpeed) a)
    else a in
  let a :=
    if held KeyLeft || held KeyA
    then set_a_followAircraft false (set_a_centerLon (fsub (a_centerLon a) panSpeed) a)
    else a in
  if held KeyRight || held KeyD
  then set_a_followAircraft false (set_a_centerLon (fadd (a_centerLon a) panSpeed) a)
  else a.

Definition keysToggle (inp : Input) (a : App) : App :=
  let jp := in_justPressed inp in
  (* Toggle follow mode *)
  let a := if jp KeyF then set_a_followAircraft (negb (a_followAircraft a)) a else a in
  (* Set home position *)
  let a :=
    if jp KeyH then
      let state := GetState (a_client a) in
      if HasGPS state then setHome state a else a
    else a in
  (* Clear flight path *)
  let a := if jp KeyC then set_a_flightPath [] a else a in
  (* Toggle help *)
  let a := if jp KeyF1 || jp KeySlash then set_a_showHelp (negb (a_showHelp a)) a else a in
  (* Cycle HUD mode *)
  let a := if jp KeyV then nextHud a else a in
  (* Toggle map source *)
  let a := if jp KeyM then toggleMap a else a in
  (* Toggle touch buttons *)
  if jp KeyT then set_a_showTouchBtns (negb (a_showTouchBtns a)) a else a.

Definition handleKeyboard (inp : Input) (a : App) : Run App :=
  let jp := in_justPressed inp in
  let a := keysZoom inp a in
  let a := keysPan inp a in
  let a := keysToggle inp a in
  (* Connect/disconnect link *)
  a <~ (if jp KeyL then toggleLink (in_backend inp) a else Returns a) ;;;
  (* Cycle through ports *)
  let a := if jp KeyP then nextPort a else a in
  (* Fullscreen toggle *)
  let a := if jp KeyF11 then set_a_window (negb (a_window a)) a else a in
  (* Quit *)
  if jp KeyEscape || jp KeyQ then Shutdown inp a else Returns a.

Definition handleMouse (inp : Input) (a : App) : App :=
  (* Scroll to zoom *)
  let a :=
    match in_wheel inp with
    | WheelUp =>
      if a_zoom a <? MaxZoom then set_a_zoom (GoInt.add (a_zoom a) 1) a else a
    | WheelDown =>
      if MinZoom <? a_zoom a then set_a_zoom (GoInt.sub (a_zoom a) 1) a else a
    | WheelStill => a
    end in
  (* Drag to pan *)
  let '(x, y) := in_cursor inp in
  let a :=
    if in_mouseJustPressed inp then
      set_a_dragLon (a_centerLon a)
        (set_a_dragLat (a_centerLat a)
           (set_a_dragStartY y (set_a_dragStartX x (set_a_dragging true a))))
    else a in
  if a_dragging a then
    if in_mouseHeld inp then
      let dx := GoInt.sub x (a_dragStartX a) in
      let dy := GoInt.sub y (a_dragStartY a) in
      let a := set_a_centerLon (dragLonAt (a_dragLon a) dx (a_zoom a)) a in
      let a := set_a_centerLat (dragLatAt (a_dragLat a) (a_centerLat a) dy (a_zoom a)) a in
      set_a_followAircraft false a
    else set_a_dragging false a
  else a.

Definition scanPorts (inp : Input) (a : App) : App :=
  if negb (IsConnected (a_client a)) then a
  else
    match GetTransmitters (in_backend inp) (a_client a) with
    | (c, None) => set_a_client c a
    | (c, Some ports) => set_a_ports ports (set_a_client c a)
    end.

(** The blocks of [Update] after the input: the port list, every two
    seconds, and the flight path with the follow mode. *)
Definition updatePorts (inp : Input) (a : App) : App :=
  if 2 * 1000000000 <? timeSub (in_now inp) (a_lastPortScan a)
  then set_a_lastPortScan (in_nowAfter inp) (scanPorts inp a)
  else a.

Definition updateFlightPath (a : App) : App :=
  let state := GetState (a_client a) in
  if HasGPS state && negb (isZero32 (Latitude state)) && negb (isZero32 (Longitude state))
  then
    let path := a_flightPath a ++ [(widen (Latitude state), widen (Longitude state))] in
    let path := if a_maxPathLen a <? Z.of_nat (length path) then drop 1 path else path in
    let a := set_a_flightPath path a in
    if a_followAircraft a
    then set_a_centerLon (widen (Longitude state))
           (set_a_centerLat (widen (Latitude state)) a)
    else a
  else a.

(** [Update]: one frame. The telemetry state is the one of the start of the
    frame; the stream goroutine writes none during it. *)
Definition Update (inp : Input) (a : App) : Run App :=
  (* Get current screen size *)
  let a := set_a_height (in_window inp).2 (set_a_width (in_window inp).1 a) in
  (* Handle touch input first *)
  a <~ (if a_showTouchBtns a then
          let a := set_a_touchControls
                     (UpdateLayout (a_touchControls a) (a_width a) (a_height a)) a in
          a <~ touchUpdate inp a ;;;
          Returns (UpdateButtonStates a)
        else Returns a) ;;;
  a <~ handleKeyboard inp a ;;;
  let a := handleMouse inp a in
  (* Update port list periodically *)
  let a := updatePorts inp a in
  (* Update flight path and follow aircraft *)
  Returns (updateFlightPath a).

(** [App.Draw], as far as the map goes: the panel takes its width off the
    map in HUD mode 2. *)
Definition mapOffsetX (a : App) : Z := if a_hudMode a =? 2 then PanelWidth else 0.

(** What the frames and the callbacks keep true of the application: the
    zoom is one the tile servers have, the HUD mode is one of the three, the
    selected port is an index that can be incremented, the path is no longer
    than its bound. *)
Definition appInv (a : App) : Prop :=
  MinZoom <= a_zoom a <= MaxZoom ∧
  0 <= a_hudMode a < 3 ∧
  0 <= a_selectedPort a < GoInt.maxInt ∧
  Z.of_nat (length (a_ports a)) <= GoInt.maxInt ∧
  0 <= a_maxPathLen a ∧
  Z.of_nat (length (a_flightPath a)) <= a_maxPathLen a.

(** A call that returns, with the invariant. *)
Definition safely (r : Run App) : Prop := ∃ a', r = Returns a' ∧ appInv a'.

End Station.

(** [App.Draw], as far as the map goes. *)
Definition Draw {float32 float64 Image : Type}
    (LatLonToTile : float64 → float64 → Z → Z * Z)
    (visible : float64 → float64 → Z → Z → Z → TileCoord → bool)
    (a : @App float32 float64 Image)
  : Result (list (@DrawOp Image) * @World Image * list (@Thread Image)) :=
  drawMapWithOffset LatLonToTile visible (a_tileManager a)
    (a_centerLat a) (a_centerLon a) (a_zoom a) (a_width a) (a_height a) (mapOffsetX a).

(** *** A concrete setting for runs

    Images are their own bytes, every non-empty file decodes, paths are joined
    with a slash. *)

Definition sampleDecode (bytes : list Byte.byte) : option (list Byte.byte) :=
  match bytes with
  | [] => None
  | _ => Some bytes
  end.

Definition slashJoin (a b c : string) : string := a +:+ "/" +:+ b +:+ "/" +:+ c.

(** The tile of the default position at the default zoom. *)
Definition homeTile : TileCoord := mkTileCoord 12100 18526 15.
Definition homeKey : TileCacheKey := mkKey homeTile MapSourceSatellite.

Definition pixels : list Byte.byte := [Byte.xff; Byte.xd8; Byte.xff].

Definition freshWorld : @World (list Byte.byte) :=
  {| tm := NewTileManager "tiles"; disk := ∅; requests := []; logs := [] |}.

(** The same with the home tile already in the disk cache. *)
Definition cachedWorld : @World (list Byte.byte) :=
  {| tm := NewTileManager "tiles";
     disk := {[ "tiles/satellite/15_12100_18526.jpg" := pixels ]};
     requests := []; logs := [] |}.

(** A server that answers every request with an image, and one that answers
    every request with status 503. *)
Definition serverUp : Env :=
  {| httpReply := fun _ => Response StatusOK (BodyData pixels);
     writeFails := fun _ => false |}.

Definition serverDown : Env :=
  {| httpReply := fun _ => Response 503 (BodyData []);
     writeFails := fun _ => false |}.

(** Every tile counts as on screen. *)
Definition alwaysVisible (centerLat centerLon zoom offsetX width : Z) (coord : TileCoord)
  : bool := true.

(** The world after the first frame at zoom 0: the one tile is in flight. *)
Definition worldTile : TileCoord := mkTileCoord 0 0 0.
Definition firstFrameWorld : @World (list Byte.byte) :=
  withTm freshWorld (markLoading (tm freshWorld) (mkKey worldTile MapSourceSatellite)).


(** One call of [GetTile] for the home tile on a fresh world; its [loadTile]
    has downloaded and published the tile and stands before its deferred
    [delete]. *)
Definition midFetch : option (@System (list Byte.byte)) :=
  runSerial sampleDecode slashJoin serverUp [0; 0; 0; 0; 1; 1; 1]%nat
    {| world := freshWorld; pool := [InGetTile (GT_entry homeTile)] |}.

(** A station for runs: coordinates are whole numbers of 1e-7 degree in both
    widths, and the cosine of the drag is taken as 1. *)
Definition sampleWiden (x : Z) : Z := x.
Definition sampleIsZero (x : Z) : bool := x =? 0.
Definition samplePanSpeed (n : Z) : Z := 10000 * 2 ^ n.
Definition sampleDragLon (dragLon dx zoom : Z) : Z :=
  dragLon - dx * (3600000000 / (TileSize * 2 ^ zoom)).
Definition sampleDragLat (dragLat centerLat dy zoom : Z) : Z :=
  dragLat + dy * (3600000000 / (TileSize * 2 ^ zoom)).

Definition sampleClient : @GRPCClient Z := NewGRPCClient 0 "localhost:50051".

Definition sampleApp : @App Z Z (list Byte.byte) :=
  NewApp 0 (-229064000) (-470616000) sampleClient freshWorld 800 480 false.

(** A frame in which nothing is pressed, and one with Escape. *)
Definition idleInput : Input :=
  {| in_window := (800, 480);
     in_justPressed := fun _ => false;
     in_held := fun _ => false;
     in_wheel := WheelStill;
     in_cursor := (0, 0);
     in_mouseJustPressed := false;
     in_mouseHeld := false;
     in_touches := [];
     in_now := 1700000000 * 1000000000;
     in_nowAfter := 1700000000 * 1000000000 + 1000;
     in_backend := fun _ => RpcDone ["/dev/ttyUSB0"];
     in_sysfsWrite := fun _ _ => true |}.

Definition quitInput : Input :=
  {| in_window := in_window idleInput;
     in_justPressed := fun key => match key with KeyEscape => true | _ => false end;
     in_held := in_held idleInput;
     in_wheel := in_wheel idleInput;
     in_cursor := in_cursor idleInput;
     in_mouseJustPressed := in_mouseJustPressed idleInput;
     in_mouseHeld := in_mouseHeld idleInput;
     in_touches := in_touches idleInput;
     in_now := in_now idleInput;
     in_nowAfter := in_nowAfter idleInput;
     in_backend := in_backend idleInput;
     in_sysfsWrite := in_sysfsWrite idleInput |}.

(** A frame in which the key = is pressed, and the new station with the home
    tile in memory. *)
Definition zoomKeyInput : Input :=
  {| in_window := in_window idleInput;
     in_justPressed := fun key => match key with KeyEqual => true | _ => false end;
     in_held := in_held idleInput;
     in_wheel := in_wheel idleInput;
     in_cursor := in_cursor idleInput;
     in_mouseJustPressed := in_mouseJustPressed idleInput;
     in_mouseHeld := in_mouseHeld idleInput;
     in_touches := in_touches idleInput;
     in_now := in_now idleInput;
     in_nowAfter := in_nowAfter idleInput;
     in_backend := in_backend idleInput;
     in_sysfsWrite := in_sysfsWrite idleInput |}.

Definition tiledApp : @App Z Z (list Byte.byte) :=
  set_a_tileManager
    (loadTile sampleDecode slashJoin serverUp freshWorld homeTile MapSourceSatellite)
    sampleApp.

(** The new station with its buttons laid out for the 800 by 480 window. *)
Definition touchApp : @App Z Z (list Byte.byte) :=
  set_a_touchControls (UpdateLayout (a_touchControls sampleApp) 800 480) sampleApp.

(** Every pin reads 0: all GPIO buttons are held down. *)
Definition allLow (path : string) : option string := Some "0".

(** * Properties *)

(** ** Arithmetic of [int] *)

Module GoIntFacts.
Import GoInt.

Lemma wrap_id z : inRange z → wrap z = z.
Proof.
  unfold inRange, minInt, maxInt, wrap. intros Hz.
  rewrite Z.mod_small; lia.
Qed.

Lemma wrap_range z : inRange (wrap z).
Proof.
  unfold inRange, minInt, maxInt, wrap.
  pose proof (Z.mod_pos_bound (z + 2 ^ 63) (2 ^ 64) ltac:(lia)). lia.
Qed.

Lemma wrap_mod_pow2 z k : 0 <= k <= 63 → wrap z mod 2 ^ k = z mod 2 ^ k.
Proof.
  intros Hk. unfold wrap.
  assert (H64 : 2 ^ 64 = 2 ^ k * 2 ^ (64 - k)).
  { rewrite <- Z.pow_add_r by lia. f_equal. lia. }
  assert (Hpos : 0 < 2 ^ k) by (apply Z.pow_pos_nonneg; lia).
  rewrite (Z.mod_eq (z + 2 ^ 63) (2 ^ 64)) by lia.
  set (q := (z + 2 ^ 63) `div` 2 ^ 64).
  replace (z + 2 ^ 63 - 2 ^ 64 * q - 2 ^ 63) with (z + (- (2 ^ (64 - k) * q)) * 2 ^ k)
    by (rewrite H64; lia).
  apply Z.mod_add. lia.
Qed.

(** The wrap idiom [((x % n) + n) % n] is the mathematical [mod]. *)
Lemma rem_rem_mod a n : 0 < n → Z.rem (Z.rem a n + n) n = a mod n.
Proof.
  intros Hn.
  pose proof (Z.rem_bound_abs a n ltac:(lia)) as Habs.
  assert (Hr : - n < Z.rem a n < n) by lia.
  rewrite Z.rem_mod_nonneg by lia.
  replace (Z.rem a n + n) with (Z.rem a n + 1 * n) by lia.
  rewrite Z.mod_add by lia.
  replace (a `mod` n) with ((Z.rem a n + a ÷ n * n) `mod` n)
    by (f_equal; pose proof (Z.quot_rem' a n); lia).
  by rewrite Z.mod_add by lia.
Qed.

Lemma shl_one zoom n :
  shl 1 zoom = Ok n →
  0 <= zoom ∧ (zoom <= 62 ∧ n = 2 ^ zoom ∨ zoom = 63 ∧ n = minInt ∨ 64 <= zoom ∧ n = 0).
Proof.
  unfold shl. case_match; [done|]. case_match; intros [= <-].
  - lia.
  - split; [lia|].
    destruct (decide (zoom = 63)) as [->|Hne]; [right; left; done|].
    left. split; [lia|]. rewrite Z.mul_1_l. apply wrap_id.
    unfold inRange, minInt, maxInt.
    assert (2 ^ zoom <= 2 ^ 62) by (apply Z.pow_le_mono_r; lia).
    assert (0 < 2 ^ zoom) by (apply Z.pow_pos_nonneg; lia). lia.
Qed.

Lemma shl_one_ok zoom : 0 <= zoom <= 62 → shl 1 zoom = Ok (2 ^ zoom).
Proof.
  intros Hz. unfold shl.
  destruct (zoom <? 0) eqn:E1; [lia|]. destruct (64 <=? zoom) eqn:E2; [lia|].
  rewrite Z.mul_1_l, wrap_id; [done|].
  unfold inRange, minInt, maxInt.
  assert (2 ^ zoom <= 2 ^ 62) by (apply Z.pow_le_mono_r; lia).
  assert (0 < 2 ^ zoom) by (apply Z.pow_pos_nonneg; lia). lia.
Qed.

Lemma length_upto lo hi : length (upto lo hi) = Z.to_nat (hi - lo + 1).
Proof. apply length_seqZ. Qed.

Lemma elem_of_upto lo hi k : k ∈ upto lo hi ↔ lo <= k <= hi.
Proof. unfold upto. rewrite elem_of_seqZ. lia. Qed.

End GoIntFacts.

(** ** Loops *)

Lemma countb_app {A} (f : A → bool) l1 l2 :
  countb f (l1 ++ l2) = (countb f l1 + countb f l2)%nat.
Proof. unfold countb. by rewrite List.filter_app, length_app. Qed.

Lemma countb_cons {A} (f : A → bool) x l :
  countb f (x :: l) = (Nat.b2n (f x) + countb f l)%nat.
Proof. unfold countb. simpl. by destruct (f x). Qed.

(** Replacing the element at a position moves the count by the difference of
    the two elements. *)
Lemma countb_insert {A} (f : A → bool) l i a b :
  l !! i = Some a →
  (countb f (<[i:=b]> l) + Nat.b2n (f a) = countb f l + Nat.b2n (f b))%nat.
Proof.
  revert i. induction l as [|x l IH]; intros [|i] Hi; simplify_eq/=.
  - rewrite !countb_cons. lia.
  - rewrite !countb_cons. specialize (IH i Hi). lia.
Qed.

Lemma countb_pos {A} (f : A → bool) l i a :
  l !! i = Some a → f a = true → (1 ≤ countb f l)%nat.
Proof.
  revert i. induction l as [|x l IH]; intros [|i] Hi Ha; simplify_eq/=.
  - rewrite countb_cons, Ha. simpl. lia.
  - rewrite countb_cons. specialize (IH i Hi Ha). lia.
Qed.

(** At most one element counted: two counted positions are the same. *)
Lemma countb_unique {A} (f : A → bool) l i j a b :
  (countb f l ≤ 1)%nat →
  l !! i = Some a → f a = true →
  l !! j = Some b → f b = true →
  i = j.
Proof.
  revert i j. induction l as [|x l IH]; intros [|i] [|j] Hc Hi Ha Hj Hb;
    simplify_eq/=; try done; rewrite countb_cons in Hc.
  - rewrite Ha in Hc. pose proof (countb_pos f l j b Hj Hb). simpl in Hc. lia.
  - rewrite Hb in Hc. pose proof (countb_pos f l i a Hi Ha). simpl in Hc. lia.
  - f_equal. apply (IH i j); try done. lia.
Qed.

(** Where an element of an updated and extended list comes from. *)
Lemma elem_of_insert_app {A} (l st : list A) i b t :
  t ∈ <[i:=b]> l ++ st → t = b ∨ t ∈ st ∨ ∃ j, j ≠ i ∧ l !! j = Some t.
Proof.
  intros [Hin|Hin]%elem_of_app; [|auto].
  apply list_elem_of_lookup in Hin as [j Hj].
  apply list_lookup_insert_Some in Hj as [(-> & -> & _)|(Hne & Hj)]; [auto|].
  right. right. exists j. auto.
Qed.

Lemma forEach_inv {A S} (P : S → Prop) (body : A → S → Result S) xs :
  (∀ x s s', P s → body x s = Ok s' → P s') →
  ∀ s s', P s → forEach body xs s = Ok s' → P s'.
Proof.
  intros Hbody. induction xs as [|x xs IH]; simpl; intros s s' Hs Hrun.
  - by injection Hrun as <-.
  - destruct (body x s) as [s1|] eqn:E; [|done]. eauto.
Qed.

Lemma length_bind_const {A B} (f : A → list B) (k : nat) (l : list A) :
  (∀ x, length (f x) = k) → length (l ≫= f) = (length l * k)%nat.
Proof.
  intros Hf. induction l as [|x l IH]; [done|].
  rewrite bind_cons, length_app, IH, Hf. simpl. lia.
Qed.

Lemma forEach_total {A S} (body : A → S → Result S) xs :
  (∀ x s, ∃ s', body x s = Ok s') → ∀ s, ∃ s', forEach body xs s = Ok s'.
Proof.
  intros Hbody. induction xs as [|x xs IH]; simpl; intros s; [eauto|].
  destruct (Hbody x s) as [s1 ->]. simpl. apply IH.
Qed.

(** A loop whose body appends [f x] collects the [f x] in order. *)
Lemma forEach_collect {A T} (f : A → list T) (body : A → list T → Result (list T)) xs :
  (∀ x, x ∈ xs → ∀ s, body x s = Ok (s ++ f x)) →
  ∀ s, forEach body xs s = Ok (s ++ xs ≫= f).
Proof.
  induction xs as [|x xs IH]; simpl; intros Hbody s.
  - by rewrite app_nil_r.
  - rewrite Hbody by left. simpl.
    rewrite IH, <- app_assoc; [done|]. intros y Hy. apply Hbody. by right.
Qed.

(** ** The viewport enumeration *)

Section ViewFacts.
Import GoInt GoIntFacts.

Context {float64 : Type} (LatLonToTile : float64 → float64 → Z → Z * Z).

(** A coordinate that leaves the loop body is inside the tile grid. *)
Lemma viewCell_some centerX centerY zoom dx dy t :
  viewCell centerX centerY zoom dx dy = Ok (Some t) →
  0 <= tcX t < 2 ^ zoom ∧ 0 <= tcY t < 2 ^ zoom ∧ tcZ t = zoom.
Proof.
  unfold viewCell.
  destruct (shl 1 zoom) as [n|] eqn:Hn; [|done]. simpl.
  unfold rem. destruct (n =? 0) eqn:E0; [done|]. simpl.
  set (y := add centerY dy).
  destruct ((y <? 0) || (n <=? y)) eqn:Eg; [done|]. intros [= <-]. simpl.
  apply orb_false_iff in Eg as [Hy0%Z.ltb_ge Hyn%Z.leb_gt].
  apply shl_one in Hn as [Hz [[Hz62 ->] | [[-> ->] | [_ ->]]]].
  - assert (0 < 2 ^ zoom) by (apply Z.pow_pos_nonneg; lia).
    assert (2 ^ zoom <= 2 ^ 62) by (apply Z.pow_le_mono_r; lia).
    set (x := add centerX dx).
    pose proof (Z.rem_bound_abs x (2 ^ zoom) ltac:(lia)) as Habs.
    assert (Hx : Z.rem (add (Z.rem x (2 ^ zoom)) (2 ^ zoom)) (2 ^ zoom) = x mod 2 ^ zoom).
    { unfold add. rewrite wrap_id by (unfold inRange, minInt, maxInt; lia).
      apply rem_rem_mod. lia. }
    rewrite Hx.
    pose proof (Z.mod_pos_bound x (2 ^ zoom) ltac:(lia)). lia.
  - pose proof (wrap_range (centerY + dy)) as Hr. unfold inRange in Hr.
    fold (add centerY dy) in Hr. fold y in Hr. lia.
  - done.
Qed.

Lemma viewCell_total centerX centerY zoom dx dy :
  0 <= zoom <= 63 → ∃ c, viewCell centerX centerY zoom dx dy = Ok c.
Proof.
  intros Hz. unfold viewCell, shl.
  destruct (zoom <? 0) eqn:E1; [lia|]. destruct (64 <=? zoom) eqn:E2; [lia|]. simpl.
  rewrite Z.mul_1_l.
  assert (Hn : wrap (2 ^ zoom) ≠ 0).
  { destruct (decide (zoom = 63)) as [->|]; [done|].
    rewrite wrap_id.
    - apply Z.pow_nonzero; lia.
    - unfold inRange, minInt, maxInt.
      assert (2 ^ zoom <= 2 ^ 62) by (apply Z.pow_le_mono_r; lia).
      assert (0 < 2 ^ zoom) by (apply Z.pow_pos_nonneg; lia). lia. }
  unfold rem. apply Z.eqb_neq in Hn. rewrite Hn. simpl.
  case_match; eauto.
Qed.

(** C4. Whatever the center, the zoom and the viewport, every coordinate that
    [GetTilesForView] returns has its column and its row in [0, 2^zoom): the
    column is wrapped into that range and a row outside it is skipped. The
    call does return a sequence for every zoom from 0 to 63 (beyond that range
    the shift or the remainder panics as soon as the loop body runs). *)
Theorem GetTilesForView_in_grid (centerLat centerLon : float64) (zoom screenW screenH : Z) :
  (0 <= zoom <= 63 →
   ∃ coords, GetTilesForView LatLonToTile centerLat centerLon zoom screenW screenH = Ok coords) ∧
  (∀ coords,
     GetTilesForView LatLonToTile centerLat centerLon zoom screenW screenH = Ok coords →
     Forall (fun c => 0 <= tcX c < 2 ^ zoom ∧ 0 <= tcY c < 2 ^ zoom ∧ tcZ c = zoom) coords).
Proof.
  unfold GetTilesForView.
  destruct (LatLonToTile centerLat centerLon zoom) as [centerX centerY].
  split.
  - intros Hz. apply forEach_total. intros dx s. apply forEach_total.
    intros dy s'. destruct (viewCell_total centerX centerY zoom dx dy Hz) as [c ->].
    simpl. eauto.
  - intros coords.
    set (P := Forall (fun c => 0 <= tcX c < 2 ^ zoom ∧ 0 <= tcY c < 2 ^ zoom ∧ tcZ c = zoom)).
    apply (forEach_inv P); [|constructor].
    intros dx s s' Hs. apply (forEach_inv P); [|done].
    intros dy s1 s2 Hs1.
    destruct (viewCell centerX centerY zoom dx dy) as [[t|]|] eqn:Hc; simpl; [| |done].
    + intros [= <-]. apply Forall_app. split; [done|].
      constructor; [|constructor]. by eapply viewCell_some.
    + by intros [= <-].
Qed.

End ViewFacts.

Lemma GetTilesForView_in_grid_witness :
  Forall (fun c => 0 <= tcX c < 2 ^ 2 ∧ 0 <= tcY c < 2 ^ 2 ∧ tcZ c = 2)
    [mkTileCoord 3 0 2; mkTileCoord 3 1 2; mkTileCoord 0 0 2; mkTileCoord 0 1 2;
     mkTileCoord 1 0 2; mkTileCoord 1 1 2].
Proof.
  apply (proj2 (GetTilesForView_in_grid centerAt 0 0 2 300 200)).
  vm_compute. reflexivity.
Defined.

Section BlockFacts.
Import GoInt GoIntFacts.

Context {float64 : Type} (LatLonToTile : float64 → float64 → Z → Z * Z).

Lemma tilesAcross_nonneg screen :
  0 <= screen <= maxInt →
  tilesAcross screen = screen ÷ TileSize + 2 ∧ 2 <= tilesAcross screen <= 2 ^ 55 + 2.
Proof.
  unfold maxInt, tilesAcross, TileSize, add. intros Hs.
  rewrite Z.quot_div_nonneg by lia.
  assert (0 <= screen `div` 256) by (apply Z.div_pos; lia).
  assert (screen `div` 256 < 2 ^ 55) by (apply Z.div_lt_upper_bound; lia).
  rewrite !wrap_id by (unfold inRange, minInt, maxInt; rewrite ?wrap_id;
                       unfold inRange, minInt, maxInt; lia).
  lia.
Qed.

Lemma loop_bounds screen :
  0 <= screen <= maxInt →
  loopLo (tilesAcross screen) = - halfSpan screen ∧
  loopHi (tilesAcross screen) = halfSpan screen ∧
  1 <= halfSpan screen.
Proof.
  intros Hs. destruct (tilesAcross_nonneg screen Hs) as [Ht Hb].
  unfold loopLo, loopHi, halfSpan, neg. rewrite <- Ht.
  set (t := tilesAcross screen) in *.
  assert (Hq : 1 <= t ÷ 2 <= 2 ^ 55).
  { rewrite Z.quot_div_nonneg by lia. split.
    - apply Z.div_le_lower_bound; lia.
    - apply Z.div_le_upper_bound; lia. }
  rewrite (wrap_id (- t)) by (unfold inRange, minInt, maxInt; lia).
  rewrite Z.quot_opp_l by lia.
  rewrite !wrap_id by (unfold inRange, minInt, maxInt; lia).
  lia.
Qed.

(** Inside the grid the loop body yields the wrapped column and the row. *)
Lemma viewCell_row centerX centerY zoom dx dy :
  0 <= zoom <= 62 →
  0 <= centerY + dy < 2 ^ zoom →
  viewCell centerX centerY zoom dx dy =
    Ok (Some (mkTileCoord ((centerX + dx) mod 2 ^ zoom) (centerY + dy) zoom)).
Proof.
  intros Hz Hy. unfold viewCell. rewrite shl_one_ok by done. simpl.
  assert (0 < 2 ^ zoom) by (apply Z.pow_pos_nonneg; lia).
  assert (2 ^ zoom <= 2 ^ 62) by (apply Z.pow_le_mono_r; lia).
  unfold rem. destruct (2 ^ zoom =? 0) eqn:E0; [lia|]. simpl.
  set (x := add centerX dx).
  pose proof (Z.rem_bound_abs x (2 ^ zoom) ltac:(lia)) as Habs.
  assert (Hx : Z.rem (add (Z.rem x (2 ^ zoom)) (2 ^ zoom)) (2 ^ zoom)
               = (centerX + dx) mod 2 ^ zoom).
  { unfold add at 1. rewrite wrap_id by (unfold inRange, minInt, maxInt; lia).
    rewrite rem_rem_mod by lia. apply wrap_mod_pow2. lia. }
  rewrite Hx.
  assert (Hy' : add centerY dy = centerY + dy).
  { apply wrap_id. unfold inRange, minInt, maxInt. lia. }
  rewrite Hy'.
  destruct (centerY + dy <? 0) eqn:E1; [lia|].
  destruct (2 ^ zoom <=? centerY + dy) eqn:E2; [lia|]. done.
Qed.

(** Outside the grid the loop body skips the row: no vertical wrap-around. *)
Lemma viewCell_skips_row centerX centerY zoom dx dy :
  0 <= zoom <= 62 →
  inRange (centerY + dy) →
  centerY + dy < 0 ∨ 2 ^ zoom <= centerY + dy →
  viewCell centerX centerY zoom dx dy = Ok None.
Proof.
  intros Hz Hr Hout. unfold viewCell. rewrite shl_one_ok by done. simpl.
  assert (0 < 2 ^ zoom) by (apply Z.pow_pos_nonneg; lia).
  assert (Hy : add centerY dy = centerY + dy) by by apply wrap_id.
  rewrite Hy.
  unfold rem. destruct (2 ^ zoom =? 0) eqn:E0; [lia|]. simpl.
  destruct (centerY + dy <? 0) eqn:E1; [done|].
  destruct (2 ^ zoom <=? centerY + dy) eqn:E2; [done|]. lia.
Qed.

Lemma length_viewBlock centerX centerY zoom hx hy :
  0 <= hx → 0 <= hy →
  Z.of_nat (length (viewBlock centerX centerY zoom hx hy)) = (2 * hx + 1) * (2 * hy + 1).
Proof.
  intros Hx Hy. unfold viewBlock.
  rewrite (length_bind_const _ (Z.to_nat (2 * hy + 1))).
  - rewrite length_upto. lia.
  - intros dx. rewrite (length_bind_const _ 1%nat) by done.
    rewrite length_upto. lia.
Qed.

Lemma NoDup_viewBlock centerX centerY zoom hx hy :
  0 <= zoom → 2 * hx + 1 <= 2 ^ zoom →
  NoDup (viewBlock centerX centerY zoom hx hy).
Proof.
  intros Hz Hfit. unfold viewBlock.
  assert (Hn : 0 < 2 ^ zoom) by (apply Z.pow_pos_nonneg; lia).
  apply NoDup_bind; [| |apply NoDup_seqZ].
  - intros dx1 dx2 c H1%elem_of_upto H2%elem_of_upto Hc1 Hc2.
    apply list_elem_of_bind in Hc1 as (dy1 & Hc1 & _).
    apply list_elem_of_bind in Hc2 as (dy2 & Hc2 & _).
    apply list_elem_of_singleton in Hc1, Hc2. subst c.
    injection Hc2 as Hmod _.
    rewrite (Z.mod_eq (centerX + dx1)), (Z.mod_eq (centerX + dx2)) in Hmod by lia.
    revert Hmod. generalize ((centerX + dx1) `div` 2 ^ zoom) ((centerX + dx2) `div` 2 ^ zoom).
    generalize dependent (2 ^ zoom). intros n Hfit Hn q1 q2 Hmod.
    assert (q1 = q2) as -> by nia. lia.
  - intros dx _. apply NoDup_bind; [| |apply NoDup_seqZ].
    + intros dy1 dy2 c _ _ Hc1 Hc2.
      apply list_elem_of_singleton in Hc1, Hc2. subst c.
      injection Hc2 as Hrow. lia.
    + intros dy _. apply NoDup_singleton.
Qed.

(** C5, as the code has it. With [hx = (screenW/256 + 2)/2] and
    [hy = (screenH/256 + 2)/2] (integer divisions), [GetTilesForView] returns
    the block of [2*hx + 1] columns by [2*hy + 1] rows centered on the tile
    that [LatLonToTile] gives for the view center, columns wrapped modulo
    [2^zoom], provided the rows [centerY - hy .. centerY + hy] lie in the grid
    (away from the poles); the block has [(2*hx + 1) * (2*hy + 1)] entries and
    no duplicate when [2*hx + 1 <= 2^zoom] (a zoom high enough). For an
    800 by 480 viewport that is 5 columns by 3 rows, 15 tiles. *)
Theorem GetTilesForView_block (centerLat centerLon : float64)
    (zoom screenW screenH centerX centerY : Z) :
  LatLonToTile centerLat centerLon zoom = (centerX, centerY) →
  0 <= zoom <= 62 →
  0 <= screenW <= maxInt →
  0 <= screenH <= maxInt →
  halfSpan screenH <= centerY < 2 ^ zoom - halfSpan screenH →
  let block := viewBlock centerX centerY zoom (halfSpan screenW) (halfSpan screenH) in
  GetTilesForView LatLonToTile centerLat centerLon zoom screenW screenH = Ok block ∧
  Z.of_nat (length block) = (2 * halfSpan screenW + 1) * (2 * halfSpan screenH + 1) ∧
  (2 * halfSpan screenW + 1 <= 2 ^ zoom → NoDup block).
Proof.
  intros Hcenter Hz HW HH Hrows block.
  destruct (loop_bounds screenW HW) as (HloX & HhiX & HhX).
  destruct (loop_bounds screenH HH) as (HloY & HhiY & HhY).
  split; [|split].
  - unfold GetTilesForView. rewrite Hcenter, HloX, HhiX, HloY, HhiY.
    rewrite (forEach_collect
      (fun dx => upto (- halfSpan screenH) (halfSpan screenH) ≫= fun dy =>
         [mkTileCoord ((centerX + dx) mod 2 ^ zoom) (centerY + dy) zoom])); [done|].
    intros dx _ s.
    apply (forEach_collect
      (fun dy => [mkTileCoord ((centerX + dx) mod 2 ^ zoom) (centerY + dy) zoom])).
    intros dy Hdy%elem_of_upto s'.
    rewrite viewCell_row by lia. done.
  - apply length_viewBlock; lia.
  - intros Hfit. apply NoDup_viewBlock; lia.
Qed.

End BlockFacts.

Lemma GetTilesForView_block_witness :
  GetTilesForView centerAt 12100 18526 15 800 480
    = Ok (viewBlock 12100 18526 15 2 1) ∧
  Z.of_nat (length (viewBlock 12100 18526 15 2 1)) = 15 ∧
  NoDup (viewBlock 12100 18526 15 2 1).
Proof.
  destruct (GetTilesForView_block centerAt 12100 18526 15 800 480 12100 18526)
    as (Hrun & Hlen & Hnodup);
    [reflexivity | lia | vm_compute; split; discriminate
    | vm_compute; split; discriminate | vm_compute; split; [discriminate | reflexivity] |].
  split; [exact Hrun|]. split; [exact Hlen|].
  apply Hnodup. vm_compute. discriminate.
Defined.

(** Next to the pole the rows above the grid are skipped and the column left
    of column 0 is the last one. *)
Example view_at_corner :
  GetTilesForView centerAt 0 0 2 300 200
  = Ok [mkTileCoord 3 0 2; mkTileCoord 3 1 2; mkTileCoord 0 0 2; mkTileCoord 0 1 2;
        mkTileCoord 1 0 2; mkTileCoord 1 1 2].
Proof. reflexivity. Qed.

(** At zoom 0 the five columns of an 800 pixel viewport are one and the same. *)
Example view_zoom0 :
  GetTilesForView centerAt 0 0 0 800 480
  = Ok [mkTileCoord 0 0 0; mkTileCoord 0 0 0; mkTileCoord 0 0 0; mkTileCoord 0 0 0;
        mkTileCoord 0 0 0].
Proof. reflexivity. Qed.

(** Shifting by 64 or more leaves [n = 0] and the remainder panics; a
    negative zoom panics in the shift. *)
Example view_zoom64 : GetTilesForView centerAt 0 0 64 800 480 = Panic.
Proof. reflexivity. Qed.

Example view_zoom_negative : GetTilesForView centerAt 0 0 (-1) 800 480 = Panic.
Proof. reflexivity. Qed.

(** C5 as stated fails: at the default position, zoom 15 and an 800 by 480
    viewport the tiles returned do not span [ceil(800/256) + 2 = 6] columns and
    [ceil(480/256) + 2 = 4] rows. *)
Lemma GetTilesForView_not_ceil_block :
  ¬ (∃ coords,
       GetTilesForView centerAt 12100 18526 15 800 480 = Ok coords ∧
       Z.of_nat (length (columnsOf coords)) = ceilDiv 800 TileSize + 2 ∧
       Z.of_nat (length (rowsOf coords)) = ceilDiv 480 TileSize + 2).
Proof.
  intros (coords & Hrun & Hcols & _).
  vm_compute in Hrun. injection Hrun as <-.
  vm_compute in Hcols. discriminate.
Qed.

(** ** The reader over a byte slice *)

Section ReaderFacts.
Import GoInt GoIntFacts.

Lemma Read_at_end r p :
  Z.of_nat (length (data r)) <= pos r →
  Read r p = Ok {| out_n := 0; out_err := Some EOF; out_p := p; out_r := r |}.
Proof.
  intros Hend. unfold Read.
  destruct (Z.of_nat (length (data r)) <=? pos r) eqn:E; [done|lia].
Qed.

(** Before the end a call delivers the next [min(len(p), left)] bytes. *)
Lemma Read_before_end r p :
  wellPlaced r → pos r < Z.of_nat (length (data r)) →
  let src := drop (Z.to_nat (pos r)) (data r) in
  let n := Nat.min (length p) (length src) in
  Read r p = Ok {| out_n := Z.of_nat n; out_err := None;
                   out_p := take n src ++ drop n p;
                   out_r := {| data := data r; pos := pos r + Z.of_nat n |} |}.
Proof.
  intros [Hpos Hlen] Hlt src n. unfold Read.
  destruct (Z.of_nat (length (data r)) <=? pos r) eqn:E; [lia|].
  destruct (pos r <? 0) eqn:E'; [lia|].
  unfold copy. fold src. fold n. do 3 f_equal.
  apply wrap_id. unfold inRange, minInt.
  assert (n ≤ length src)%nat by apply Nat.le_min_r.
  assert (length src = length (data r) - Z.to_nat (pos r))%nat by apply length_drop.
  lia.
Qed.

Lemma readWith_spec bufs : ∀ r,
  wellPlaced r →
  ∃ out eof r',
    readWith bufs r = Ok (out, eof, r') ∧
    data r' = data r ∧ pos r <= pos r' ∧ wellPlaced r' ∧
    out = take (Z.to_nat (pos r' - pos r)) (drop (Z.to_nat (pos r)) (data r)) ∧
    (eof = true → pos r' = Z.of_nat (length (data r))) ∧
    (Forall (fun p => p ≠ []) bufs →
     Z.of_nat (length (data r)) - pos r < Z.of_nat (length bufs) →
     eof = true).
Proof.
  induction bufs as [|p bufs IH]; intros r Hr; simpl.
  - exists [], false, r. split_and!; try done; try lia.
    + by rewrite Z.sub_diag.
    + destruct Hr. simpl. lia.
  - destruct (decide (Z.of_nat (length (data r)) <= pos r)) as [Hend|Hmore].
    + rewrite Read_at_end by done. simpl.
      exists [], true, r. split_and!; try done; try lia.
      * by rewrite Z.sub_diag.
      * destruct Hr. lia.
    + rewrite Read_before_end by (done || lia). simpl.
      set (src := drop (Z.to_nat (pos r)) (data r)).
      set (n := Nat.min (length p) (length src)).
      set (r1 := {| data := data r; pos := pos r + Z.of_nat n |}).
      assert (Hsrc : length src = (length (data r) - Z.to_nat (pos r))%nat)
        by apply length_drop.
      assert (Hn : (n ≤ length src)%nat) by apply Nat.le_min_r.
      assert (Hr1 : wellPlaced r1).
      { destruct Hr as [? ?]. split; simpl; lia. }
      destruct (IH r1 Hr1) as (out & eof & r' & Hrun & Hdata & Hle & Hr' & -> & Heof & Hall).
      rewrite Hrun. simpl in *. exists (take n src ++
        take (Z.to_nat (pos r' - (pos r + Z.of_nat n)))
             (drop (Z.to_nat (pos r + Z.of_nat n)) (data r))), eof, r'.
      split_and!; try done; try lia.
      * do 3 f_equal. rewrite Nat2Z.id.
        rewrite take_app_le by (rewrite length_take; lia).
        f_equal. apply take_ge. rewrite length_take. lia.
      * destruct Hr as [? ?].
        replace (Z.to_nat (pos r' - pos r))
          with (n + Z.to_nat (pos r' - (pos r + Z.of_nat n)))%nat by lia.
        rewrite <- take_take_drop. do 2 f_equal.
        unfold src. rewrite drop_drop. f_equal. lia.
      * intros Hne Hfew. apply Forall_cons in Hne as [Hp Hne].
        apply Hall; [done|].
        assert (1 ≤ length p)%nat by (destruct p; [done|simpl; lia]).
        destruct Hr as [? ?]. lia.
Qed.

(** C10. A fresh reader over [bytes], read with non-empty buffers, delivers
    exactly [bytes], in order, and then reports [EOF]: [length bytes + 1]
    calls are always enough. Whatever the buffers, what has been delivered so
    far is a prefix of [bytes]. A call at or past the end delivers nothing,
    leaves the buffer and the reader as they are and reports [EOF]. *)
Theorem ByteReader_delivers_data (bytes : list Byte.byte) :
  Z.of_nat (length bytes) <= maxInt →
  (∀ bufs,
     Forall (fun p => p ≠ []) bufs →
     (length bytes < length bufs)%nat →
     ∃ r', readWith bufs (NewByteReader bytes) = Ok (bytes, true, r') ∧
           ∀ p, Read r' p = Ok {| out_n := 0; out_err := Some EOF; out_p := p; out_r := r' |}) ∧
  (∀ bufs, ∃ out eof r',
     readWith bufs (NewByteReader bytes) = Ok (out, eof, r') ∧ out `prefix_of` bytes) ∧
  (∀ r p,
     Z.of_nat (length (data r)) <= pos r →
     Read r p = Ok {| out_n := 0; out_err := Some EOF; out_p := p; out_r := r |}).
Proof.
  intros Hlen.
  assert (Hfresh : wellPlaced (NewByteReader bytes)) by (split; simpl; lia).
  split; [|split].
  - intros bufs Hne Hfew.
    destruct (readWith_spec bufs _ Hfresh) as (out & eof & r' & Hrun & Hdata & _ & _ & -> & Heof & Hall).
    simpl in *. rewrite Hall in * by (done || lia).
    exists r'. split.
    + rewrite Hrun. do 3 f_equal.
      rewrite Heof by done. rewrite Z.sub_0_r, Nat2Z.id. apply take_ge. simpl. lia.
    + intros p. apply Read_at_end. rewrite Hdata, Heof by done. lia.
  - intros bufs.
    destruct (readWith_spec bufs _ Hfresh) as (out & eof & r' & Hrun & _ & _ & _ & -> & _).
    eexists _, eof, r'. split; [exact Hrun|]. simpl.
    eexists. symmetry. apply take_drop.
  - intros r p. apply Read_at_end.
Qed.

End ReaderFacts.

(** ** The tile manager *)

Section ManagerFacts.

Context {Image : Type}.
Variable decode : list Byte.byte → option Image.
Variable filepathJoin : string → string → string → string.

Local Abbreviation World := (@World Image).
Local Abbreviation Thread := (@Thread Image).
Local Abbreviation loadFromCache := (loadFromCache decode filepathJoin).
Local Abbreviation downloadTile := (downloadTile decode filepathJoin).
Local Abbreviation stepLoadTile := (stepLoadTile decode filepathJoin).
Local Abbreviation loadTileBody := (loadTileBody decode filepathJoin).
Local Abbreviation loadTile := (loadTile decode filepathJoin).
Local Abbreviation step := (step decode filepathJoin).
Local Abbreviation run := (run decode filepathJoin).
Local Abbreviation stepsLoadTile := (stepsLoadTile decode filepathJoin).
Local Abbreviation downloadFails := (downloadFails decode).

(** *** The calls and their steps agree *)

(** Left alone, a goroutine that enters [GetTile] returns within four steps
    with the outcome of [GetTile]. *)
Lemma GetTile_steps (w : World) coord :
  stepsGetTile 4%nat w (GT_entry coord) [] =
    let '(tile, w', started) := GetTile w coord in (w', GT_return tile, started).
Proof.
  unfold GetTile. simpl.
  destruct (tiles (tm w) !! mkKey coord (GetSource (tm w))) as [tile|]; [done|].
  destruct (isLoading (tm w) (mkKey coord (GetSource (tm w)))); done.
Qed.

(** Left alone, a goroutine that runs [loadTile] is done within four steps
    and leaves the world of [loadTile]. *)
Lemma loadTile_steps env (w : World) coord src :
  stepsLoadTile env 4%nat w (LT_entry coord src) = (loadTile env w coord src, LT_done).
Proof.
  unfold loadTile, loadTileBody. simpl.
  destruct (loadFromCache w coord src) as [img|]; [done|].
  unfold stepLoadTile at 1.
  destruct (downloadTile env w coord src) as [[img|] w']; done.
Qed.

Lemma withTm_tm (w : World) m : tm (withTm w m) = m.
Proof. done. Qed.

(** *** Frame lemmas of the fetch *)

Lemma downloadTile_tm env (w : World) coord src :
  tm (downloadTile env w coord src).2 = tm w.
Proof.
  unfold downloadTile.
  destruct (httpReply env (tileURL coord src)) as [| |status [|bytes]]; simpl; try done.
  - case_decide; done.
  - case_decide; [done|]. simpl.
    destruct (writeFails env _); destruct (decode bytes); done.
Qed.

Lemma downloadTile_None env (w : World) coord src :
  (downloadTile env w coord src).1 = None ↔ downloadFails env coord src.
Proof.
  unfold downloadTile. split.
  - destruct (httpReply env (tileURL coord src)) as [| |status [|bytes]] eqn:E; simpl.
    + intros _. by apply fails_request.
    + intros _. by apply fails_transport.
    + intros _. destruct (decide (status = StatusOK)) as [->|Hne].
      * by apply fails_read.
      * by eapply fails_status.
    + case_decide as Hst; [intros _; by eapply fails_status|].
      subst status.
      destruct (decode bytes) eqn:Ed; [done|]. intros _. by eapply fails_decode.
  - intros [E|E|status body E Hne|E|bytes E Ed]; rewrite E; simpl; try done.
    + by case_decide.
    + by rewrite Ed.
Qed.

Lemma downloadTile_requests env (w : World) coord src :
  requests (downloadTile env w coord src).2 = requests w ∨
  requests (downloadTile env w coord src).2 = requests w ++ [tileURL coord src].
Proof.
  unfold downloadTile.
  destruct (httpReply env (tileURL coord src)) as [| |status [|bytes]]; simpl; auto.
  - case_decide; auto.
  - case_decide; [auto|]. simpl.
    destruct (writeFails env _); destruct (decode bytes); auto.
Qed.

Lemma loadTileBody_loading env (w : World) coord src :
  loading (tm (loadTileBody env w coord src)) = loading (tm w) ∧
  source (tm (loadTileBody env w coord src)) = source (tm w) ∧
  cacheDir (tm (loadTileBody env w coord src)) = cacheDir (tm w).
Proof.
  unfold loadTileBody.
  destruct (loadFromCache w coord src) as [img|]; [done|].
  pose proof (downloadTile_tm env w coord src) as Htm.
  destruct (downloadTile env w coord src) as [[img|] w']; simpl in *; by rewrite Htm.
Qed.

(** Every step of [GetTile] leaves the files and the network alone. *)
Lemma stepGetTile_no_io (w : World) pc :
  disk (stepGetTile w pc).1.1 = disk w ∧
  requests (stepGetTile w pc).1.1 = requests w ∧
  logs (stepGetTile w pc).1.1 = logs w.
Proof.
  destruct pc as [coord|coord src|coord src|coord src|tile]; simpl; try done.
  destruct (tiles (tm w) !! _); [done|]. by destruct (isLoading _ _).
Qed.

(** C1. [GetTile] has three outcomes, by the key of the coordinate and the
    current source: a resident tile is returned and nothing changes; with no
    resident tile and the key marked in flight, nil is returned and nothing
    changes nor starts; otherwise the key is marked in flight, one [loadTile]
    goroutine is started at its entry and nil is returned. None of the three,
    nor any single step of the call, reads or writes a file or sends a
    request. *)
Theorem GetTile_three_way (w : World) (coord : TileCoord) :
  let key := mkKey coord (source (tm w)) in
  (∀ tile, tiles (tm w) !! key = Some tile → GetTile w coord = (Some tile, w, [])) ∧
  (tiles (tm w) !! key = None → isLoading (tm w) key = true →
   GetTile w coord = (None, w, [])) ∧
  (tiles (tm w) !! key = None → isLoading (tm w) key = false →
   GetTile w coord =
     (None, withTm w (markLoading (tm w) key),
      [InLoadTile (LT_entry coord (source (tm w)))]) ∧
   isLoading (markLoading (tm w) key) key = true) ∧
  (disk (GetTile w coord).1.2 = disk w ∧
   requests (GetTile w coord).1.2 = requests w ∧
   logs (GetTile w coord).1.2 = logs w ∧
   tiles (tm (GetTile w coord).1.2) = tiles (tm w)) ∧
  (∀ (w1 : World) pc, disk (stepGetTile w1 pc).1.1 = disk w1 ∧
            requests (stepGetTile w1 pc).1.1 = requests w1).
Proof.
  intros key. unfold GetTile, GetSource. fold key. split_and!.
  - by intros tile ->.
  - by intros -> ->.
  - intros -> ->. split; [done|].
    unfold isLoading, markLoading. simpl. by rewrite lookup_insert_eq.
  - by destruct (tiles (tm w) !! key); [|destruct (isLoading (tm w) key)].
  - by destruct (tiles (tm w) !! key); [|destruct (isLoading (tm w) key)].
  - by destruct (tiles (tm w) !! key); [|destruct (isLoading (tm w) key)].
  - by destruct (tiles (tm w) !! key); [|destruct (isLoading (tm w) key)].
  - intros w1 pc. destruct (stepGetTile_no_io w1 pc) as (? & ? & _). done.
Qed.

(** C6. When the file at the cache path of the key opens and decodes, the
    fetch publishes the decoded tile under the key and ends there: it hands
    no URL to the HTTP client, it writes no file, and its goroutine goes from
    the disk read straight to the publication, never to the download. *)
Theorem loadTile_disk_first env (w : World) coord src bytes img :
  disk w !! cachePath filepathJoin (tm w) coord src = Some bytes →
  decode bytes = Some img →
  let key := mkKey coord src in
  let w' := loadTile env w coord src in
  tiles (tm w') = <[key := img]> (tiles (tm w)) ∧
  tiles (tm w') !! key = Some img ∧
  requests w' = requests w ∧
  disk w' = disk w ∧
  logs w' = logs w ∧
  loading (tm w') = delete key (loading (tm w)) ∧
  stepLoadTile env w (LT_entry coord src) = (w, LT_publish key img).
Proof.
  intros Hfile Hdec key w'.
  assert (Hcache : loadFromCache w coord src = Some img).
  { unfold loadFromCache. by rewrite Hfile. }
  subst w'. unfold loadTile, loadTileBody. simpl. rewrite Hcache. simpl.
  split_and!; try done. apply lookup_insert_eq.
Qed.

(** C7. The deferred function of [loadTile] runs last and removes the key
    from the in-flight set whatever the body did; the body itself never
    touches that set. When the disk gives no tile and the download fails
    (request or transport error, status other than 200, read error, decode
    error) the fetch leaves the map of tiles as it was, so an absent key stays
    absent, and the next [GetTile] for the key starts a new [loadTile] at its
    entry: disk first, then network. *)
Theorem loadTile_failure_allows_retry env (w : World) coord src :
  let key := mkKey coord src in
  let body := loadTileBody env w coord src in
  let w' := loadTile env w coord src in
  (w' = withTm body (clearLoading (tm body) key) ∧
   loading (tm body) = loading (tm w) ∧
   loading (tm w') !! key = None ∧
   isLoading (tm w') key = false ∧
   stepsLoadTile env 4%nat w (LT_entry coord src) = (w', LT_done) ∧
   (∀ (w1 w2 : World) pc, pc ≠ LT_done → stepLoadTile env w1 pc = (w2, LT_done) →
                ∃ k, pc = LT_defer k ∧ w2 = withTm w1 (clearLoading (tm w1) k))) ∧
  (loadFromCache w coord src = None →
   downloadFails env coord src →
   tiles (tm w') = tiles (tm w) ∧
   (tiles (tm w) !! key = None →
    source (tm w) = src →
    tiles (tm w') !! key = None ∧
    GetTile w' coord =
      (None, withTm w' (markLoading (tm w') key), [InLoadTile (LT_entry coord src)]) ∧
    stepLoadTile env w' (LT_entry coord src) =
      match loadFromCache w' coord src with
      | Some img => (w', LT_publish key img)
      | None => (w', LT_download coord src)
      end)).
Proof.
  intros key body w'.
  assert (Hclear : loading (tm w') !! key = None).
  { subst w'. unfold loadTile. simpl. apply lookup_delete_eq. }
  split.
  - split_and!.
    + done.
    + apply loadTileBody_loading.
    + done.
    + unfold isLoading. by rewrite Hclear.
    + apply loadTile_steps.
    + intros w1 w2 pc Hpc Hstep.
      destruct pc as [c s|c s|k img|k|]; simpl in Hstep; try done.
      * by destruct (loadFromCache w1 c s).
      * by destruct (downloadTile env w1 c s) as [[?|] ?].
      * exists k. by injection Hstep as <-.
  - intros Hmiss Hfail.
    apply (downloadTile_None env w) in Hfail.
    assert (Htiles : tiles (tm w') = tiles (tm w)).
    { subst w'. unfold loadTile, loadTileBody. rewrite Hmiss. simpl.
      pose proof (downloadTile_tm env w coord src) as Htm.
      destruct (downloadTile env w coord src) as [[img|] w1]; simpl in *; [done|].
      by rewrite Htm. }
    split; [done|]. intros Habsent Hsrc.
    assert (Hsource : source (tm w') = src).
    { subst w'. unfold loadTile. simpl.
      destruct (loadTileBody_loading env w coord src) as (_ & -> & _). done. }
    split_and!.
    + by rewrite Htiles.
    + unfold GetTile, GetSource. rewrite Hsource. fold key.
      rewrite Htiles, Habsent. unfold isLoading. by rewrite Hclear.
    + done.
Qed.

(** C8, as the code has it. [ClearCache] empties the map of tiles and changes
    nothing else: the in-flight set, the source, the cache directory, the
    files, the requests and the log stay. A [GetTile] right after it returns
    nil for every coordinate; it starts a fetch unless the key is still marked
    in flight, in which case it starts nothing. *)
Theorem ClearCache_frame (w : World) (coord : TileCoord) :
  let m' := ClearCache (tm w) in
  let w' := withTm w m' in
  let key := mkKey coord (source (tm w)) in
  tiles m' = ∅ ∧
  loading m' = loading (tm w) ∧
  source m' = source (tm w) ∧
  cacheDir m' = cacheDir (tm w) ∧
  disk w' = disk w ∧
  requests w' = requests w ∧
  logs w' = logs w ∧
  GetTile w' coord =
    if isLoading (tm w) key then (None, w', [])
    else (None, withTm w' (markLoading m' key),
          [InLoadTile (LT_entry coord (source (tm w)))]).
Proof.
  intros m' w' key. by split_and!.
Qed.

(** C9. [SetSource] and [ToggleSource] change the source field and nothing
    else: the map of tiles and the in-flight set are the same after the
    switch. Two keys of one coordinate are equal exactly when their sources
    are, so the tiles of both sources sit side by side in the one map, and
    after a switch [GetTile] serves the tile already cached under the new
    source. *)
Theorem source_switch_keeps_tiles (m : @TileManager Image) :
  (∀ s, tiles (SetSource m s) = tiles m ∧
        loading (SetSource m s) = loading m ∧
        cacheDir (SetSource m s) = cacheDir m ∧
        source (SetSource m s) = s) ∧
  (tiles (ToggleSource m).1 = tiles m ∧
   loading (ToggleSource m).1 = loading m ∧
   cacheDir (ToggleSource m).1 = cacheDir m ∧
   source (ToggleSource m).1 = (ToggleSource m).2 ∧
   (ToggleSource m).2 =
     (if decide (source m = MapSourceStreet) then MapSourceSatellite else MapSourceStreet)) ∧
  (∀ k1 k2 : TileCacheKey, Coord k1 = Coord k2 → (k1 = k2 ↔ Source k1 = Source k2)) ∧
  (∀ coord s1 s2 img1 img2, s1 ≠ s2 →
     let m2 := publish (publish m (mkKey coord s1) img1) (mkKey coord s2) img2 in
     tiles m2 !! mkKey coord s1 = Some img1 ∧
     tiles m2 !! mkKey coord s2 = Some img2 ∧
     tiles (ToggleSource m2).1 !! mkKey coord s1 = Some img1 ∧
     tiles (ToggleSource m2).1 !! mkKey coord s2 = Some img2) ∧
  (∀ (w : World) coord s tile,
     tm w = m →
     tiles m !! mkKey coord s = Some tile →
     GetTile (withTm w (SetSource m s)) coord = (Some tile, withTm w (SetSource m s), [])).
Proof.
  split; [|split; [|split; [|split]]].
  - done.
  - unfold ToggleSource. by case_decide.
  - intros [c1 s1] [c2 s2]; simpl. intros ->. split; [by intros [= ->]|by intros ->].
  - intros coord s1 s2 img1 img2 Hne m2.
    assert (Hk : mkKey coord s2 ≠ mkKey coord s1) by (intros [= ?]; done).
    assert (H1 : tiles m2 !! mkKey coord s1 = Some img1).
    { simpl. rewrite lookup_insert_ne by done. apply lookup_insert_eq. }
    assert (H2 : tiles m2 !! mkKey coord s2 = Some img2).
    { simpl. apply lookup_insert_eq. }
    split_and!; try done; unfold ToggleSource; by case_decide.
  - intros w coord s tile _ Htile. unfold GetTile, GetSource. simpl. by rewrite Htile.
Qed.

End ManagerFacts.

(** ** Concrete runs *)

Example cachePath_home :
  cachePath slashJoin (NewTileManager (Image := list Byte.byte) "tiles") homeTile MapSourceSatellite
  = "tiles/satellite/15_12100_18526.jpg".
Proof. reflexivity. Qed.

Example tileURL_home :
  tileURL homeTile MapSourceStreet
  = "https://server.arcgisonline.com/ArcGIS/rest/services/World_Street_Map/MapServer/tile/15/18526/12100".
Proof. reflexivity. Qed.

Lemma GetTile_three_way_witness :
  let busy := (GetTile freshWorld homeTile).1.2 in
  let hit := loadTile sampleDecode slashJoin serverUp busy homeTile MapSourceSatellite in
  GetTile freshWorld homeTile =
    (None, busy, [InLoadTile (LT_entry homeTile MapSourceSatellite)]) ∧
  GetTile busy homeTile = (None, busy, []) ∧
  GetTile hit homeTile = (Some pixels, hit, []).
Proof.
  intros busy hit. split; [|split].
  - destruct (GetTile_three_way freshWorld homeTile) as (_ & _ & Hmiss & _).
    apply Hmiss; reflexivity.
  - destruct (GetTile_three_way busy homeTile) as (_ & Hbusy & _).
    apply Hbusy; reflexivity.
  - destruct (GetTile_three_way hit homeTile) as (Hhit & _).
    apply Hhit. reflexivity.
Defined.

Lemma loadTile_disk_first_witness :
  let w' := loadTile sampleDecode slashJoin serverUp cachedWorld homeTile MapSourceSatellite in
  tiles (tm w') !! homeKey = Some pixels ∧ requests w' = [] ∧ disk w' = disk cachedWorld.
Proof.
  destruct (loadTile_disk_first sampleDecode slashJoin serverUp cachedWorld
              homeTile MapSourceSatellite pixels pixels)
    as (_ & Hpub & Hreq & Hdisk & _); [reflexivity | reflexivity |].
  split; [exact Hpub|]. split; [exact Hreq | exact Hdisk].
Defined.

Lemma loadTile_failure_allows_retry_witness :
  let busy := (GetTile freshWorld homeTile).1.2 in
  let w' := loadTile sampleDecode slashJoin serverDown busy homeTile MapSourceSatellite in
  tiles (tm w') !! homeKey = None ∧
  GetTile w' homeTile =
    (None, withTm w' (markLoading (tm w') homeKey),
     [InLoadTile (LT_entry homeTile MapSourceSatellite)]).
Proof.
  intros busy w'.
  destruct (loadTile_failure_allows_retry sampleDecode slashJoin serverDown busy
              homeTile MapSourceSatellite) as (_ & Hfail).
  destruct Hfail as (_ & Hretry).
  - reflexivity.
  - apply (fails_status sampleDecode serverDown homeTile MapSourceSatellite 503 (BodyData []));
      [reflexivity | discriminate].
  - destruct Hretry as (Habsent & Hget & _); [reflexivity | reflexivity |].
    split; [exact Habsent | exact Hget].
Defined.

Lemma source_switch_keeps_tiles_witness :
  let m := NewTileManager (Image := list Byte.byte) "tiles" in
  let m2 := publish (publish m (mkKey homeTile MapSourceStreet) [Byte.x01])
                    (mkKey homeTile MapSourceSatellite) [Byte.x02] in
  tiles (ToggleSource m2).1 !! mkKey homeTile MapSourceStreet = Some [Byte.x01] ∧
  tiles (ToggleSource m2).1 !! mkKey homeTile MapSourceSatellite = Some [Byte.x02] ∧
  (GetTile (withTm freshWorld (SetSource m2 MapSourceStreet)) homeTile).1.1 = Some [Byte.x01].
Proof.
  intros m m2.
  destruct (source_switch_keeps_tiles m) as (_ & _ & _ & Hboth & _).
  destruct (Hboth homeTile MapSourceStreet MapSourceSatellite [Byte.x01] [Byte.x02])
    as (_ & _ & H1 & H2); [discriminate|].
  destruct (source_switch_keeps_tiles m2) as (_ & _ & _ & _ & Hget).
  split; [exact H1|]. split; [exact H2|].
  specialize (Hget (withTm freshWorld m2) homeTile MapSourceStreet [Byte.x01]
                   eq_refl eq_refl).
  exact (f_equal (fun r => r.1.1) Hget).
Defined.

Lemma ByteReader_delivers_data_witness :
  ∃ r', readWith [[Byte.x00; Byte.x00]; [Byte.x00; Byte.x00]; [Byte.x00]; [Byte.x00]]
                 (NewByteReader pixels) = Ok (pixels, true, r').
Proof.
  destruct (ByteReader_delivers_data pixels) as (Hall & _); [vm_compute; discriminate|].
  destruct (Hall [[Byte.x00; Byte.x00]; [Byte.x00; Byte.x00]; [Byte.x00]; [Byte.x00]])
    as (r' & Hrun & _).
  - repeat constructor; discriminate.
  - simpl. lia.
  - exists r'. exact Hrun.
Defined.

Example readWith_pixels :
  readWith [[Byte.x00; Byte.x00]; [Byte.x00; Byte.x00]; [Byte.x00]]
           (NewByteReader pixels)
  = Ok (pixels, true, {| data := pixels; pos := 3 |}).
Proof. reflexivity. Qed.

(** A buffer of length zero makes no progress and reports no error. *)
Example Read_empty_buffer :
  Read (NewByteReader pixels) []
  = Ok {| out_n := 0; out_err := None; out_p := []; out_r := NewByteReader pixels |}.
Proof. reflexivity. Qed.

(** ** Two callers at once *)

Section Race.

Context {Image : Type}.
Variable decode : list Byte.byte → option Image.
Variable filepathJoin : string → string → string → string.

(** [GetTile] looks the key up under the read lock, releases it, and only
    then takes the write lock to mark the key: a second call that looks the
    key up in between finds it unmarked as well. *)
Lemma GetTile_check_then_mark_gap (w : @World Image) coord src :
  tiles (tm w) !! mkKey coord src = None →
  isLoading (tm w) (mkKey coord src) = false →
  stepGetTile w (GT_check coord src) = (w, GT_mark coord src, []).
Proof. intros Hmiss Hidle. simpl. by rewrite Hmiss, Hidle. Qed.

(** C2, the failing run. Two goroutines call [GetTile] for the same
    coordinate on a new manager and take their steps in turn. Both pass the
    lookup before either marks the key, both start a [loadTile]: two fetches
    of the one key are outstanding. *)
Theorem GetTile_race_starts_two_fetches (env : Env) (dir : string) (coord : TileCoord) :
  let key := mkKey coord MapSourceSatellite in
  let w0 := {| tm := NewTileManager dir; disk := ∅; requests := []; logs := [] |} in
  let marked := withTm w0 (markLoading (markLoading (tm w0) key) key) in
  run decode filepathJoin env [0; 1; 0; 1; 0; 1; 0; 1]%nat
    {| world := w0; pool := [InGetTile (GT_entry coord); InGetTile (GT_entry coord)] |}
  = Some {| world := marked;
            pool := [InGetTile (GT_return None); InGetTile (GT_return None);
                     InLoadTile (LT_entry coord MapSourceSatellite);
                     InLoadTile (LT_entry coord MapSourceSatellite)] |} ∧
  outstanding key
    {| world := marked;
       pool := [InGetTile (GT_return None); InGetTile (GT_return None);
                InLoadTile (LT_entry coord MapSourceSatellite);
                InLoadTile (LT_entry coord MapSourceSatellite)] |} = 2%nat.
Proof.
  intros key w0 marked. split.
  - reflexivity.
  - unfold outstanding, countb. simpl. rewrite !bool_decide_eq_true_2 by done. done.
Qed.

(** One caller at a time: the second call finds the mark and starts nothing. *)
Lemma GetTile_twice_one_fetch (w : @World Image) coord w1 t :
  GetTile w coord = (None, w1, [t]) →
  GetTile w1 coord = (None, w1, []).
Proof.
  unfold GetTile, GetSource.
  destruct (tiles (tm w) !! _) as [tile|] eqn:Hmiss; [done|].
  destruct (isLoading (tm w) _) eqn:Hidle; [done|].
  intros [= <- _]. simpl. rewrite Hmiss.
  unfold isLoading. simpl. by rewrite lookup_insert_eq.
Qed.

End Race.

(** ** One caller at a time *)

Lemma countb_le {A} (f g : A → bool) l :
  (∀ x, f x = true → g x = true) → (countb f l ≤ countb g l)%nat.
Proof.
  intros Hfg. induction l as [|x l IH]; [done|].
  rewrite !countb_cons. specialize (Hfg x).
  destruct (f x); simpl; [rewrite Hfg by done; simpl|]; lia.
Qed.

Section SerialFacts.

Context {Image : Type}.
Variable decode : list Byte.byte → option Image.
Variable filepathJoin : string → string → string → string.

Local Abbreviation Thread := (@Thread Image).
Local Abbreviation System := (@System Image).

Lemma counts_after (f : Thread → bool) (l st : list Thread) i a b :
  l !! i = Some a →
  (countb f (<[i:=b]> l ++ st) + Nat.b2n (f a)
   = countb f l + Nat.b2n (f b) + countb f st)%nat.
Proof.
  intros Hi. rewrite countb_app. pose proof (countb_insert f l i a b Hi). lia.
Qed.

(** A step that leaves the in-flight set alone and does not change what its
    goroutine stands for. *)
Lemma dedupInv_quiet (sys : System) i a b w' :
  dedupInv sys →
  pool sys !! i = Some a →
  loading (tm w') = loading (tm (world sys)) →
  (∀ key, committed key b = committed key a) →
  (midCall b = true → midCall a = true ∨ callsInProgress sys = 0%nat) →
  (∀ coord src, b = InGetTile (GT_mark coord src) →
                countb (committed (mkKey coord src)) (pool sys) = 0%nat) →
  dedupInv {| world := w'; pool := <[i:=b]> (pool sys) ++ [] |}.
Proof.
  intros (Hcalls & Hone & Hmarked & Hgap) Hi Hload Hsame Hmid Hnew.
  assert (Hcount : ∀ key, countb (committed key) (<[i:=b]> (pool sys) ++ [])
                          = countb (committed key) (pool sys)).
  { intros key. pose proof (counts_after (committed key) _ [] i a b Hi) as Hc.
    rewrite Hsame in Hc. change (countb (committed key) []) with 0%nat in Hc. lia. }
  split_and!; simpl.
  - unfold callsInProgress in *. simpl.
    pose proof (counts_after midCall _ [] i a b Hi) as Hc.
    change (countb midCall []) with 0%nat in Hc.
    destruct (midCall b); [|simpl in Hc; lia].
    destruct Hmid as [Ha|Hzero]; [done|rewrite Ha in Hc|]; simpl in Hc; lia.
  - intros key. rewrite Hcount. apply Hone.
  - intros key. rewrite Hcount. intros Hpos.
    unfold isLoading. rewrite Hload. by apply Hmarked.
  - intros coord src Hin. rewrite Hcount.
    apply elem_of_insert_app in Hin as [<-|[Hin|(j & _ & Hj)]].
    + by apply Hnew.
    + by apply elem_of_nil in Hin.
    + apply Hgap. apply list_elem_of_lookup. eauto.
Qed.

(** The caller marks the key it found unmarked. *)
Lemma dedupInv_mark (sys : System) i coord src :
  dedupInv sys →
  pool sys !! i = Some (InGetTile (GT_mark coord src)) →
  dedupInv {| world := withTm (world sys) (markLoading (tm (world sys)) (mkKey coord src));
              pool := <[i:=InGetTile (GT_go coord src)]> (pool sys) ++ [] |}.
Proof.
  intros (Hcalls & Hone & Hmarked & Hgap) Hi.
  set (key := mkKey coord src).
  assert (Hzero : countb (committed key) (pool sys) = 0%nat).
  { apply Hgap. apply list_elem_of_lookup. eauto. }
  assert (Hcount : ∀ k, countb (committed k) (<[i:=InGetTile (GT_go coord src)]> (pool sys) ++ [])
                        = (countb (committed k) (pool sys) + Nat.b2n (bool_decide (key = k)))%nat).
  { intros k. pose proof (counts_after (committed k) _ [] i _ (InGetTile (GT_go coord src)) Hi) as Hc.
    change (countb (committed k) []) with 0%nat in Hc. simpl in Hc. fold key in Hc. lia. }
  split_and!; simpl.
  - unfold callsInProgress in *. simpl.
    pose proof (counts_after midCall _ [] i _ (InGetTile (GT_go coord src)) Hi) as Hc.
    change (countb midCall []) with 0%nat in Hc. simpl in Hc. lia.
  - intros k. rewrite Hcount. case_bool_decide as Hk; simpl.
    + subst k. lia.
    + specialize (Hone k). lia.
  - intros k. rewrite Hcount. unfold isLoading. simpl. fold key.
    case_bool_decide as Hk; simpl.
    + subst k. by rewrite lookup_insert_eq.
    + rewrite lookup_insert_ne by done. intros Hpos. apply Hmarked. lia.
  - intros c s Hin.
    apply elem_of_insert_app in Hin as [[=]|[Hin|(j & Hne & Hj)]].
    + by apply elem_of_nil in Hin.
    + unfold callsInProgress in Hcalls.
      by pose proof (countb_unique midCall _ i j _ _ Hcalls Hi eq_refl Hj eq_refl).
Qed.

(** The caller starts the loader of the key it marked. *)
Lemma dedupInv_go (sys : System) i coord src :
  dedupInv sys →
  pool sys !! i = Some (InGetTile (GT_go coord src)) →
  dedupInv {| world := world sys;
              pool := <[i:=InGetTile (GT_return None)]> (pool sys)
                      ++ [InLoadTile (LT_entry coord src)] |}.
Proof.
  intros (Hcalls & Hone & Hmarked & Hgap) Hi.
  assert (Hcount : ∀ k, countb (committed k)
                          (<[i:=InGetTile (GT_return None)]> (pool sys)
                           ++ [InLoadTile (LT_entry coord src)])
                        = countb (committed k) (pool sys)).
  { intros k.
    pose proof (counts_after (committed k) _ [InLoadTile (LT_entry coord src)] i _
                  (InGetTile (GT_return None)) Hi) as Hc.
    rewrite countb_cons in Hc. change (countb (committed k) []) with 0%nat in Hc.
    simpl in Hc. lia. }
  split_and!; simpl.
  - unfold callsInProgress in *. simpl.
    pose proof (counts_after midCall _ [InLoadTile (LT_entry coord src)] i _
                  (InGetTile (GT_return None)) Hi) as Hc.
    rewrite countb_cons in Hc. change (countb midCall []) with 0%nat in Hc.
    simpl in Hc. lia.
  - intros k. rewrite Hcount. apply Hone.
  - intros k. rewrite Hcount. apply Hmarked.
  - intros c s Hin. rewrite Hcount.
    apply elem_of_insert_app in Hin as [[=]|[Hin|(j & _ & Hj)]].
    + apply list_elem_of_singleton in Hin. done.
    + apply Hgap. apply list_elem_of_lookup. eauto.
Qed.

(** The deferred [delete] of a loader. *)
Lemma dedupInv_defer (sys : System) i key :
  dedupInv sys →
  pool sys !! i = Some (InLoadTile (LT_defer key)) →
  dedupInv {| world := withTm (world sys) (clearLoading (tm (world sys)) key);
              pool := <[i:=InLoadTile LT_done]> (pool sys) ++ [] |}.
Proof.
  intros (Hcalls & Hone & Hmarked & Hgap) Hi.
  assert (Hcount : ∀ k, (countb (committed k) (<[i:=InLoadTile LT_done]> (pool sys) ++ [])
                         + Nat.b2n (bool_decide (key = k)))%nat
                        = countb (committed k) (pool sys)).
  { intros k. pose proof (counts_after (committed k) _ [] i _ (InLoadTile LT_done) Hi) as Hc.
    change (countb (committed k) []) with 0%nat in Hc. simpl in Hc. lia. }
  split_and!; simpl.
  - unfold callsInProgress in *. simpl.
    pose proof (counts_after midCall _ [] i _ (InLoadTile LT_done) Hi) as Hc.
    change (countb midCall []) with 0%nat in Hc. simpl in Hc. lia.
  - intros k. specialize (Hcount k). specialize (Hone k). lia.
  - intros k Hpos. specialize (Hcount k). specialize (Hone k).
    unfold isLoading. simpl.
    case_bool_decide as Hk; simpl in Hcount; [lia|].
    rewrite lookup_delete_ne by done. apply Hmarked. lia.
  - intros c s Hin.
    apply elem_of_insert_app in Hin as [[=]|[Hin|(j & _ & Hj)]].
    + by apply elem_of_nil in Hin.
    + specialize (Hcount (mkKey c s)).
      assert (countb (committed (mkKey c s)) (pool sys) = 0%nat); [|lia].
      apply Hgap. apply list_elem_of_lookup. eauto.
Qed.

(** Every step preserves the invariant, as long as no goroutine enters
    [GetTile] while another is inside it. *)
Lemma step_dedupInv env i (sys sys' : System) :
  dedupInv sys → mayStep i sys = true → step decode filepathJoin env i sys = Some sys' → dedupInv sys'.
Proof.
  intros Hinv Hmay Hstep. unfold step, mayStep in *.
  destruct (pool sys !! i) as [t|] eqn:Hi; [|done].
  destruct t as [pc|pc| |s| |]; [| | | | |done].
  - destruct pc as [c|c s|c s|c s|tile]; simpl in Hstep; [| | | |done].
    + injection Hstep as <-.
      apply (dedupInv_quiet sys i (InGetTile (GT_entry c))); try done.
      intros _. right. by apply Nat.eqb_eq.
    + destruct (tiles (tm (world sys)) !! mkKey c s) as [tile|] eqn:Htile.
      { injection Hstep as <-.
        by apply (dedupInv_quiet sys i (InGetTile (GT_check c s))). }
      destruct (isLoading (tm (world sys)) (mkKey c s)) eqn:Hidle.
      { injection Hstep as <-.
        by apply (dedupInv_quiet sys i (InGetTile (GT_check c s))). }
      injection Hstep as <-.
      apply (dedupInv_quiet sys i (InGetTile (GT_check c s))); try done; [by left|].
      intros c' s' [= <- <-].
      destruct Hinv as (_ & _ & Hmarked & _).
      destruct (countb (committed (mkKey c s)) (pool sys)) eqn:Hc; [done|].
      rewrite Hmarked in Hidle by lia. done.
    + injection Hstep as <-. by apply dedupInv_mark.
    + injection Hstep as <-. by apply dedupInv_go.
  - destruct pc as [c s|c s|key img|key|]; simpl in Hstep; [| | | |done].
    + destruct (loadFromCache decode filepathJoin (world sys) c s);
        injection Hstep as <-; rewrite <- (app_nil_r (<[_:=_]> (pool sys)));
        by apply (dedupInv_quiet sys i (InLoadTile (LT_entry c s))).
    + pose proof (downloadTile_tm decode filepathJoin env (world sys) c s) as Htm.
      destruct (downloadTile decode filepathJoin env (world sys) c s) as [[img|] w1];
        simpl in Htm; injection Hstep as <-;
        rewrite <- (app_nil_r (<[_:=_]> (pool sys)));
        apply (dedupInv_quiet sys i (InLoadTile (LT_download c s))); try done;
        by rewrite Htm.
    + injection Hstep as <-. rewrite <- (app_nil_r (<[_:=_]> (pool sys))).
      by apply (dedupInv_quiet sys i (InLoadTile (LT_publish key img))).
    + injection Hstep as <-. rewrite <- (app_nil_r (<[_:=_]> (pool sys))).
      by apply dedupInv_defer.
  - injection Hstep as <-. rewrite <- (app_nil_r (<[_:=_]> (pool sys))).
    by apply (dedupInv_quiet sys i InClearCache).
  - injection Hstep as <-. rewrite <- (app_nil_r (<[_:=_]> (pool sys))).
    by apply (dedupInv_quiet sys i (InSetSource s)).
  - injection Hstep as <-. rewrite <- (app_nil_r (<[_:=_]> (pool sys))).
    apply (dedupInv_quiet sys i InToggleSource); try done.
    simpl. unfold ToggleSource. by case_decide.
Qed.

Lemma runSerial_dedupInv env schedule : ∀ (sys sys' : System),
  dedupInv sys → runSerial decode filepathJoin env schedule sys = Some sys' → dedupInv sys'.
Proof.
  induction schedule as [|i rest IH]; simpl; intros sys sys' Hinv Hrun.
  - by injection Hrun as <-.
  - destruct (mayStep i sys) eqn:Hmay; [|done].
    destruct (step decode filepathJoin env i sys) as [sys1|] eqn:Hstep; [|done]. simpl in Hrun.
    eapply IH; [|done]. by eapply step_dedupInv.
Qed.

(** Calls that have not started stand for no fetch. *)
Lemma dedupInv_calls (w : @World Image) (calls : list Thread) :
  forallb isCall calls = true → dedupInv {| world := w; pool := calls |}.
Proof.
  intros Hcalls.
  assert (Hmid : countb midCall calls = 0%nat ∧
                 (∀ key, countb (committed key) calls = 0%nat) ∧
                 (∀ c s, InGetTile (GT_mark c s) ∉ calls)).
  { induction calls as [|t calls IH]; simpl in *.
    - split_and!; try done. intros c s Hin. by apply elem_of_nil in Hin.
    - apply andb_true_iff in Hcalls as [Ht Hrest].
      destruct (IH Hrest) as (IH1 & IH2 & IH3).
      split_and!.
      + rewrite countb_cons, IH1. by destruct t as [[]| | | | |].
      + intros key. rewrite countb_cons, IH2. by destruct t as [[]| | | | |].
      + intros c s [Heq|Hin]%elem_of_cons; [by subst t|]. by eapply IH3. }
  destruct Hmid as (Hmid & Hcom & Hmark).
  split_and!; simpl.
  - unfold callsInProgress. simpl. lia.
  - intros key. rewrite Hcom. lia.
  - intros key. rewrite Hcom. lia.
  - intros c s Hin. by apply Hmark in Hin.
Qed.

(** X9. With one caller at a time, at most one fetch of a key is outstanding at
    any point of any interleaving with the loaders, and a key with a fetch
    outstanding is marked in flight. *)
Theorem serial_calls_one_fetch env schedule (w : @World Image) calls (sys : System) :
  forallb isCall calls = true →
  runSerial decode filepathJoin env schedule {| world := w; pool := calls |} = Some sys →
  ∀ key, (outstanding key sys ≤ 1)%nat ∧
         (outstanding key sys = 1%nat → isLoading (tm (world sys)) key = true).
Proof.
  intros Hcalls Hrun key.
  pose proof (runSerial_dedupInv env schedule _ _ (dedupInv_calls w calls Hcalls) Hrun)
    as (_ & Hone & Hmarked & _).
  assert (Hle : (outstanding key sys ≤ countb (committed key) (pool sys))%nat).
  { apply countb_le. intros t. by destruct t as [[]|[]| | | |]. }
  specialize (Hone key). split; [lia|].
  intros Hout. apply Hmarked. lia.
Qed.

End SerialFacts.

(** ** Clearing the cache while a fetch is in flight *)

Example midFetch_state :
  midFetch =
    Some {| world :=
              {| tm := {| cacheDir := "tiles"; source := MapSourceSatellite;
                          tiles := {[ homeKey := pixels ]};
                          loading := {[ homeKey := true ]} |};
                 disk := {[ "tiles/satellite/15_12100_18526.jpg" := pixels ]};
                 requests := [tileURL homeTile MapSourceSatellite];
                 logs := [] |};
            pool := [InGetTile (GT_return None); InLoadTile (LT_defer homeKey)] |}.
Proof. reflexivity. Qed.

(** C8 as stated fails. A [loadTile] that has published its tile and not yet
    run its deferred [delete] leaves the key both cached and in flight;
    [ClearCache] then drops the tile and keeps the mark, and the [GetTile]
    that follows returns nil without starting a fetch. *)
Lemma ClearCache_refetch_not_always :
  ¬ (∀ (w : @World (list Byte.byte)) (coord : TileCoord),
       reachable sampleDecode slashJoin w →
       is_Some (tiles (tm w) !! mkKey coord (source (tm w))) →
       ∃ w' t, GetTile (withTm w (ClearCache (tm w))) coord = (None, w', [t])).
Proof.
  intros Hclaim.
  pose proof midFetch_state as Hrun.
  set (sys := {| world := _; pool := _ |}) in Hrun.
  destruct (Hclaim (world sys) homeTile) as (w' & t & Hget).
  - exists "tiles", ∅, serverUp, [InGetTile (GT_entry homeTile)],
      [0; 0; 0; 0; 1; 1; 1]%nat, sys.
    split; [reflexivity|]. split; [exact Hrun | reflexivity].
  - exists pixels. reflexivity.
  - vm_compute in Hget. discriminate.
Qed.

(** * Further properties *)

(** ** The viewport enumeration at its edges *)

Lemma forEach_skip {A S} (body : A → S → Result S) xs :
  (∀ x s, x ∈ xs → body x s = Ok s) → ∀ s, forEach body xs s = Ok s.
Proof.
  induction xs as [|x xs IH]; simpl; intros Hbody s; [done|].
  rewrite Hbody by left. simpl. apply IH. intros y s' Hy. apply Hbody. by right.
Qed.

Lemma forEach_panic_first {A S} (body : A → S → Result S) x xs s :
  body x s = Panic → forEach body (x :: xs) s = Panic.
Proof. intros Hp. simpl. by rewrite Hp. Qed.

(** A loop whose body adds at most [k] elements adds at most [k] per turn. *)
Lemma forEach_length {A T} (k : nat) (body : A → list T → Result (list T)) xs :
  (∀ x s s', body x s = Ok s' → (length s' ≤ length s + k)%nat) →
  ∀ s s', forEach body xs s = Ok s' → (length s' ≤ length s + k * length xs)%nat.
Proof.
  intros Hbody. induction xs as [|x xs IH]; simpl; intros s s' Hrun.
  - injection Hrun as <-. lia.
  - destruct (body x s) as [s1|] eqn:E; [|done]. simpl in Hrun.
    apply Hbody in E. apply IH in Hrun. lia.
Qed.

Lemma filter_bind {A B} (P : B → Prop) `{!∀ x, Decision (P x)} (f : A → list B) l :
  filter P (l ≫= f) = l ≫= (fun x => filter P (f x)).
Proof.
  induction l as [|x l IH]; [done|].
  by rewrite !bind_cons, filter_app, IH.
Qed.

Section EdgeFacts.
Import GoInt GoIntFacts.

Context {float64 : Type} (LatLonToTile : float64 → float64 → Z → Z * Z).

(** X1. Near a pole. The rows of the block that fall outside the grid are
    dropped and the others are returned in the order of the block: there is
    no vertical wrap-around, and the columns are still all there. *)
Theorem GetTilesForView_rows_in_grid (centerLat centerLon : float64)
    (zoom screenW screenH centerX centerY : Z) :
  LatLonToTile centerLat centerLon zoom = (centerX, centerY) →
  0 <= zoom <= 62 →
  0 <= screenW <= maxInt →
  0 <= screenH <= maxInt →
  inRange (centerY - halfSpan screenH) →
  inRange (centerY + halfSpan screenH) →
  GetTilesForView LatLonToTile centerLat centerLon zoom screenW screenH =
    Ok (filter (fun c => 0 <= tcY c < 2 ^ zoom)
          (viewBlock centerX centerY zoom (halfSpan screenW) (halfSpan screenH))).
Proof.
  intros Hcenter Hz HW HH Hlo Hhi.
  destruct (loop_bounds screenW HW) as (HloX & HhiX & HhX).
  destruct (loop_bounds screenH HH) as (HloY & HhiY & HhY).
  unfold GetTilesForView, viewBlock. rewrite Hcenter, HloX, HhiX, HloY, HhiY.
  rewrite filter_bind.
  rewrite (forEach_collect
    (fun dx => filter (fun c => 0 <= tcY c < 2 ^ zoom)
       (upto (- halfSpan screenH) (halfSpan screenH) ≫= fun dy =>
          [mkTileCoord ((centerX + dx) mod 2 ^ zoom) (centerY + dy) zoom]))); [done|].
  intros dx _ s. rewrite filter_bind.
  apply (forEach_collect
    (fun dy => filter (fun c => 0 <= tcY c < 2 ^ zoom)
       [mkTileCoord ((centerX + dx) mod 2 ^ zoom) (centerY + dy) zoom])).
  intros dy Hdy%elem_of_upto s'.
  assert (Hr : inRange (centerY + dy)) by (unfold inRange in *; lia).
  destruct (decide (0 <= centerY + dy < 2 ^ zoom)) as [Hin|Hout].
  - rewrite viewCell_row by done. simpl.
    rewrite filter_cons_True by done. by rewrite filter_nil.
  - rewrite viewCell_skips_row by (done || lia). simpl.
    rewrite filter_cons_False by done. by rewrite filter_nil, app_nil_r.
Qed.

Lemma viewport_tile_count (centerLat centerLon : float64)
    (zoom screenW screenH : Z) (coords : list TileCoord) :
  0 <= screenW <= maxInt →
  0 <= screenH <= maxInt →
  GetTilesForView LatLonToTile centerLat centerLon zoom screenW screenH = Ok coords →
  Z.of_nat (length coords) <= (2 * halfSpan screenW + 1) * (2 * halfSpan screenH + 1).
Proof.
  intros HW HH. unfold GetTilesForView.
  destruct (LatLonToTile centerLat centerLon zoom) as [centerX centerY].
  destruct (loop_bounds screenW HW) as (HloX & HhiX & HhX).
  destruct (loop_bounds screenH HH) as (HloY & HhiY & HhY).
  rewrite HloX, HhiX, HloY, HhiY. intros Hrun.
  apply (forEach_length (Z.to_nat (2 * halfSpan screenH + 1))) in Hrun.
  - rewrite length_upto in Hrun. simpl in Hrun. nia.
  - intros dx s s' Hinner.
    apply (forEach_length 1) in Hinner.
    + rewrite length_upto in Hinner. lia.
    + intros dy s1 s2.
      destruct (viewCell centerX centerY zoom dx dy) as [[t|]|]; simpl; [| |done].
      * intros [= <-]. rewrite length_app. simpl. lia.
      * intros [= <-]. lia.
Qed.

(** X2. However the view is placed, a viewport gives at most
    [(2*hx + 1) * (2*hy + 1)] tiles: 15 for 800 by 480. *)
Theorem GetTilesForView_size_bound (centerLat centerLon : float64)
    (zoom screenW screenH : Z) (coords : list TileCoord) :
  0 <= screenW <= maxInt →
  0 <= screenH <= maxInt →
  GetTilesForView LatLonToTile centerLat centerLon zoom screenW screenH = Ok coords →
  Z.of_nat (length coords) <= (2 * halfSpan screenW + 1) * (2 * halfSpan screenH + 1).
Proof. apply viewport_tile_count. Qed.

Lemma GetTilesForView_total (centerLat centerLon : float64) (zoom screenW screenH : Z) :
  0 <= zoom <= 63 →
  ∃ coords, GetTilesForView LatLonToTile centerLat centerLon zoom screenW screenH = Ok coords.
Proof.
  intros Hz. unfold GetTilesForView.
  destruct (LatLonToTile centerLat centerLon zoom) as [centerX centerY].
  apply forEach_total. intros dx s. apply forEach_total.
  intros dy s'. destruct (viewCell_total centerX centerY zoom dx dy Hz) as [c ->].
  simpl. eauto.
Qed.

(** X3. The zoom must stay between 0 and 62 for the enumeration to mean
    anything: at zoom 63 the shift gives the most negative [int] and every
    row is skipped; below 0 the shift panics and from 64 on the remainder
    divides by zero, in the first turn of the loops. *)
Theorem GetTilesForView_zoom_out_of_range (centerLat centerLon : float64)
    (zoom screenW screenH : Z) :
  0 <= screenW <= maxInt →
  0 <= screenH <= maxInt →
  (zoom = 63 →
   GetTilesForView LatLonToTile centerLat centerLon zoom screenW screenH = Ok []) ∧
  (zoom < 0 ∨ 64 <= zoom →
   GetTilesForView LatLonToTile centerLat centerLon zoom screenW screenH = Panic).
Proof.
  intros HW HH. unfold GetTilesForView.
  destruct (LatLonToTile centerLat centerLon zoom) as [centerX centerY].
  destruct (loop_bounds screenW HW) as (HloX & HhiX & HhX).
  destruct (loop_bounds screenH HH) as (HloY & HhiY & HhY).
  rewrite HloX, HhiX, HloY, HhiY. split.
  - intros ->. apply forEach_skip. intros dx s _. apply forEach_skip.
    intros dy s' _. unfold viewCell.
    replace (shl 1 63) with (Ok minInt) by reflexivity.
    unfold rbind at 1, rem. replace (minInt =? 0) with false by reflexivity.
    unfold rbind at 1 2.
    pose proof (wrap_range (centerY + dy)) as Hr. unfold inRange in Hr.
    fold (add centerY dy) in Hr.
    destruct (add centerY dy <? 0) eqn:E1; [done|].
    destruct (minInt <=? add centerY dy) eqn:E2; [done|]. lia.
  - intros Hz. unfold upto.
    rewrite (seqZ_cons (- halfSpan screenW)) by lia.
    apply forEach_panic_first.
    rewrite (seqZ_cons (- halfSpan screenH)) by lia.
    apply forEach_panic_first.
    unfold viewCell, shl.
    destruct (zoom <? 0) eqn:E1; [done|].
    destruct (64 <=? zoom) eqn:E2; [done|lia].
Qed.

End EdgeFacts.

Lemma GetTilesForView_rows_in_grid_witness :
  GetTilesForView centerAt 0 0 2 300 200
  = Ok [mkTileCoord 3 0 2; mkTileCoord 3 1 2; mkTileCoord 0 0 2; mkTileCoord 0 1 2;
        mkTileCoord 1 0 2; mkTileCoord 1 1 2].
Proof.
  rewrite (GetTilesForView_rows_in_grid centerAt 0 0 2 300 200 0 0);
    [reflexivity | reflexivity | lia | vm_compute; split; discriminate
    | vm_compute; split; discriminate | vm_compute; split; discriminate
    | vm_compute; split; discriminate].
Defined.

Lemma GetTilesForView_size_bound_witness :
  Z.of_nat (length (viewBlock 12100 18526 15 2 1)) <= 15.
Proof.
  apply (GetTilesForView_size_bound centerAt 12100 18526 15 800 480);
    [vm_compute; split; discriminate | vm_compute; split; discriminate | reflexivity].
Defined.

Lemma GetTilesForView_zoom_out_of_range_witness :
  GetTilesForView centerAt 0 0 63 800 480 = Ok [] ∧
  GetTilesForView centerAt 0 0 64 800 480 = Panic ∧
  GetTilesForView centerAt 0 0 (-1) 800 480 = Panic.
Proof.
  split; [|split].
  - apply (GetTilesForView_zoom_out_of_range centerAt 0 0 63 800 480);
      [vm_compute; split; discriminate | vm_compute; split; discriminate | reflexivity].
  - apply (GetTilesForView_zoom_out_of_range centerAt 0 0 64 800 480);
      [vm_compute; split; discriminate | vm_compute; split; discriminate | right; lia].
  - apply (GetTilesForView_zoom_out_of_range centerAt 0 0 (-1) 800 480);
      [vm_compute; split; discriminate | vm_compute; split; discriminate | left; lia].
Defined.

(** ** The fetch, beyond its first outcome *)

Section FetchFacts.

Context {Image : Type}.
Variable decode : list Byte.byte → option Image.
Variable filepathJoin : string → string → string → string.

Local Abbreviation World := (@World Image).
Local Abbreviation cachePath := (cachePath (Image := Image) filepathJoin).
Local Abbreviation loadFromCache := (loadFromCache decode filepathJoin).
Local Abbreviation downloadTile := (downloadTile decode filepathJoin).
Local Abbreviation loadTileBody := (loadTileBody decode filepathJoin).
Local Abbreviation loadTile := (loadTile decode filepathJoin).

(** The path of a tile depends on the manager through its directory only. *)
Lemma cachePath_cacheDir (m1 m2 : @TileManager Image) coord src :
  cacheDir m1 = cacheDir m2 → cachePath m1 coord src = cachePath m2 coord src.
Proof. unfold cachePath. by intros ->. Qed.

(** A download that succeeds: the tile, one request, and the file or the
    line of the log that says it could not be written. *)
Lemma downloadTile_ok env (w : World) coord src bytes img :
  httpReply env (tileURL coord src) = Response StatusOK (BodyData bytes) →
  decode bytes = Some img →
  downloadTile env w coord src =
    (Some img,
     if writeFails env (cachePath (tm w) coord src)
     then {| tm := tm w; disk := disk w;
             requests := requests w ++ [tileURL coord src];
             logs := logs w ++ [TileCacheWriteError coord] |}
     else {| tm := tm w; disk := <[cachePath (tm w) coord src := bytes]> (disk w);
             requests := requests w ++ [tileURL coord src];
             logs := logs w |}).
Proof.
  intros Hreply Hdec. unfold downloadTile. rewrite Hreply. simpl.
  destruct (writeFails env _); by rewrite Hdec.
Qed.

(** X4. A tile that had to be downloaded is written to the disk cache as the
    server sent it, and from then on the disk serves it: after the memory
    cache is cleared, the next fetch of the key publishes the same tile from
    the file without a request, whatever the server would answer. *)
Theorem loadTile_download_persists env env' (w : World) coord src bytes img :
  loadFromCache w coord src = None →
  httpReply env (tileURL coord src) = Response StatusOK (BodyData bytes) →
  writeFails env (cachePath (tm w) coord src) = false →
  decode bytes = Some img →
  let key := mkKey coord src in
  let w1 := loadTile env w coord src in
  let w2 := loadTile env' (withTm w1 (ClearCache (tm w1))) coord src in
  tiles (tm w1) !! key = Some img ∧
  disk w1 = <[cachePath (tm w) coord src := bytes]> (disk w) ∧
  requests w1 = requests w ++ [tileURL coord src] ∧
  logs w1 = logs w ∧
  tiles (tm w2) !! key = Some img ∧
  requests w2 = requests w1 ∧
  disk w2 = disk w1.
Proof.
  intros Hmiss Hreply Hwrite Hdec key w1 w2.
  assert (Hw1 : w1 = withTm
            {| tm := publish (tm w) key img;
               disk := <[cachePath (tm w) coord src := bytes]> (disk w);
               requests := requests w ++ [tileURL coord src];
               logs := logs w |}
            (clearLoading (publish (tm w) key img) key)).
  { subst w1. unfold loadTile, loadTileBody. rewrite Hmiss.
    rewrite (downloadTile_ok env w coord src bytes img) by done.
    by rewrite Hwrite. }
  assert (Hhit : loadFromCache (withTm w1 (ClearCache (tm w1))) coord src = Some img).
  { rewrite Hw1. unfold loadFromCache. simpl.
    rewrite (cachePath_cacheDir _ (tm w)) by done.
    by rewrite lookup_insert_eq. }
  subst w2. unfold loadTile, loadTileBody. rewrite Hhit. rewrite Hw1. simpl.
  split_and!; try done; apply lookup_insert_eq.
Qed.


(** What a download changes outside the manager: at most the file of its own
    tile, at most one request, and that request is for its own URL. *)
Lemma downloadTile_frame env (w : World) coord src :
  let w' := (downloadTile env w coord src).2 in
  (∀ path, path ≠ cachePath (tm w) coord src → disk w' !! path = disk w !! path) ∧
  (requests w' = requests w ∨ requests w' = requests w ++ [tileURL coord src]).
Proof.
  unfold downloadTile.
  destruct (httpReply env (tileURL coord src)) as [| |status [|bytes]]; simpl; auto.
  - case_decide; simpl; auto.
  - case_decide; simpl; [auto|].
    destruct (writeFails env _); destruct (decode bytes); simpl; split; auto;
      intros path Hne; by rewrite lookup_insert_ne.
Qed.

(** X6. A fetch keeps to its own key. Whatever the disk and the server do,
    [loadTile] leaves the tiles and the in-flight marks of every other key,
    the source and the cache directory as they were; on disk it changes at
    most the file of its own tile; it sends at most one request, for the URL
    of its own tile; and an entry of the map, once there, is never removed by
    a fetch. *)
Theorem loadTile_frame env (w : World) coord src :
  let key := mkKey coord src in
  let w' := loadTile env w coord src in
  (∀ k, k ≠ key → tiles (tm w') !! k = tiles (tm w) !! k ∧
                  loading (tm w') !! k = loading (tm w) !! k) ∧
  source (tm w') = source (tm w) ∧
  cacheDir (tm w') = cacheDir (tm w) ∧
  (∀ path, path ≠ cachePath (tm w) coord src → disk w' !! path = disk w !! path) ∧
  (requests w' = requests w ∨ requests w' = requests w ++ [tileURL coord src]) ∧
  (∀ k, is_Some (tiles (tm w) !! k) → is_Some (tiles (tm w') !! k)).
Proof.
  intros key w'. subst w'. unfold loadTile, loadTileBody.
  destruct (loadFromCache w coord src) as [img|] eqn:Hcache; simpl.
  - split_and!; try done; auto.
    + intros k Hk. by rewrite lookup_insert_ne, lookup_delete_ne by done.
    + intros k Hsome. destruct (decide (key = k)) as [<-|Hne].
      * rewrite lookup_insert_eq. eauto.
      * by rewrite lookup_insert_ne.
  - pose proof (downloadTile_tm decode filepathJoin env w coord src) as Htm.
    pose proof (downloadTile_frame env w coord src) as (Hdisk & Hreq).
    destruct (downloadTile env w coord src) as [[img|] w1]; simpl in *.
    + split_and!; try done; try by rewrite Htm.
      * intros k Hk. by rewrite lookup_insert_ne, lookup_delete_ne, Htm by done.
      * intros k Hsome. destruct (decide (key = k)) as [<-|Hne].
        -- rewrite lookup_insert_eq. eauto.
        -- by rewrite lookup_insert_ne, Htm.
    + split_and!; try done; try by rewrite Htm.
      intros k Hk. by rewrite lookup_delete_ne, Htm by done.
Qed.

(** X7. A fetch that has ended never leaves its key blocked. After a [GetTile]
    that started a fetch, and that fetch run to its end, the next [GetTile]
    either returns the tile the fetch published, starting nothing and
    touching no file and no network, or finds the key absent and unmarked and
    starts the fetch again. *)
Theorem GetTile_after_fetch env (w w1 : World) coord t :
  GetTile w coord = (None, w1, [t]) →
  let src := source (tm w) in
  let key := mkKey coord src in
  let w2 := loadTile env w1 coord src in
  t = InLoadTile (LT_entry coord src) ∧
  isLoading (tm w1) key = true ∧
  match tiles (tm w2) !! key with
  | Some img => GetTile w2 coord = (Some img, w2, [])
  | None =>
    GetTile w2 coord =
      (None, withTm w2 (markLoading (tm w2) key), [InLoadTile (LT_entry coord src)])
  end.
Proof.
  intros Hget src key w2.
  unfold GetTile, GetSource in Hget. fold src key in Hget.
  destruct (tiles (tm w) !! key) as [tile|] eqn:Hmiss; [done|].
  destruct (isLoading (tm w) key) eqn:Hidle; [done|].
  injection Hget as <- <-.
  split; [done|]. split.
  { unfold isLoading. simpl. by rewrite lookup_insert_eq. }
  assert (Hsrc' : source (tm w2) = src).
  { subst w2. unfold loadTile. simpl.
    by destruct (loadTileBody_loading decode filepathJoin env
                   (withTm w (markLoading (tm w) key)) coord src) as (_ & -> & _). }
  assert (Hclear : loading (tm w2) !! key = None).
  { subst w2. unfold loadTile. simpl. apply lookup_delete_eq. }
  unfold GetTile, GetSource. rewrite Hsrc'. fold key.
  destruct (tiles (tm w2) !! key) as [img|] eqn:Htile; [done|].
  unfold isLoading. by rewrite Hclear.
Qed.

(** X8. [ToggleSource] always lands on one of the two named sources, whatever the
    source was set to; between the two named sources it is its own inverse,
    on the whole manager. *)
Theorem ToggleSource_involution (m : @TileManager Image) :
  ((ToggleSource m).2 = MapSourceStreet ∨ (ToggleSource m).2 = MapSourceSatellite) ∧
  SourceName (ToggleSource m).1 ≠ "Unknown" ∧
  (source m ≠ MapSourceStreet → (ToggleSource m).2 = MapSourceStreet) ∧
  (source m = MapSourceStreet ∨ source m = MapSourceSatellite →
   (ToggleSource (ToggleSource m).1).1 = m).
Proof.
  unfold ToggleSource, SourceName, GetSource. split_and!.
  - case_decide; auto.
  - destruct (decide (source m = MapSourceStreet)); simpl; done.
  - intros Hne. by rewrite decide_False.
  - destruct m as [dir src tl ld]. simpl. intros [->| ->]; done.
Qed.

End FetchFacts.

Lemma loadTile_download_persists_witness :
  let w1 := loadTile sampleDecode slashJoin serverUp freshWorld homeTile MapSourceSatellite in
  let w2 := loadTile sampleDecode slashJoin serverDown
              (withTm w1 (ClearCache (tm w1))) homeTile MapSourceSatellite in
  disk w1 = {[ "tiles/satellite/15_12100_18526.jpg" := pixels ]} ∧
  tiles (tm w2) !! homeKey = Some pixels ∧
  requests w2 = requests w1.
Proof.
  destruct (loadTile_download_persists sampleDecode slashJoin serverUp serverDown
              freshWorld homeTile MapSourceSatellite pixels pixels)
    as (_ & Hdisk & _ & _ & Htile & Hreq & _); try reflexivity.
  split; [exact Hdisk|]. split; [exact Htile | exact Hreq].
Defined.


Lemma loadTile_frame_witness :
  let w' := loadTile sampleDecode slashJoin serverUp cachedWorld homeTile MapSourceStreet in
  tiles (tm w') !! homeKey = None ∧
  disk w' !! "tiles/satellite/15_12100_18526.jpg" = Some pixels.
Proof.
  destruct (loadTile_frame sampleDecode slashJoin serverUp cachedWorld
              homeTile MapSourceStreet) as (Hkeys & _ & _ & Hdisk & _).
  split.
  - destruct (Hkeys homeKey) as [Htile _]; [discriminate|]. exact Htile.
  - rewrite Hdisk; [reflexivity | discriminate].
Defined.

Lemma GetTile_after_fetch_witness :
  let w1 := (GetTile freshWorld homeTile).1.2 in
  let up := loadTile sampleDecode slashJoin serverUp w1 homeTile MapSourceSatellite in
  let down := loadTile sampleDecode slashJoin serverDown w1 homeTile MapSourceSatellite in
  GetTile up homeTile = (Some pixels, up, []) ∧
  GetTile down homeTile =
    (None, withTm down (markLoading (tm down) homeKey),
     [InLoadTile (LT_entry homeTile MapSourceSatellite)]).
Proof.
  intros w1 up down. split.
  - destruct (GetTile_after_fetch sampleDecode slashJoin serverUp freshWorld w1 homeTile
                (InLoadTile (LT_entry homeTile MapSourceSatellite)) eq_refl)
      as (_ & _ & Hnext).
    exact Hnext.
  - destruct (GetTile_after_fetch sampleDecode slashJoin serverDown freshWorld w1 homeTile
                (InLoadTile (LT_entry homeTile MapSourceSatellite)) eq_refl)
      as (_ & _ & Hnext).
    exact Hnext.
Defined.

Lemma ToggleSource_involution_witness :
  let m := NewTileManager (Image := list Byte.byte) "tiles" in
  (ToggleSource m).2 = MapSourceStreet ∧
  (ToggleSource (ToggleSource m).1).1 = m ∧
  (ToggleSource (SetSource m 7)).2 = MapSourceStreet.
Proof.
  intros m.
  destruct (ToggleSource_involution m) as (_ & _ & Hstreet & Hback).
  destruct (ToggleSource_involution (SetSource m 7)) as (_ & _ & Hother & _).
  split; [apply Hstreet; discriminate|].
  split; [apply Hback; by right | apply Hother; discriminate].
Defined.

Lemma serial_calls_one_fetch_witness :
  ∃ sys, midFetch = Some sys ∧
         (outstanding homeKey sys ≤ 1)%nat ∧
         isLoading (tm (world sys)) homeKey = true.
Proof.
  pose proof midFetch_state as Hrun.
  set (sys := {| world := _; pool := _ |}) in Hrun.
  exists sys. split; [exact Hrun|].
  destruct (serial_calls_one_fetch sampleDecode slashJoin serverUp
              [0; 0; 0; 0; 1; 1; 1]%nat freshWorld [InGetTile (GT_entry homeTile)]
              sys eq_refl Hrun homeKey) as [Hle Hmark].
  split; [exact Hle|]. apply Hmark. reflexivity.
Defined.

(** ** The URLs of the tiles *)

Lemma pretty_N_go_decimal x : ∀ s,
  everyChar decimalChar s = true → everyChar decimalChar (pretty_N_go x s) = true.
Proof.
  induction (N.lt_wf_0 x) as [x _ IH]; intros s Hs.
  assert (x = 0 ∨ 0 < x)%N as [->|Hpos] by lia.
  - by rewrite pretty_N_go_0.
  - rewrite pretty_N_go_step by done. apply IH.
    { by apply N.div_lt. }
    simpl. rewrite Hs. unfold pretty_N_char. by repeat case_match.
Qed.

Lemma pretty_Z_decimal (z : Z) : everyChar decimalChar (pretty z) = true.
Proof.
  assert (HN : ∀ n : N, everyChar decimalChar (pretty n) = true).
  { intros n. unfold pretty, pretty_N. case_decide; [done|].
    by apply pretty_N_go_decimal. }
  destruct z as [|p|p]; [done|apply HN|].
  unfold pretty, pretty_Z. simpl. apply HN.
Qed.

Lemma append_cancel (prefix a b : string) : prefix +:+ a = prefix +:+ b → a = b.
Proof. induction prefix as [|c prefix IH]; simpl; [done|]. intros [= ?]. auto. Qed.

(** Two strings of [f]-characters followed by a separator that is not one:
    the separator is found at the same place. *)
Lemma append_separator (f : Ascii.ascii → bool) (c : Ascii.ascii) : ∀ s1 s2 r1 r2,
  everyChar f s1 = true → everyChar f s2 = true → f c = false →
  s1 +:+ String c r1 = s2 +:+ String c r2 →
  s1 = s2 ∧ r1 = r2.
Proof.
  induction s1 as [|a s1 IH]; intros [|b s2] r1 r2 H1 H2 Hc; simpl in *.
  - by intros [= ->].
  - intros [= <- _]. apply andb_true_iff in H2 as [Hb _]. congruence.
  - intros [= -> _]. apply andb_true_iff in H1 as [Ha _]. congruence.
  - intros [= -> Hrest].
    apply andb_true_iff in H1 as [_ H1]. apply andb_true_iff in H2 as [_ H2].
    destruct (IH s2 r1 r2 H1 H2 Hc Hrest) as [-> ->]. done.
Qed.

Lemma zyx_injective (c1 c2 : TileCoord) :
  pretty (tcZ c1) +:+ "/" +:+ pretty (tcY c1) +:+ "/" +:+ pretty (tcX c1)
  = pretty (tcZ c2) +:+ "/" +:+ pretty (tcY c2) +:+ "/" +:+ pretty (tcX c2) →
  c1 = c2.
Proof.
  intros Heq. simpl in Heq.
  apply (append_separator decimalChar) in Heq as [Hz Heq];
    [|apply pretty_Z_decimal|apply pretty_Z_decimal|done].
  apply (append_separator decimalChar) in Heq as [Hy Hx];
    [|apply pretty_Z_decimal|apply pretty_Z_decimal|done].
  apply (inj pretty) in Hz, Hy, Hx.
  destruct c1, c2; simpl in *; congruence.
Qed.

(** X10. No two tiles share a URL: for the two named sources, equal URLs mean the
    same coordinate and the same source. Any other source value has the
    empty URL for every tile. *)
Theorem tileURL_injective (coord1 coord2 : TileCoord) (src1 src2 : MapSource) :
  (src1 = MapSourceStreet ∨ src1 = MapSourceSatellite →
   src2 = MapSourceStreet ∨ src2 = MapSourceSatellite →
   tileURL coord1 src1 = tileURL coord2 src2 →
   coord1 = coord2 ∧ src1 = src2) ∧
  (src1 ≠ MapSourceStreet → src1 ≠ MapSourceSatellite → tileURL coord1 src1 = "").
Proof.
  split.
  - intros [-> | ->] [-> | ->] Hurl; unfold tileURL in Hurl; simpl in Hurl.
    + split; [|done]. apply zyx_injective. simplify_eq/=. done.
    + exfalso. discriminate Hurl.
    + exfalso. discriminate Hurl.
    + split; [|done]. apply zyx_injective. simplify_eq/=. done.
  - intros H1 H2. unfold tileURL. by rewrite !decide_False.
Qed.

Lemma tileURL_injective_witness :
  tileURL homeTile MapSourceSatellite ≠ tileURL (mkTileCoord 18526 12100 15) MapSourceSatellite ∧
  tileURL homeTile 7 = "".
Proof.
  destruct (tileURL_injective homeTile (mkTileCoord 18526 12100 15)
              MapSourceSatellite MapSourceSatellite) as [Hinj _].
  destruct (tileURL_injective homeTile homeTile 7 7) as [_ Hempty].
  split.
  - intros Hurl. destruct Hinj as [Hc _]; [by right | by right | exact Hurl |].
    discriminate Hc.
  - apply Hempty; discriminate.
Defined.

(** ** A frame of the map *)

Section FrameFacts.

Context {float64 Image : Type}.
Variable LatLonToTile : float64 → float64 → Z → Z * Z.
Variable visible : float64 → float64 → Z → Z → Z → TileCoord → bool.

Local Abbreviation World := (@World Image).
Local Abbreviation Thread := (@Thread Image).
Local Abbreviation DrawOp := (@DrawOp Image).

Lemma GetTile_cases (w : World) coord :
  let key := mkKey coord (source (tm w)) in
  (covered w coord ∧
   GetTile w coord = (tiles (tm w) !! key, w, [])) ∨
  (¬ covered w coord ∧
   GetTile w coord =
     (None, withTm w (markLoading (tm w) key), [InLoadTile (LT_entry coord (source (tm w)))])).
Proof.
  intros key. unfold GetTile, GetSource, covered. fold key.
  destruct (tiles (tm w) !! key) as [img|] eqn:Htile.
  - left. split; [left; eauto|done].
  - destruct (isLoading (tm w) key) eqn:Hload.
    + left. split; [by right|done].
    + right. split; [|done]. intros [[? [=]]|[=]].
Qed.

Lemma covered_mark (w : World) c c' :
  covered (withTm w (markLoading (tm w) (mkKey c (source (tm w))))) c' ↔
  covered w c' ∨ c' = c.
Proof.
  unfold covered, isLoading. simpl.
  destruct (decide (c' = c)) as [->|Hne].
  - rewrite lookup_insert_eq. simpl. tauto.
  - rewrite lookup_insert_ne by (intros [= ?]; done). tauto.
Qed.

(** What the loop of a frame does, coordinate list by coordinate list. *)
Lemma drawTiles_spec vis coords : ∀ (w w' : World) (ops : list DrawOp) (started : list Thread),
  drawTiles vis w coords = (ops, w', started) →
  (tiles (tm w') = tiles (tm w) ∧ source (tm w') = source (tm w) ∧
   cacheDir (tm w') = cacheDir (tm w) ∧
   disk w' = disk w ∧ requests w' = requests w ∧ logs w' = logs w) ∧
  (∀ c, covered w' c ↔ covered w c ∨ c ∈ coords) ∧
  (∀ t, t ∈ started ↔
        ∃ c, c ∈ coords ∧ ¬ covered w c ∧ t = InLoadTile (LT_entry c (source (tm w)))) ∧
  NoDup started ∧
  ops = coords ≫= (fun c => if vis c then [opFor (tm w) c] else []).
Proof.
  induction coords as [|c rest IH]; intros w w' ops started Hrun; simpl in Hrun.
  - injection Hrun as <- <- <-. split_and!; try done.
    + intros c. split; [auto|]. intros [?|Hin]; [done|]. by apply elem_of_nil in Hin.
    + intros t. split; [intros Hin; by apply elem_of_nil in Hin|].
      intros (c & Hin & _). by apply elem_of_nil in Hin.
    + constructor.
  - destruct (GetTile_cases w c) as [[Hcov Hget]|[Hnot Hget]]; rewrite Hget in Hrun.
    + destruct (drawTiles vis w rest) as [[ops1 w2] more] eqn:Hrest.
      injection Hrun as <- <- <-.
      destruct (IH _ _ _ _ Hrest) as (Hframe & Hcovered & Hstarted & Hnodup & Hops).
      refine (conj Hframe (conj _ (conj _ (conj Hnodup _)))).
      * intros c'. rewrite Hcovered, elem_of_cons. split; [tauto|].
        intros [?|[->|?]]; auto.
      * intros t. simpl. rewrite Hstarted. split.
        -- intros (c' & Hin & Hn & ->). exists c'. split; [by right|done].
        -- intros (c' & [->|Hin]%elem_of_cons & Hn & ->); [done|]. eauto.
      * by rewrite bind_cons, Hops.
    + set (w1 := withTm w (markLoading (tm w) (mkKey c (source (tm w))))) in *.
      destruct (drawTiles vis w1 rest) as [[ops1 w2] more] eqn:Hrest.
      injection Hrun as <- <- <-.
      destruct (IH _ _ _ _ Hrest) as (Hframe & Hcovered & Hstarted & Hnodup & Hops).
      assert (Hmiss : tiles (tm w) !! mkKey c (source (tm w)) = None).
      { destruct (tiles (tm w) !! _) eqn:E; [|done]. exfalso. apply Hnot. left. eauto. }
      refine (conj Hframe (conj _ (conj _ (conj _ _)))).
      * intros c'. rewrite Hcovered. unfold w1. rewrite covered_mark, elem_of_cons. tauto.
      * intros t. simpl. rewrite elem_of_cons, Hstarted. split.
        -- intros [->|(c' & Hin & Hn & ->)].
           ++ exists c. split; [by left|done].
           ++ exists c'. split; [by right|]. split; [|done].
              intros Hc. apply Hn. unfold w1. apply covered_mark. by left.
        -- intros (c' & [->|Hin]%elem_of_cons & Hn & ->); [by left|].
           destruct (decide (c' = c)) as [->|Hne]; [by left|].
           right. exists c'. split; [done|]. split; [|done].
           unfold w1. rewrite covered_mark. tauto.
      * simpl. constructor; [|done].
        rewrite Hstarted. intros (c' & _ & Hn & [= <-]).
        apply Hn. unfold w1. apply covered_mark. by right.
      * rewrite bind_cons, Hops. unfold opFor at 2. simpl. rewrite Hmiss. done.
Qed.

(** When nothing is left to ask for, a frame starts nothing and leaves the
    world alone. *)
Lemma drawTiles_covered vis coords (w : World) :
  (∀ c, c ∈ coords → covered w c) →
  drawTiles vis w coords =
    (coords ≫= (fun c => if vis c then [opFor (tm w) c] else []), w, []).
Proof.
  induction coords as [|c rest IH]; intros Hall; [done|]. simpl.
  destruct (GetTile_cases w c) as [[Hcov Hget]|[Hnot Hget]].
  - by rewrite Hget, IH by (intros c' Hin; apply Hall; by right).
  - exfalso. apply Hnot, Hall. by left.
Qed.



(** X12. The frame after. With the view unchanged and no fetch ended in between,
    the next frame draws the same, starts nothing and changes nothing: the
    render loop can poll every frame without piling up fetches. *)
Theorem drawMapWithOffset_settles (w w' : World) (centerLat centerLon : float64)
    (zoom width height offsetX : Z) (ops : list DrawOp) (started : list Thread) :
  drawMapWithOffset LatLonToTile visible w centerLat centerLon zoom width height offsetX
    = Ok (ops, w', started) →
  drawMapWithOffset LatLonToTile visible w' centerLat centerLon zoom width height offsetX
    = Ok (ops, w', []).
Proof.
  unfold drawMapWithOffset.
  destruct (GetTilesForView _ _ _ _ _ _) as [coords|] eqn:Hview; [|done].
  simpl. intros [= Hrun].
  destruct (drawTiles_spec _ _ _ _ _ _ Hrun)
    as ((Ht & Hs & _) & Hcovered & _ & _ & Hops).
  rewrite drawTiles_covered by (intros c Hin; apply Hcovered; by right).
  do 3 f_equal. rewrite Hops. apply list_bind_ext; [|done].
  intros c. unfold opFor. by rewrite Ht, Hs.
Qed.

(** Within the zoom range of the application the frame never panics. *)
Lemma drawMapWithOffset_total (w : World) (centerLat centerLon : float64)
    (zoom width height offsetX : Z) :
  0 <= zoom <= 63 →
  ∃ r, drawMapWithOffset LatLonToTile visible w centerLat centerLon zoom width height offsetX
       = Ok r.
Proof.
  intros Hz. unfold drawMapWithOffset.
  destruct (GetTilesForView_total LatLonToTile centerLat centerLon zoom
              (GoInt.sub width offsetX) height Hz) as [coords ->].
  simpl. eauto.
Qed.

End FrameFacts.

Example first_frame_zoom0 :
  drawMapWithOffset centerAt alwaysVisible freshWorld 0 0 0 800 480 0
  = Ok ([DrawPlaceholder worldTile; DrawPlaceholder worldTile; DrawPlaceholder worldTile;
         DrawPlaceholder worldTile; DrawPlaceholder worldTile],
        firstFrameWorld,
        [InLoadTile (LT_entry worldTile MapSourceSatellite)]).
Proof. reflexivity. Qed.


Lemma drawMapWithOffset_settles_witness :
  drawMapWithOffset centerAt alwaysVisible firstFrameWorld 0 0 0 800 480 0
  = Ok ([DrawPlaceholder worldTile; DrawPlaceholder worldTile; DrawPlaceholder worldTile;
         DrawPlaceholder worldTile; DrawPlaceholder worldTile],
        firstFrameWorld, []).
Proof.
  exact (drawMapWithOffset_settles centerAt alwaysVisible freshWorld firstFrameWorld
           0 0 0 800 480 0 _ _ first_frame_zoom0).
Defined.

(** ** The application around the tile manager *)

Section ClientFacts.

Context {float32 float64 Image : Type}.
Variable widen : float32 → float64.
Variable isZero32 : float32 → bool.
Variable fadd fsub : float64 → float64 → float64.
Variable panSpeedOf : Z → float64.
Variable dragLonAt : float64 → Z → Z → float64.
Variable dragLatAt : float64 → float64 → Z → Z → float64.

Local Abbreviation GRPCClient := (@GRPCClient float32).
Local Abbreviation App := (@App float32 float64 Image).
Local Abbreviation Shutdown := (@Shutdown float32 float64 Image).
Local Abbreviation keyboard := (handleKeyboard widen fadd fsub panSpeedOf).
Local Abbreviation frame :=
  (Update widen isZero32 fadd fsub panSpeedOf dragLonAt dragLatAt).

(** The calls that take [c.mu] and give it back. *)
Lemma StopTelemetryStream_unlocked (c : GRPCClient) :
  c_mu c = false →
  ∃ c', StopTelemetryStream c = Returns c' ∧ c_mu c' = false ∧ c_streaming c' = false.
Proof.
  intros Hfree. unfold StopTelemetryStream, lock. rewrite Hfree. simpl.
  eexists. split; [done|]. by destruct (c_cancel c).
Qed.

Lemma StopLink_mu backend (c : GRPCClient) : c_mu (StopLink backend c) = c_mu c.
Proof.
  unfold StopLink. destruct (c_client c); simpl; [|done].
  by destruct (backend _).
Qed.

Lemma Disconnect_blocks (c : GRPCClient) : Disconnect c = Blocks.
Proof. unfold Disconnect, lock. by destruct (c_mu c). Qed.

Lemma Shutdown_stuck inp (a a' : App) : Shutdown inp a ≠ Returns a'.
Proof.
  unfold Shutdown.
  destruct (gpioStop _ _) as [g| |]; simpl; [|done..].
  destruct (StopTelemetryStream _) as [c| |]; simpl; [|done..].
  by rewrite Disconnect_blocks.
Qed.

(** X13. [Disconnect] never returns. It locks [c.mu] and, holding it, calls
    [StopTelemetryStream], which waits for [c.mu]: the one goroutine that
    could unlock is the one that waits. So [App.Shutdown] does not return
    either, whatever the state of the station. *)
Theorem Disconnect_never_returns :
  (∀ c : GRPCClient, Disconnect c = Blocks) ∧
  (∀ inp (a a' : App), Shutdown inp a ≠ Returns a').
Proof. split; [apply Disconnect_blocks | apply Shutdown_stuck]. Qed.

(** X14. A frame in which Escape or Q is pressed does not end: [handleKeyboard]
    calls [Shutdown], so neither it nor [Update] returns. *)
Theorem quit_key_never_returns inp (a a' : App) :
  in_justPressed inp KeyEscape = true ∨ in_justPressed inp KeyQ = true →
  keyboard inp a ≠ Returns a' ∧ frame inp a ≠ Returns a'.
Proof.
  intros Hquit.
  assert (Hq : in_justPressed inp KeyEscape || in_justPressed inp KeyQ = true).
  { destruct Hquit as [-> | ->]; [done|]. apply orb_true_r. }
  assert (Hkey : ∀ a0 a1 : App, keyboard inp a0 ≠ Returns a1).
  { intros a0 a1. unfold handleKeyboard.
    match goal with |- (runBind ?c _) ≠ _ => destruct c as [a2| |]; simpl; [|done..] end.
    rewrite Hq. apply Shutdown_stuck. }
  split; [apply Hkey|].
  unfold Update.
  match goal with |- (runBind ?c _) ≠ _ => destruct c as [a1| |]; simpl; [|done..] end.
  destruct (keyboard inp a1) as [a2| |] eqn:Hk; simpl; [|done..].
  exfalso. by eapply Hkey.
Qed.

Local Abbreviation runAction := (@runAction float32 float64 Image widen isZero32).
Local Abbreviation toggleLink := (@toggleLink float32 float64 Image).
Local Abbreviation pollButton := (@pollButton float32 float64 Image widen isZero32).

(** No callback touches the buttons themselves. *)
Lemma runAction_buttons backend act (a a' : App) :
  runAction backend act a = Returns a' →
  a_gpioController a' = a_gpioController a ∧ a_touchControls a' = a_touchControls a.
Proof.
  assert (Hlink : ∀ a1 : App, toggleLink backend a = Returns a1 →
            a_gpioController a1 = a_gpioController a ∧
            a_touchControls a1 = a_touchControls a).
  { intros a1. unfold toggleLink.
    destruct (IsLinkStarted _); [by intros [= <-]|].
    destruct (_ && _); [|by intros [= <-]].
    destruct (a_selectedPort a <? 0); [done|].
    destruct (a_ports a !! _); [|done]. by intros [= <-]. }
  destruct act; simpl; try (by intros [= <-]); try apply Hlink.
  - intros [= <-]. unfold zoomIn. by destruct (_ <? _).
  - intros [= <-]. unfold zoomOut. by destruct (_ <? _).
  - intros [= <-]. by destruct (HasGPS _).
  - intros [= <-]. unfold nextPort. by destruct (_ <? _).
  - intros [= <-]. by destruct (_ && _).
  - intros [= <-]. unfold zoomIn. by destruct (_ <? _).
  - intros [= <-]. unfold zoomOut. by destruct (_ <? _).
Qed.

(** X15. A press of a GPIO button fires its callback once. When the pin of a
    released button reads 0 more than [debounceMs] after the last accepted
    change, the poll records the press and runs the callback; from then on,
    as long as the pin reads 0, no poll does anything, however late; and a
    reading of 1 within [debounceMs] of the press is ignored. A poll that
    cannot read the pin does nothing. *)
Theorem gpio_press_fires_once sysfsLine backend now i (a a1 : App) btn act :
  g_buttons (a_gpioController a) !! i = Some btn →
  gb_onPress btn = Some act →
  gb_lastState btn = false →
  gb_debounceMs btn < GoInt.sub now (gb_lastChange btn) →
  readPin sysfsLine (gb_pin btn) = Some 0 →
  pollButton sysfsLine backend now i a = Returns a1 →
  let pressedBtn := set_gb_lastChange now (set_gb_lastState true btn) in
  let g := a_gpioController a in
  runAction backend act
    (set_a_gpioController (set_g_buttons (<[i := pressedBtn]> (g_buttons g)) g) a)
    = Returns a1 ∧
  g_buttons (a_gpioController a1) !! i = Some pressedBtn ∧
  (∀ sysfsLine' backend' now',
     readPin sysfsLine' (gb_pin btn) = Some 0 →
     pollButton sysfsLine' backend' now' i a1 = Returns a1) ∧
  (∀ sysfsLine' backend' now',
     readPin sysfsLine' (gb_pin btn) = Some 1 →
     GoInt.sub now' now <= gb_debounceMs btn →
     pollButton sysfsLine' backend' now' i a1 = Returns a1) ∧
  (∀ sysfsLine' backend' now',
     readPin sysfsLine' (gb_pin btn) = None →
     pollButton sysfsLine' backend' now' i a1 = Returns a1).
Proof.
  intros Hbtn Hact Hup Htime Hread Hpoll pressedBtn g.
  unfold pollButton in Hpoll. rewrite Hbtn, Hread, Hup in Hpoll. simpl in Hpoll.
  apply Z.ltb_lt in Htime. rewrite Htime, Hact in Hpoll. simpl in Hpoll.
  split; [exact Hpoll|].
  apply runAction_buttons in Hpoll as [Hg _]. simpl in Hg.
  assert (Hi : g_buttons (a_gpioController a1) !! i = Some pressedBtn).
  { rewrite Hg. simpl. apply list_lookup_insert_eq. by eapply lookup_lt_Some. }
  split; [exact Hi|].
  assert (Hpin : gb_pin pressedBtn = gb_pin btn) by done.
  split_and!.
  - intros line' be' now' Hread'. unfold pollButton. by rewrite Hi, Hpin, Hread'.
  - intros line' be' now' Hread' Hsoon. unfold pollButton.
    rewrite Hi, Hpin, Hread'. simpl.
    destruct (gb_debounceMs btn <? GoInt.sub now' now) eqn:E; [|done].
    apply Z.ltb_lt in E. lia.
  - intros line' be' now' Hread'. unfold pollButton. by rewrite Hi, Hpin, Hread'.
Qed.

End ClientFacts.

Lemma quit_key_never_returns_witness :
  in_justPressed quitInput KeyEscape = true ∧
  Update sampleWiden sampleIsZero Z.add Z.sub samplePanSpeed sampleDragLon sampleDragLat
    quitInput sampleApp ≠ Returns sampleApp.
Proof.
  split; [reflexivity|].
  exact (proj2 (quit_key_never_returns sampleWiden sampleIsZero Z.add Z.sub samplePanSpeed
                  sampleDragLon sampleDragLat quitInput sampleApp sampleApp
                  (or_introl eq_refl))).
Defined.

(** The ZOOM+ button of a new station, held down from the poll at 1000 ms. *)
Lemma gpio_press_fires_once_witness :
  ∃ a1 : @App Z Z (list Byte.byte),
    pollButton sampleWiden sampleIsZero allLow (in_backend idleInput) 1000 2 sampleApp
      = Returns a1 ∧
    a_zoom a1 = 16 ∧
    pollButton sampleWiden sampleIsZero allLow (in_backend idleInput) 60000 2 a1
      = Returns a1.
Proof.
  eexists. split; [reflexivity|]. split; [reflexivity|].
  refine (proj1 (proj2 (proj2
    (gpio_press_fires_once sampleWiden sampleIsZero allLow (in_backend idleInput)
       1000 2 sampleApp _
       (mkGPIOButton GPIO_BTN_ZOOMIN "ZOOM+" false 50 0 (Some GpioZoomIn)) GpioZoomIn
       eq_refl eq_refl eq_refl _ eq_refl eq_refl))) allLow (in_backend idleInput) 60000 eq_refl).
  vm_compute. reflexivity.
Defined.

(** ** The on-screen buttons *)

(** Arithmetic of [int] that stays in range is the arithmetic of Z. *)
Ltac unwrap :=
  unfold GoInt.add, GoInt.sub;
  repeat match goal with
  | |- context [GoInt.wrap ?z] =>
    rewrite (GoIntFacts.wrap_id z)
      by (unfold GoInt.inRange, GoInt.minInt, GoInt.maxInt in *; lia)
  end.

(** Where [UpdateLayout] puts the default buttons in a [W] by [H] window. *)
Lemma default_layout W H :
  0 <= W <= GoInt.maxInt → 0 <= H <= GoInt.maxInt → 176 <= H ∨ 602 <= W →
  tc_buttons (UpdateLayout (SetupDefaultButtons NewTouchControls) W H) =
  [ mkTouchButton 5 (H - 125) 60 45 "ZOOM+" "" false true (Some TouchZoomIn);
    mkTouchButton 5 (H - 75) 60 45 "ZOOM-" "" false true (Some TouchZoomOut);
    mkTouchButton 70 (H - 75) 60 45 "FLLW" "" false true (Some TouchFollow);
    mkTouchButton 70 (H - 125) 60 45 "HOME" "" false true (Some TouchHome);
    mkTouchButton 135 (H - 75) 60 45 "CLR" "" false true (Some TouchClear);
    mkTouchButton 135 (H - 125) 60 45 "HUD" "" false true (Some TouchHud);
    mkTouchButton (W / 2 - 40) 5 80 45 "LINK" "" false true (Some TouchLink);
    mkTouchButton (W / 2 - 105) 5 60 45 "PORT" "" false true (Some TouchPort) ].
Proof.
  intros HW HH Hbig. unfold UpdateLayout.
  replace (tc_screenW (SetupDefaultButtons NewTouchControls)) with 0 by reflexivity.
  replace (tc_screenH (SetupDefaultButtons NewTouchControls)) with 0 by reflexivity.
  replace ((0 =? W) && (0 =? H)) with false
    by (symmetry; apply andb_false_iff; rewrite !Z.eqb_neq; lia).
  assert (Hhalf : W ÷ 2 = W / 2) by (apply Z.quot_div_nonneg; lia).
  pose proof (Z.div_le_upper_bound W 2 W ltac:(lia) ltac:(lia)) as Hle.
  pose proof (Z.div_pos W 2 ltac:(lia) ltac:(lia)) as Hpos.
  cbn [tc_buttons SetupDefaultButtons NewTouchControls AddButton fst set_tc_buttons
       app fmap list_fmap].
  unfold place. cbn [btn_Label set_btn_X set_btn_Y set_btn_W btn_X btn_Y btn_W btn_H
    btn_Icon btn_Active btn_Visible btn_OnPress].
  repeat (case_decide; try done).
  rewrite Hhalf. unwrap.
  unfold set_btn_X, set_btn_Y, set_btn_W.
  cbn [btn_X btn_Y btn_W btn_H btn_Label btn_Icon btn_Active btn_Visible btn_OnPress].
  replace (H - 45 - 30 - 45 - 5) with (H - 125) by lia.
  replace (H - 45 - 30) with (H - 75) by lia.
  replace (W / 2 - 40 - 60 - 5) with (W / 2 - 105) by lia.
  reflexivity.
Qed.

Lemma hits_inside btn x y :
  GoInt.inRange (btn_X btn + btn_W btn) → GoInt.inRange (btn_Y btn + btn_H btn) →
  hits btn x y = true ↔
  btn_X btn <= x <= btn_X btn + btn_W btn ∧ btn_Y btn <= y <= btn_Y btn + btn_H btn.
Proof.
  intros HX HY. unfold hits, GoInt.add.
  rewrite !GoIntFacts.wrap_id by done.
  rewrite !andb_true_iff, !Z.leb_le. lia.
Qed.

Section LayoutFacts.

Context {float32 float64 Image : Type}.
Variable widen : float32 → float64.
Variable isZero32 : float32 → bool.

Local Abbreviation App := (@App float32 float64 Image).

(** X16. In a window at least 176 high or 602 wide the default buttons do not
    overlap: a press on a button runs the callback of that button. This holds
    of the buttons as [UpdateLayout] leaves them and whatever their [Active]
    flags are, which is all that [UpdateButtonStates] changes. *)
Theorem touch_press_runs_its_button backend (a : App) W H x y btn act :
  0 <= W <= GoInt.maxInt → 0 <= H <= GoInt.maxInt → 176 <= H ∨ 602 <= W →
  set_btn_Active false <$> tc_buttons (a_touchControls a)
    = tc_buttons (UpdateLayout (SetupDefaultButtons NewTouchControls) W H) →
  btn ∈ tc_buttons (a_touchControls a) →
  btn_OnPress btn = Some act →
  hits btn x y = true →
  handlePress widen isZero32 backend a x y = runAction widen isZero32 backend act a ∧
  set_btn_Active false <$> tc_buttons (a_touchControls (UpdateButtonStates a))
    = set_btn_Active false <$> tc_buttons (a_touchControls a).
Proof.
  intros HW HH Hbig Hlay Hin Hact Hhit. split.
  - rewrite default_layout in Hlay by done.
    unfold handlePress.
    pose proof (Z.div_pos W 2 ltac:(lia) ltac:(lia)) as Hpos.
    pose proof (Z.div_le_upper_bound W 2 W ltac:(lia) ltac:(lia)) as Hle.
    destruct (tc_buttons (a_touchControls a))
      as [|b1 [|b2 [|b3 [|b4 [|b5 [|b6 [|b7 [|b8 [|]]]]]]]]]; try done.
    injection Hlay as H1 H2 H3 H4 H5 H6 H7 H8.
    destruct b1, b2, b3, b4, b5, b6, b7, b8. unfold set_btn_Active in *.
    simplify_eq/=.
    assert (Hpress : ∀ b, hits b x y = true →
              GoInt.inRange (btn_X b + btn_W b) → GoInt.inRange (btn_Y b + btn_H b) →
              btn_X b <= x <= btn_X b + btn_W b ∧ btn_Y b <= y <= btn_Y b + btn_H b).
    { intros b Hb HX HY. by apply hits_inside. }
    assert (Hhit' := Hhit).
    rewrite !elem_of_cons, elem_of_nil in Hin.
    unfold GoInt.inRange, GoInt.minInt, GoInt.maxInt in *.
    pose proof (Z.mul_div_le W 2 ltac:(lia)) as Hdiv.
    pose proof (Z.mul_succ_div_gt W 2 ltac:(lia)) as Hdiv'.
    destruct Hin as [->|[->|[->|[->|[->|[->|[->|[->|[]]]]]]]]];
      apply Hpress in Hhit'; cbn [btn_X btn_Y btn_W btn_H] in *; try lia;
      repeat match goal with
      | |- context [hits ?b x y] =>
        let E := fresh "E" in
        destruct (hits b x y) eqn:E;
          [ first [ by simplify_eq/=
                  | exfalso; apply Hpress in E; cbn [btn_X btn_Y btn_W btn_H] in *; lia ]
          | try done ]
      end.
  - unfold UpdateButtonStates. simpl.
    rewrite <- list_fmap_compose. apply list_fmap_ext.
    intros i b _. simpl. by repeat case_decide.
Qed.

End LayoutFacts.

Lemma touch_press_runs_its_button_witness :
  handlePress sampleWiden sampleIsZero (in_backend idleInput) touchApp 30 370
    = Returns (zoomIn touchApp).
Proof.
  refine (proj1 (touch_press_runs_its_button sampleWiden sampleIsZero (in_backend idleInput)
                   touchApp 800 480 30 370
                   (mkTouchButton 5 355 60 45 "ZOOM+" "" false true (Some TouchZoomIn))
                   TouchZoomIn _ _ _ eq_refl _ eq_refl eq_refl)).
  - unfold GoInt.maxInt. lia.
  - unfold GoInt.maxInt. lia.
  - lia.
  - vm_compute. left.
Defined.

(** In a 601 by 175 window the corner (195, 50) of PORT is also a corner of
    HUD, which comes first: a press there cycles the HUD mode. *)
Example touch_overlap_small_window :
  let buttons := tc_buttons (UpdateLayout (SetupDefaultButtons NewTouchControls) 601 175) in
  hits (mkTouchButton 195 5 60 45 "PORT" "" false true (Some TouchPort)) 195 50 = true ∧
  mkTouchButton 195 5 60 45 "PORT" "" false true (Some TouchPort) ∈ buttons ∧
  btn_OnPress <$> pressedButton buttons 195 50 = Some (Some TouchHud).
Proof.
  split; [reflexivity|]. split; [|reflexivity].
  vm_compute. do 7 right. left.
Qed.

(** ** What the frames keep *)

(** Steps into [let] and into the bind of [Run] under a predicate: the bound
    value is kept, forgotten, or known by the invariant only. *)
Lemma let_keep {A B} (P : B → Prop) (e : A) (f : A → B) :
  P (f e) → P (let x := e in f x).
Proof. done. Qed.

Lemma let_any {A B} (P : B → Prop) (e : A) (f : A → B) :
  (∀ x, P (f x)) → P (let x := e in f x).
Proof. intros Hf. apply Hf. Qed.

Ltac keep_let :=
  lazymatch goal with
  | |- ?P (let x := ?e in @?body x) => refine (let_keep P e body _); cbv beta
  end.

Ltac any_let :=
  lazymatch goal with
  | |- ?P (let x := ?e in @?body x) => refine (let_any P e body _); intros ?; cbv beta
  end.

(** Comparisons as propositions, [int] arithmetic in range as that of Z. *)
Ltac inv_crush :=
  unfold appInv, MinZoom, MaxZoom in *; simpl in *;
  repeat match goal with
  | H : (_ <? _) = true |- _ => apply Z.ltb_lt in H
  | H : (_ <? _) = false |- _ => apply Z.ltb_ge in H
  end;
  unwrap; try lia.

Section SafetyFacts.

Context {float32 float64 Image : Type}.
Variable widen : float32 → float64.
Variable isZero32 : float32 → bool.
Variable fadd fsub : float64 → float64 → float64.
Variable panSpeedOf : Z → float64.
Variable dragLonAt : float64 → Z → Z → float64.
Variable dragLatAt : float64 → float64 → Z → Z → float64.

Local Abbreviation App := (@App float32 float64 Image).
Local Abbreviation action := (runAction widen isZero32).
Local Abbreviation press := (handlePress widen isZero32).
Local Abbreviation frame :=
  (Update widen isZero32 fadd fsub panSpeedOf dragLonAt dragLatAt).

(** A call that returns with the invariant. *)
Local Abbreviation safe := (@safely float32 float64 Image).

(** The invariant looks at six fields. *)
Lemma appInv_fields (a b : App) :
  a_zoom b = a_zoom a → a_hudMode b = a_hudMode a →
  a_selectedPort b = a_selectedPort a → a_ports b = a_ports a →
  a_maxPathLen b = a_maxPathLen a → a_flightPath b = a_flightPath a →
  appInv a → appInv b.
Proof. unfold appInv. by intros -> -> -> -> -> ->. Qed.

Lemma zoomIn_inv (a : App) : appInv a → appInv (zoomIn a).
Proof.
  unfold appInv, zoomIn, MinZoom, MaxZoom. intros Hinv.
  destruct (_ <? _) eqn:E; [|done]. apply Z.ltb_lt in E. simpl. unwrap. lia.
Qed.

Lemma zoomOut_inv (a : App) : appInv a → appInv (zoomOut a).
Proof.
  unfold appInv, zoomOut, MinZoom, MaxZoom. intros Hinv.
  destruct (_ <? _) eqn:E; [|done]. apply Z.ltb_lt in E. simpl. unwrap. lia.
Qed.

Lemma nextHud_inv (a : App) : appInv a → appInv (nextHud a).
Proof.
  unfold appInv, nextHud. intros Hinv. simpl. unwrap.
  pose proof (Z.rem_bound_pos (a_hudMode a + 1) 3 ltac:(lia) ltac:(lia)). lia.
Qed.

Lemma nextPort_inv (a : App) : appInv a → appInv (nextPort a).
Proof.
  unfold appInv, nextPort. intros Hinv.
  destruct (_ <? _) eqn:E; [|done]. apply Z.ltb_lt in E. simpl. unwrap.
  pose proof (Z.rem_bound_pos (a_selectedPort a + 1) (Z.of_nat (length (a_ports a)))
                ltac:(lia) ltac:(lia)).
  lia.
Qed.

Lemma toggleMap_inv (a : App) : appInv a → appInv (toggleMap a).
Proof. by apply appInv_fields. Qed.

Lemma setHome_inv state (a : App) : appInv a → appInv (setHome widen state a).
Proof. by apply appInv_fields. Qed.

Lemma clearPath_inv (a : App) : appInv a → appInv (set_a_flightPath [] a).
Proof. unfold appInv. simpl. lia. Qed.

Lemma let_inv {B} (P : B → Prop) (e : App) (f : App → B) :
  appInv e → (∀ x, appInv x → P (f x)) → P (let x := e in f x).
Proof. intros He Hf. by apply Hf. Qed.

Lemma bind_safe (c : Run App) (k : App → Run App) :
  safe c → (∀ x, appInv x → safe (k x)) → safe (runBind c k).
Proof. intros (a1 & -> & Hinv) Hk. by apply Hk. Qed.

Lemma Returns_safe (a : App) : appInv a → safe (Returns a).
Proof. by eexists. Qed.

(** The index of [a.ports[a.selectedPort]] is in range. *)
Lemma toggleLink_safe backend (a : App) : appInv a → safe (toggleLink backend a).
Proof.
  intros Hinv. unfold toggleLink.
  destruct (IsLinkStarted _).
  { apply Returns_safe. by eapply appInv_fields, Hinv. }
  destruct (_ && _) eqn:E; [|by apply Returns_safe].
  apply andb_true_iff in E as [_ E%Z.ltb_lt].
  assert (Hsel : 0 <= a_selectedPort a) by (unfold appInv in Hinv; lia).
  replace (a_selectedPort a <? 0) with false by (symmetry; apply Z.ltb_ge; lia).
  destruct (lookup_lt_is_Some_2 (a_ports a) (Z.to_nat (a_selectedPort a)) ltac:(lia))
    as [port ->].
  apply Returns_safe. by eapply appInv_fields, Hinv.
Qed.

Lemma runAction_safe backend act (a : App) : appInv a → safe (action backend act a).
Proof.
  intros Hinv.
  destruct act; simpl; try (by apply toggleLink_safe);
    apply Returns_safe;
    repeat case_match;
    auto using zoomIn_inv, zoomOut_inv, nextHud_inv, nextPort_inv, toggleMap_inv,
      setHome_inv, clearPath_inv;
    by eapply appInv_fields, Hinv.
Qed.

Lemma handlePress_safe backend (a : App) x y : appInv a → safe (press backend a x y).
Proof.
  intros Hinv. unfold handlePress.
  destruct (pressedButton _ _ _) as [btn|]; [|by apply Returns_safe].
  destruct (btn_OnPress btn); [|by apply Returns_safe]. by apply runAction_safe.
Qed.

Lemma touchUpdate_safe inp (a : App) :
  appInv a → safe (touchUpdate widen isZero32 inp a).
Proof.
  intros Hinv. unfold touchUpdate.
  assert (Hfirst : safe (if in_mouseJustPressed inp
                         then press (in_backend inp) a (in_cursor inp).1 (in_cursor inp).2
                         else Returns a)).
  { destruct (in_mouseJustPressed inp); [by apply handlePress_safe | by apply Returns_safe]. }
  destruct Hfirst as (a1 & -> & Hinv1). simpl.
  clear a Hinv. revert a1 Hinv1.
  induction (in_touches inp) as [|touch touches IH]; intros a Hinv; simpl.
  { by apply Returns_safe. }
  destruct (handlePress_safe (in_backend inp) a touch.1 touch.2 Hinv) as (a2 & Hp & Hinv2).
  rewrite Hp. by apply IH.
Qed.

Ltac inv_let :=
  lazymatch goal with
  | |- ?P (let x := ?e in @?body x) =>
    refine (let_inv P e body _ _); [|intros ? ?; cbv beta]
  end.

Lemma keysZoom_inv inp (a : App) : appInv a → appInv (keysZoom inp a).
Proof.
  intros Hinv. cbv beta delta [keysZoom]. any_let. inv_let.
  - repeat case_match; try done; inv_crush.
  - repeat case_match; try done; inv_crush.
Qed.

Lemma keysPan_inv inp (a : App) :
  appInv a → appInv (keysPan fadd fsub panSpeedOf inp a).
Proof.
  intros Hinv. cbv beta delta [keysPan]. do 2 any_let.
  repeat (inv_let; [case_match; [by eapply appInv_fields; [..|eassumption]|done]|]).
  case_match; [by eapply appInv_fields; [..|eassumption]|done].
Qed.

Lemma keysToggle_inv inp (a : App) : appInv a → appInv (keysToggle widen inp a).
Proof.
  intros Hinv. cbv beta delta [keysToggle]. any_let.
  repeat (inv_let;
    [cbv zeta; repeat case_match;
       auto using nextHud_inv, toggleMap_inv, setHome_inv, clearPath_inv;
       by eapply appInv_fields; [..|eassumption]|]).
  case_match; [by eapply appInv_fields; [..|eassumption]|done].
Qed.

Lemma handleKeyboard_safe inp (a : App) :
  in_justPressed inp KeyEscape = false → in_justPressed inp KeyQ = false →
  appInv a → safe (handleKeyboard widen fadd fsub panSpeedOf inp a).
Proof.
  intros Hesc Hq Hinv. cbv beta delta [handleKeyboard]. keep_let.
  inv_let; [by apply keysZoom_inv|].
  inv_let; [by apply keysPan_inv|].
  inv_let; [by apply keysToggle_inv|].
  apply bind_safe.
  { case_match; [by apply toggleLink_safe | by apply Returns_safe]. }
  intros a1 Hinv1.
  inv_let; [case_match; auto using nextPort_inv|].
  inv_let; [case_match; [by eapply appInv_fields; [..|eassumption]|done]|].
  rewrite Hesc, Hq. by apply Returns_safe.
Qed.

Lemma handleMouse_inv inp (a : App) :
  appInv a → appInv (handleMouse dragLonAt dragLatAt inp a).
Proof.
  intros Hinv. cbv beta delta [handleMouse].
  inv_let; [repeat case_match; try done; inv_crush|].
  destruct (in_cursor inp) as [cx cy].
  inv_let; [case_match; [by eapply appInv_fields; [..|eassumption]|done]|].
  repeat case_match; try done; by eapply appInv_fields; [..|eassumption].
Qed.

Lemma updatePorts_inv inp (a : App) :
  (∀ n ports, in_backend inp n = RpcDone ports →
     Z.of_nat (length ports) <= GoInt.maxInt) →
  appInv a → appInv (updatePorts inp a).
Proof.
  intros Hback Hinv. unfold updatePorts, scanPorts, GetTransmitters, rpc.
  repeat case_match; simplify_eq; try done;
    try (by eapply appInv_fields; [..|exact Hinv]).
  - unfold appInv in *. simpl. split_and!; try tauto.
    unfold GoInt.maxInt. lia.
  - unfold appInv in *. simpl. split_and!; try tauto.
    eapply Hback. eassumption.
Qed.

Lemma updateFlightPath_inv (a : App) :
  appInv a → appInv (updateFlightPath widen isZero32 a).
Proof.
  intros Hinv. unfold updateFlightPath. cbv zeta.
  case_match; [|done].
  repeat case_match; unfold appInv in *; simpl;
    repeat match goal with
    | H : (_ <? _) = true |- _ => apply Z.ltb_lt in H
    | H : (_ <? _) = false |- _ => apply Z.ltb_ge in H
    end;
    rewrite ?length_drop, ?length_app in *; simpl in *; lia.
Qed.

Lemma NewApp_inv zero64 defaultLat defaultLon client tileManager width height fullscreen :
  appInv (NewApp zero64 defaultLat defaultLon client tileManager width height fullscreen
            : App).
Proof. unfold appInv, MinZoom, MaxZoom, GoInt.maxInt. simpl. unfold DefaultZoom. lia. Qed.

(** X17. A frame without Escape or Q returns, whatever else is pressed, touched or
    received, and keeps the invariant: the zoom stays between [MinZoom] and
    [MaxZoom], the HUD mode among 0, 1, 2, the flight path within
    [maxPathLen], and [a.ports[a.selectedPort]] is never out of range. The
    port lists of the backend are slices, so no longer than [maxInt]. *)
Theorem Update_safe inp (a : App) :
  appInv a →
  in_justPressed inp KeyEscape = false →
  in_justPressed inp KeyQ = false →
  (∀ n ports, in_backend inp n = RpcDone ports →
     Z.of_nat (length ports) <= GoInt.maxInt) →
  ∃ a', Update widen isZero32 fadd fsub panSpeedOf dragLonAt dragLatAt inp a = Returns a'
        ∧ appInv a'.
Proof.
  intros Hinv Hesc Hq Hback. change (safe (frame inp a)).
  cbv beta delta [Update].
  inv_let; [by eapply appInv_fields; [..|exact Hinv]|].
  apply bind_safe.
  { case_match; [|by apply Returns_safe].
    inv_let; [by eapply appInv_fields; [..|eassumption]|].
    apply bind_safe; [by apply touchUpdate_safe|].
    intros a1 Hinv1. apply Returns_safe. by eapply appInv_fields, Hinv1. }
  intros a1 Hinv1. apply bind_safe; [by apply handleKeyboard_safe|].
  intros a2 Hinv2.
  inv_let; [by apply handleMouse_inv|].
  inv_let; [by apply updatePorts_inv|].
  apply Returns_safe. by apply updateFlightPath_inv.
Qed.

(** X18. A poll of the GPIO buttons returns and keeps the invariant, whatever the
    pins read. *)
Theorem pollButtons_safe sysfsLine backend now (a : App) :
  appInv a →
  ∃ a', pollButtons widen isZero32 sysfsLine backend now a = Returns a' ∧ appInv a'.
Proof.
  intros Hinv. unfold pollButtons.
  generalize (seq 0 (length (g_buttons (a_gpioController a)))). intros indices.
  revert a Hinv. induction indices as [|i indices IH]; intros a Hinv; simpl.
  { by eexists. }
  assert (Hone : safe (pollButton widen isZero32 sysfsLine backend now i a)).
  { unfold pollButton.
    repeat case_match;
      first [ by apply Returns_safe
            | apply runAction_safe; by eapply appInv_fields, Hinv
            | apply Returns_safe; by eapply appInv_fields, Hinv ]. }
  destruct Hone as (a1 & -> & Hinv1). simpl. by apply IH.
Qed.

End SafetyFacts.

Lemma Update_safe_witness :
  ∃ a', Update sampleWiden sampleIsZero Z.add Z.sub samplePanSpeed sampleDragLon
          sampleDragLat idleInput sampleApp = Returns a' ∧ appInv a'.
Proof.
  apply Update_safe.
  - unfold appInv, MinZoom, MaxZoom, GoInt.maxInt. simpl. unfold DefaultZoom. lia.
  - reflexivity.
  - reflexivity.
  - intros n ports [= <-]. unfold GoInt.maxInt. simpl. lia.
Defined.

Lemma pollButtons_safe_witness :
  ∃ a', pollButtons sampleWiden sampleIsZero allLow (in_backend idleInput) 1000 sampleApp
          = Returns a' ∧ appInv a'.
Proof.
  apply pollButtons_safe.
  unfold appInv, MinZoom, MaxZoom, GoInt.maxInt. simpl. unfold DefaultZoom. lia.
Defined.

(** ** The frame on the screen *)

(** X19. With the invariant [Draw] never panics: the shift count [zoom] of
    [GetTilesForView] is between [MinZoom] and [MaxZoom]. Together with
    [NewApp], [Update] and the callbacks keeping the invariant, no frame of
    the station panics in the tile enumeration. *)
Theorem Draw_never_panics {float32 float64 Image : Type}
    (LatLonToTile : float64 → float64 → Z → Z * Z)
    (visible : float64 → float64 → Z → Z → Z → TileCoord → bool)
    (a : @App float32 float64 Image) :
  appInv a → ∃ r, Draw LatLonToTile visible a = Ok r.
Proof.
  intros Hinv. unfold Draw. apply drawMapWithOffset_total.
  unfold appInv, MinZoom, MaxZoom in Hinv. lia.
Qed.

Lemma Draw_never_panics_witness :
  ∃ r, Draw centerAt alwaysVisible sampleApp = Ok r.
Proof.
  apply Draw_never_panics.
  unfold appInv, MinZoom, MaxZoom, GoInt.maxInt. simpl. unfold DefaultZoom. lia.
Defined.

(** ** The telemetry stream *)

(** X20. The [streaming] flag lets one [streamTelemetry] goroutine be started at
    a time. On a client whose mutex is free, [StartTelemetryStream] starts one
    exactly when none is streaming; a second call starts none and changes
    nothing; [StopTelemetryStream] then cancels the context of the stream, and
    only after it does a call start a goroutine again. *)
Theorem StartTelemetryStream_once {float32 : Type} (c : @GRPCClient float32) :
  c_mu c = false →
  ∃ c1 c2 c3,
    StartTelemetryStream c = Returns (c1, negb (c_streaming c)) ∧
    StartTelemetryStream c1 = Returns (c1, false) ∧
    StopTelemetryStream c1 = Returns c2 ∧
    (c_streaming c = false → c_cancelled c2 = true) ∧
    StartTelemetryStream c2 = Returns (c3, true).
Proof.
  intros Hfree. destruct c as [addr conn client state cancel cancelled streaming mu sent].
  simpl in Hfree. subst mu.
  destruct streaming; do 3 eexists; (split_and!; [reflexivity..| |reflexivity]); try done.
Qed.

Lemma StartTelemetryStream_once_witness :
  ∃ c1, StartTelemetryStream sampleClient = Returns (c1, true) ∧
        StartTelemetryStream c1 = Returns (c1, false).
Proof.
  destruct (StartTelemetryStream_once sampleClient eq_refl) as (c1 & c2 & c3 & H1 & H2 & _).
  exists c1. split; [exact H1 | exact H2].
Defined.

(** ** Zoom and the tile cache *)

Section ZoomFacts.

Context {float32 float64 Image : Type}.
Variable widen : float32 → float64.
Variable isZero32 : float32 → bool.
Variable dragLonAt : float64 → Z → Z → float64.
Variable dragLatAt : float64 → float64 → Z → Z → float64.

Local Abbreviation App := (@App float32 float64 Image).

(** X21. Only the zoom keys empty the tile map. A frame whose zoom keys change
    the zoom leaves no tile in memory, and the in-flight marks, the source,
    the disk and the requests as they were; the wheel and the drag leave the
    tile manager alone, and so does every button callback, on screen or on
    GPIO, but the one that toggles the map source. *)
Theorem zoom_keys_clear_tiles inp (a : App) :
  a_zoom (keysZoom inp a) ≠ a_zoom a →
  (tiles (tm (a_tileManager (keysZoom inp a))) = ∅ ∧
   a_tileManager (keysZoom inp a)
     = withTm (a_tileManager a) (ClearCache (tm (a_tileManager a)))) ∧
  a_tileManager (handleMouse dragLonAt dragLatAt inp a) = a_tileManager a ∧
  (∀ backend act a', act ≠ GpioMap →
     runAction widen isZero32 backend act a = Returns a' →
     a_tileManager a' = a_tileManager a).
Proof.
  intros Hzoom. split; [|split].
  - unfold keysZoom in *. cbv zeta in *.
    repeat case_match; simpl in *; try done.
  - unfold handleMouse. cbv zeta.
    destruct (in_cursor inp) as [cx cy].
    repeat case_match; simpl; try done.
  - intros backend act a' Hact.
    destruct act; simpl; try done; try (intros [= <-]);
      unfold zoomIn, zoomOut, nextPort, nextHud; repeat case_match; try done.
    + unfold toggleLink. repeat case_match; try done; by intros [= <-].
    + unfold toggleLink. repeat case_match; try done; by intros [= <-].
Qed.

End ZoomFacts.

Lemma zoom_keys_clear_tiles_witness :
  tiles (tm (a_tileManager tiledApp)) !! homeKey = Some pixels ∧
  tiles (tm (a_tileManager (keysZoom zoomKeyInput tiledApp))) = ∅.
Proof.
  split; [reflexivity|].
  refine (proj1 (proj1 (zoom_keys_clear_tiles sampleWiden sampleIsZero sampleDragLon
                          sampleDragLat zoomKeyInput tiledApp _))).
  vm_compute. discriminate.
Defined.
